(** * gdp_he: the percentile split and the per-group analysis

    A shallow embedding of [analyze_split] (interactive_report.py) and of the
    Python and library operations it is written with.

    - [Binary64]: Python's [float], an IEEE 754 double, as the rational it
      denotes; every operation is the exact result rounded to nearest, ties
      to even.
    - [Py]: the Python values and exceptions the function handles.
    - [Frame]: the part of a pandas DataFrame the function touches.
    - [Libs]: the numpy, scipy, pandas and libm entry points the function
      calls, as interfaces with the documented behaviour the proofs use.
    - [Report]: [cutoff_idx], [split], [analyze_group], [analyze_split].
    - [Reference]: one implementation of the interfaces, used to run the
      model on concrete data.
    - [VectorSort], [FloatStats]: numpy's vectorised argsort on short
      arrays, numpy's pairwise mean and scipy's t-test in binary64, for the
      inputs on which rounding or the order of ties decides the result. *)

From Stdlib Require Import ZArith QArith Qabs Qround Qpower Qreduction.
From Stdlib Require Import Lia Lqa Bool String List Permutation Sorted Orders.
From Stdlib Require Import Mergesort SpecFloat.
Import ListNotations.

Local Open Scope Q_scope.

(* ================================================================== *)
(** * Binary64 *)
(* ================================================================== *)

Module Binary64.

(** A double is a NaN, a signed infinity, or a finite value.  Signed zeros
    are merged: no operation used here tells them apart. *)
Inductive float64 : Type :=
| NaN
| Inf (neg : bool)
| Fin (q : Q).

Definition pow2 (e : Z) : Q := 2 ^ e.

(** [ilog2 a] is the binade of [a > 0]: [2^(ilog2 a) <= a < 2^(ilog2 a + 1)]. *)
Definition ilog2 (a : Q) : Z :=
  let k := (Z.log2 (Qnum a) - Z.log2 (Zpos (Qden a)))%Z in
  if Qle_bool (pow2 k) a then k else (k - 1)%Z.

(** Round to the nearest integer, ties to even. *)
Definition rne (x : Q) : Z :=
  let f := Qfloor x in
  match Qcompare (x - inject_Z f) (1 # 2) with
  | Lt => f
  | Gt => (f + 1)%Z
  | Eq => if Z.even f then f else (f + 1)%Z
  end.

(** Exponent of the unit in the last place of [a > 0]: 53 significant bits,
    and never below the subnormal spacing [2^-1074]. *)
Definition ulp_exp (a : Q) : Z := Z.max (ilog2 a - 52) (-1074).

Definition round_mag (a : Q) : Q :=
  let ex := ulp_exp a in inject_Z (rne (a / pow2 ex)) * pow2 ex.

(** The double nearest to [q]; magnitudes that round to [2^1024] or more
    overflow to infinity. *)
Definition round64 (q : Q) : float64 :=
  match Qcompare q 0 with
  | Eq => Fin 0
  | Gt => let v := round_mag q in
          if Qle_bool (pow2 1024) v then Inf false else Fin (Qred v)
  | Lt => let v := round_mag (- q) in
          if Qle_bool (pow2 1024) v then Inf true else Fin (Qred (- v))
  end.

Definition is_nan (x : float64) : bool :=
  match x with NaN => true | _ => false end.

Definition is_finite (x : float64) : bool :=
  match x with Fin _ => true | _ => false end.

Definition Qsign_neg (q : Q) : bool :=
  match Qcompare q 0 with Lt => true | _ => false end.

(** [x / y] as the hardware computes it: no exception, a zero divisor gives
    an infinity or a NaN. *)
Definition fdiv (x y : float64) : float64 :=
  match x, y with
  | NaN, _ | _, NaN => NaN
  | Inf _, Inf _ => NaN
  | Inf s, Fin b => Inf (xorb s (Qsign_neg b))
  | Fin _, Inf _ => Fin 0
  | Fin a, Fin b =>
      if Qeq_bool b 0
      then (if Qeq_bool a 0 then NaN else Inf (Qsign_neg a))
      else round64 (a / b)
  end.

Definition fmul (x y : float64) : float64 :=
  match x, y with
  | NaN, _ | _, NaN => NaN
  | Inf s, Inf t => Inf (xorb s t)
  | Inf s, Fin b => if Qeq_bool b 0 then NaN else Inf (xorb s (Qsign_neg b))
  | Fin a, Inf t => if Qeq_bool a 0 then NaN else Inf (xorb (Qsign_neg a) t)
  | Fin a, Fin b => round64 (a * b)
  end.

Definition fadd (x y : float64) : float64 :=
  match x, y with
  | NaN, _ | _, NaN => NaN
  | Inf s, Inf t => if Bool.eqb s t then Inf s else NaN
  | Inf s, Fin _ => Inf s
  | Fin _, Inf t => Inf t
  | Fin a, Fin b => round64 (a + b)
  end.

Definition fsub (x y : float64) : float64 :=
  match x, y with
  | NaN, _ | _, NaN => NaN
  | Inf s, Inf t => if Bool.eqb s t then NaN else Inf s
  | Inf s, Fin _ => Inf s
  | Fin _, Inf t => Inf (negb t)
  | Fin a, Fin b => round64 (a - b)
  end.

(** [x <= y]; false as soon as one side is a NaN. *)
Definition fleb (x y : float64) : bool :=
  match x, y with
  | NaN, _ | _, NaN => false
  | Inf true, _ => true
  | _, Inf false => true
  | Inf false, _ => false
  | _, Inf true => false
  | Fin a, Fin b => Qle_bool a b
  end.

(** [x < y]; false as soon as one side is a NaN. *)
Definition fltb (x y : float64) : bool :=
  match x, y with
  | NaN, _ | _, NaN => false
  | x, y => negb (fleb y x)
  end.

Definition fle (x y : float64) : Prop := fleb x y = true.
Definition flt (x y : float64) : Prop := fltb x y = true.

(** Truncation toward zero, the integer part that [int()] keeps. *)
Definition Qtrunc (q : Q) : Z :=
  if Qle_bool 0 q then Qfloor q else Qceiling q.

(** The same values in the Standard Library's bit-level IEEE 754 model, to
    compare the two on concrete operands. *)
Definition of_spec (f : spec_float) : float64 :=
  match f with
  | S754_zero _ => Fin 0
  | S754_infinity s => Inf s
  | S754_nan => NaN
  | S754_finite s m e =>
      Fin (Qred ((if s then - inject_Z (Zpos m) else inject_Z (Zpos m)) * pow2 e))
  end.

Definition spec_of_Z (z : Z) : spec_float := binary_normalize 53 1024 z 0 false.

End Binary64.

(* ================================================================== *)
(** * Py: Python numbers and exceptions *)
(* ================================================================== *)

Module Py.
Import Binary64.

Inductive exn : Type :=
| KeyError (key : string)
| ValueError
| OverflowError
| ZeroDivisionError.

(** A call returns a value or raises. *)
Inductive result (A : Type) : Type :=
| Ok (a : A)
| Raise (e : exn).

Arguments Ok {A} a.
Arguments Raise {A} e.

Definition bind {A B : Type} (r : result A) (k : A -> result B) : result B :=
  match r with
  | Ok a => k a
  | Raise e => Raise e
  end.

Notation "x <- r ;; k" := (bind r (fun x => k))
  (at level 61, r at next level, right associativity).

Definition raises {A : Type} (r : result A) : bool :=
  match r with Ok _ => false | Raise _ => true end.

(** The percentile is whatever number the caller passes: an [int] or a
    [float]. *)
Inductive pynum : Type :=
| PyInt (z : Z)
| PyFloat (f : float64).

(** The number a Python value denotes; comparisons between [int] and
    [float] are exact. *)
Definition value (x : pynum) : float64 :=
  match x with
  | PyInt z => Fin (inject_Z z)
  | PyFloat f => f
  end.

Definition py_le (x y : pynum) : Prop := fle (value x) (value y).

(** [float(z)]: the nearest double, [OverflowError] beyond the range. *)
Definition float_of_int (z : Z) : result float64 :=
  match round64 (inject_Z z) with
  | Inf _ => Raise OverflowError
  | f => Ok f
  end.

(** [a / b] on two [int]s: the correctly rounded quotient. *)
Definition int_truediv (a b : Z) : result float64 :=
  if (b =? 0)%Z then Raise ZeroDivisionError
  else match round64 (inject_Z a / inject_Z b) with
       | Inf _ => Raise OverflowError
       | f => Ok f
       end.

(** [x / y] on two [float]s: a zero divisor raises. *)
Definition float_truediv (x y : float64) : result float64 :=
  match y with
  | Fin b => if Qeq_bool b 0 then Raise ZeroDivisionError else Ok (fdiv x y)
  | _ => Ok (fdiv x y)
  end.

(** [x / d] where [d] is an [int] literal. *)
Definition truediv (x : pynum) (d : Z) : result float64 :=
  match x with
  | PyInt z => int_truediv z d
  | PyFloat f => y <- float_of_int d ;; float_truediv f y
  end.

(** [n * f] where [n] is an [int] and [f] a [float]. *)
Definition mul_int_float (n : Z) (f : float64) : result float64 :=
  x <- float_of_int n ;; Ok (fmul x f).

(** [int(f)]: truncation toward zero; a NaN or an infinity raises. *)
Definition int_of_float (f : float64) : result Z :=
  match f with
  | NaN => Raise ValueError
  | Inf _ => Raise OverflowError
  | Fin q => Ok (Qtrunc q)
  end.

(** [a - x] where [a] is an [int] literal. *)
Definition rsub_int (a : Z) (x : pynum) : pynum :=
  match x with
  | PyInt z => PyInt (a - z)
  | PyFloat f => PyFloat (fsub (round64 (inject_Z a)) f)
  end.

(** A scalar that a pandas reduction hands back is a [numpy.float64] or a
    plain Python [float]; the two differ in what a zero divisor does. *)
Inductive scalar : Type :=
| np_float64 (x : float64)
| py_float (x : float64).

Definition scalar_value (s : scalar) : float64 :=
  match s with np_float64 x | py_float x => x end.

(** [s / y] where [y] is a Python [float]. *)
Definition scalar_truediv (s : scalar) (y : float64) : result float64 :=
  match s with
  | np_float64 x => Ok (fdiv x y)
  | py_float x => float_truediv x y
  end.

End Py.

(* ================================================================== *)
(** * Libs: what the function calls in numpy, scipy, pandas and libm *)
(* ================================================================== *)

Module Libs.
Import Binary64 Py.

(** The order numpy sorts doubles by: the usual one, NaN after everything. *)
Definition np_leb (x y : float64) : bool := is_nan y || fleb x y.

Definition np_le (x y : float64) : Prop := np_leb x y = true.

(** [ndarray.argsort(kind='quicksort')], the sort [sort_values] runs when no
    [kind] is passed.  numpy documents what every kind returns, the indices
    that put the array in ascending order, and documents quicksort as not
    stable: the order it leaves equal keys in is no part of the interface. *)
Class Numpy : Type := {
  argsort : list float64 -> list nat;
  argsort_perm : forall a, Permutation (argsort a) (seq 0 (length a));
  argsort_sorted : forall a,
    StronglySorted np_le (map (fun i => nth i a NaN) (argsort a))
}.

(** The values a reduction with [skipna=True], or a test with
    [nan_policy='omit'], works on. *)
Definition dropna (s : list float64) : list float64 :=
  filter (fun x => negb (is_nan x)) s.

(** The rationals of a sample without infinities. *)
Fixpoint finite_values (s : list float64) : option (list Q) :=
  match s with
  | [] => Some []
  | Fin q :: s' =>
      match finite_values s' with
      | Some l => Some (q :: l)
      | None => None
      end
  | _ :: _ => None
  end.

Definition Qsum (l : list Q) : Q := fold_right Qplus 0 l.

Definition Qlen (l : list Q) : Q := inject_Z (Z.of_nat (length l)).

Definition Qmean (l : list Q) : Q := Qsum l / Qlen l.

Record TtestResult : Type := { statistic : float64; pvalue : float64 }.

(** [scipy.stats.ttest_ind(a, b, nan_policy='omit')], Student's test for two
    independent samples, on the values of [a] and [b] that are not missing.
    What it returns is computed in binary64 inside the library; the interface
    promises nothing about it. *)
Class Scipy : Type := {
  ttest_ind : list float64 -> list float64 -> TtestResult
}.

(** The reductions of a pandas Series, all with [skipna=True].  On a Series
    with no valid value, empty or all missing, [sum] is zero, [count] is
    zero and the others are NaN. *)
Class Pandas : Type := {
  mean : list float64 -> float64;
  std : list float64 -> scalar;
  median : list float64 -> float64;
  var : list float64 -> float64;
  kurtosis : list float64 -> float64;
  skew : list float64 -> float64;
  max : list float64 -> float64;
  min : list float64 -> float64;
  sum : list float64 -> float64;
  count : list float64 -> Z;
  mean_no_valid : forall s, dropna s = [] -> mean s = NaN;
  std_no_valid : forall s, dropna s = [] -> scalar_value (std s) = NaN;
  median_no_valid : forall s, dropna s = [] -> median s = NaN;
  var_no_valid : forall s, dropna s = [] -> var s = NaN;
  kurtosis_no_valid : forall s, dropna s = [] -> kurtosis s = NaN;
  skew_no_valid : forall s, dropna s = [] -> skew s = NaN;
  max_no_valid : forall s, dropna s = [] -> max s = NaN;
  min_no_valid : forall s, dropna s = [] -> min s = NaN;
  sum_no_valid : forall s, dropna s = [] -> sum s = Fin 0;
  count_valid : forall s, count s = Z.of_nat (length (dropna s))
}.

(** [x ** 0.5] on a [float], the C library's [pow(x, 0.5)]: zero at zero,
    finite and positive on the lengths a Series can have. *)
Class Libm : Type := {
  pow_half : float64 -> float64;
  pow_half_zero : pow_half (Fin 0) = Fin 0;
  pow_half_positive : forall x,
    1 <= x -> x <= pow2 64 -> exists r, pow_half (Fin x) = Fin r /\ 0 < r
}.

End Libs.

(* ================================================================== *)
(** * Frame: the DataFrame operations the function uses *)
(* ================================================================== *)

Module Frame.
Import Binary64 Py Libs.

(** A row keeps the index label it was loaded with, which is what tells two
    rows with the same cells apart, and one cell per column; a missing
    value is a NaN. *)
Record Row : Type := { label : nat; cells : list float64 }.

Record DataFrame : Type := { columns : list string; rows : list Row }.

Fixpoint position (c : string) (cols : list string) : option nat :=
  match cols with
  | [] => None
  | c' :: cols' =>
      if String.eqb c c' then Some O
      else match position c cols' with
           | Some i => Some (S i)
           | None => None
           end
  end.

Definition cell (i : nat) (r : Row) : float64 := nth i (cells r) NaN.

(** [df[c]]: the column as a Series, [KeyError] when there is none. *)
Definition getitem (df : DataFrame) (c : string) : result (list float64) :=
  match position c (columns df) with
  | Some i => Ok (map (cell i) (rows df))
  | None => Raise (KeyError c)
  end.

(** [len(df)]. *)
Definition len (df : DataFrame) : nat := length (rows df).

(** Where a slice bound [k] falls in a sequence of [n] items: a negative
    bound counts from the end, and both ends clip. *)
Definition slice_bound (n : nat) (k : Z) : nat :=
  if (k <? 0)%Z then Z.to_nat (Z.max 0 (Z.of_nat n + k))
  else Nat.min (Z.to_nat k) n.

(** [df.iloc[:k]] and [df.iloc[k:]]. *)
Definition iloc_to (k : Z) (df : DataFrame) : DataFrame :=
  {| columns := columns df;
     rows := firstn (slice_bound (len df) k) (rows df) |}.

Definition iloc_from (k : Z) (df : DataFrame) : DataFrame :=
  {| columns := columns df;
     rows := skipn (slice_bound (len df) k) (rows df) |}.

(** [l[indexer]]: the items at the given positions, in that order. *)
Definition take {A : Type} (indexer : list nat) (l : list A) : list A :=
  flat_map (fun i => match nth_error l i with
                     | Some x => [x]
                     | None => []
                     end) indexer.

(** [pandas.core.sorting.nargsort(items, kind='quicksort', ascending=False,
    na_position='last')]: the missing values are set aside, the others are
    reversed, argsorted and reversed again, and the positions of the missing
    ones are appended. *)
Definition nargsort `{Numpy} (items : list float64) : list nat :=
  let idx := seq 0 (length items) in
  let is_missing := fun i => is_nan (nth i items NaN) in
  let non_nan_idx := filter (fun i => negb (is_missing i)) idx in
  let nan_idx := filter is_missing idx in
  let non_nans := map (fun i => nth i items NaN) non_nan_idx in
  let non_nans := rev non_nans in
  let non_nan_idx := rev non_nan_idx in
  let indexer := map (fun j => nth j non_nan_idx O) (argsort non_nans) in
  let indexer := rev indexer in
  indexer ++ nan_idx.

(** Descending order with the missing values last: [x] may stand before
    [y]. *)
Definition before_desc (x y : float64) : Prop :=
  is_nan y = true \/ (is_nan x = false /\ fle y x).

(** [df.sort_values(by=c, ascending=False)]. *)
Definition sort_values `{Numpy} (df : DataFrame) (c : string)
  : result DataFrame :=
  k <- getitem df c ;;
  Ok {| columns := columns df; rows := take (nargsort k) (rows df) |}.

End Frame.

(* ================================================================== *)
(** * Report: interactive_report.py *)
(* ================================================================== *)

Module Report.
Import Binary64 Py Libs Frame.

Definition rank_column : string := "2021_GDP"%string.
Definition reference_column : string := "2019_HE"%string.
Definition comparison_column : string := "2021_HE"%string.

(** Lines 26 and 29 of [analyze_split]:
    [cutoff_idx = int(len(data_sorted) * (percentile_threshold / 100))], then
    [cutoff_idx = max(1, min(cutoff_idx, len(data_sorted) - 1))]. *)
Definition cutoff_idx (n : nat) (percentile_threshold : pynum) : result Z :=
  fraction <- truediv percentile_threshold 100 ;;
  product <- mul_int_float (Z.of_nat n) fraction ;;
  cutoff <- int_of_float product ;;
  Ok (Z.max 1 (Z.min cutoff (Z.of_nat n - 1))).

(** Lines 23 to 33 of [analyze_split], the split itself: sort, cut, slice. *)
Definition split `{Numpy} (data : DataFrame) (percentile_threshold : pynum)
  : result (DataFrame * DataFrame) :=
  data_sorted <- sort_values data rank_column ;;
  cutoff <- cutoff_idx (len data_sorted) percentile_threshold ;;
  let upper_group := iloc_to cutoff data_sorted in
  let lower_group := iloc_from cutoff data_sorted in
  Ok (upper_group, lower_group).

(** The twelve entries of the [stats[year]] dictionary. *)
Record Stats : Type := {
  Mean : float64;
  Standard_Error : float64;
  Median : float64;
  Standard_Deviation : float64;
  Sample_Variance : float64;
  Kurtosis : float64;
  Skewness : float64;
  Range : float64;
  Minimum : float64;
  Maximum : float64;
  Sum : float64;
  Count : Z
}.

(** The dictionary literal of lines 49 to 62, for the Series [group[year]].
    The only entry that can raise is the second. *)
Definition describe `{Pandas} `{Libm} (series : list float64) : result Stats :=
  size <- float_of_int (Z.of_nat (length series)) ;;
  standard_error <- scalar_truediv (std series) (pow_half size) ;;
  Ok {| Mean := mean series;
        Standard_Error := standard_error;
        Median := median series;
        Standard_Deviation := scalar_value (std series);
        Sample_Variance := var series;
        Kurtosis := kurtosis series;
        Skewness := skew series;
        Range := fsub (max series) (min series);
        Minimum := min series;
        Maximum := max series;
        Sum := sum series;
        Count := count series |}.

(** The literal [0.05]. *)
Definition alpha : float64 := Eval vm_compute in round64 (5 # 100).

(** One entry of [results]. *)
Record GroupResult : Type := {
  data : DataFrame;
  result_pvalue : float64;
  result_statistic : float64;
  significant : bool;
  stats : list (string * Stats)
}.

(** The body of the loop, lines 42 to 70, for one group. *)
Definition analyze_group `{Scipy} `{Pandas} `{Libm} (group : DataFrame)
  : result GroupResult :=
  comparison <- getitem group comparison_column ;;
  reference <- getitem group reference_column ;;
  let t_test_result := ttest_ind comparison reference in
  let one_tailed_pvalue := fdiv (pvalue t_test_result) (Fin 2) in
  series_2019 <- getitem group reference_column ;;
  stats_2019 <- describe series_2019 ;;
  series_2021 <- getitem group comparison_column ;;
  stats_2021 <- describe series_2021 ;;
  Ok {| data := group;
        result_pvalue := one_tailed_pvalue;
        result_statistic := statistic t_test_result;
        significant := fltb one_tailed_pvalue alpha
                       && fltb (Fin 0) (statistic t_test_result);
        stats := [(reference_column, stats_2019);
                  (comparison_column, stats_2021)] |}.

(** The keys of [results]: ["Top {p}%"] and ["Bottom {100-p}%"]. *)
Inductive group_name : Type :=
| Top (percent : pynum)
| Bottom (percent : pynum).

(** [analyze_split(data, percentile_threshold)]. *)
Definition analyze_split `{Numpy} `{Scipy} `{Pandas} `{Libm}
           (data : DataFrame) (percentile_threshold : pynum)
  : result (list (group_name * GroupResult)) :=
  groups <- split data percentile_threshold ;;
  let upper_group := fst groups in
  let lower_group := snd groups in
  let upper_name := Top percentile_threshold in
  let lower_name := Bottom (rsub_int 100 percentile_threshold) in
  upper_result <- analyze_group upper_group ;;
  lower_result <- analyze_group lower_group ;;
  Ok [(upper_name, upper_result); (lower_name, lower_result)].

End Report.
(* ================================================================== *)
(** * Facts about Binary64 *)
(* ================================================================== *)

Module Binary64Facts.
Import Binary64.

(* ------------------------------------------------------------------ *)
(** ** Powers of two *)

Lemma pow2_pos e : 0 < pow2 e.
Proof. unfold pow2. apply Qpower_0_lt. reflexivity. Qed.

Lemma pow2_add a b : pow2 (a + b) == pow2 a * pow2 b.
Proof. unfold pow2. apply Qpower_plus. discriminate. Qed.

Lemma pow2_le a b : (a <= b)%Z -> pow2 a <= pow2 b.
Proof. intros H. unfold pow2. apply Qpower_le_compat_l; [exact H | discriminate]. Qed.

Lemma pow2_lt_inv a b : pow2 a < pow2 b -> (a < b)%Z.
Proof. intros H. unfold pow2 in H. eapply Qpower_lt_compat_l_inv; [exact H | reflexivity]. Qed.

Lemma pow2_Z n : (0 <= n)%Z -> pow2 n == inject_Z (2 ^ n).
Proof. intros H. unfold pow2. rewrite Zpower_Qpower by exact H. reflexivity. Qed.

Lemma pow2_nonzero e : ~ pow2 e == 0.
Proof. intros H. pose proof (pow2_pos e) as P. rewrite H in P. discriminate P. Qed.

Lemma div_pow2_le a b e : a <= b -> a / pow2 e <= b / pow2 e.
Proof.
  intros H. unfold Qdiv. apply Qmult_le_compat_r; [exact H |].
  apply Qlt_le_weak, Qinv_lt_0_compat, pow2_pos.
Qed.

Lemma div_pow2_cancel e1 e2 : pow2 e1 / pow2 e2 == pow2 (e1 - e2).
Proof.
  assert (E : pow2 e1 == pow2 (e1 - e2) * pow2 e2).
  { rewrite <- pow2_add. replace (e1 - e2 + e2)%Z with e1 by ring. reflexivity. }
  rewrite E. field. apply pow2_nonzero.
Qed.

(* ------------------------------------------------------------------ *)
(** ** The binade of a positive rational *)

Lemma ilog2_spec a : 0 < a -> pow2 (ilog2 a) <= a /\ a < pow2 (ilog2 a + 1).
Proof.
  intros Ha. destruct a as [n d].
  assert (Hn : (0 < n)%Z) by (unfold Qlt in Ha; simpl in Ha; lia).
  unfold ilog2. cbn [Qnum Qden].
  set (ln := Z.log2 n). set (ld := Z.log2 (Zpos d)).
  destruct (Z.log2_spec n Hn) as [Hn1 Hn2]. fold ln in Hn1, Hn2.
  destruct (Z.log2_spec (Zpos d) (Pos2Z.is_pos d)) as [Hd1 Hd2].
  fold ld in Hd1, Hd2.
  assert (Hln : (0 <= ln)%Z) by apply Z.log2_nonneg.
  assert (Hld : (0 <= ld)%Z) by apply Z.log2_nonneg.
  assert (Qn1 : pow2 ln <= inject_Z n).
  { rewrite pow2_Z by lia. rewrite <- Zle_Qle. exact Hn1. }
  assert (Qn2 : inject_Z n < pow2 (ln + 1)).
  { rewrite pow2_Z by lia. rewrite <- Zlt_Qlt. exact Hn2. }
  assert (Qd1 : pow2 ld <= inject_Z (Zpos d)).
  { rewrite pow2_Z by lia. rewrite <- Zle_Qle. exact Hd1. }
  assert (Qd2 : inject_Z (Zpos d) <= pow2 (ld + 1)).
  { rewrite pow2_Z by lia. rewrite <- Zle_Qle. unfold Z.succ in Hd2. lia. }
  assert (Ea : n # d == inject_Z n / inject_Z (Zpos d)) by apply Qmake_Qdiv.
  assert (Dpos : 0 < inject_Z (Zpos d)) by reflexivity.
  assert (B : n # d < pow2 (ln - ld + 1)).
  { rewrite Ea. apply Qlt_shift_div_r; [exact Dpos |].
    eapply Qlt_le_trans; [exact Qn2 |].
    replace (ln + 1)%Z with ((ln - ld + 1) + ld)%Z by ring.
    rewrite pow2_add. apply Qmult_le_l; [apply pow2_pos | exact Qd1]. }
  assert (A : pow2 (ln - ld - 1) <= n # d).
  { rewrite Ea. apply Qle_shift_div_l; [exact Dpos |].
    eapply Qle_trans; [| exact Qn1].
    replace ln with ((ln - ld - 1) + (ld + 1))%Z at 2 by ring.
    rewrite pow2_add. apply Qmult_le_l; [apply pow2_pos | exact Qd2]. }
  destruct (Qle_bool (pow2 (ln - ld)) (n # d)) eqn:E.
  - split; [apply Qle_bool_iff; exact E | exact B].
  - split; [exact A |].
    replace (ln - ld - 1 + 1)%Z with (ln - ld)%Z by ring.
    apply Qnot_le_lt. intros H. apply Qle_bool_iff in H. congruence.
Qed.

Lemma ilog2_lower a k : pow2 k <= a -> (k <= ilog2 a)%Z.
Proof.
  intros H. pose proof (pow2_pos k) as P.
  assert (0 < a) as Ha by lra.
  destruct (ilog2_spec a Ha) as [_ U].
  assert (pow2 k < pow2 (ilog2 a + 1)) as S by lra.
  apply pow2_lt_inv in S. lia.
Qed.

Lemma ilog2_mono a b : 0 < a -> a <= b -> (ilog2 a <= ilog2 b)%Z.
Proof.
  intros Ha Hab.
  assert (Hb : 0 < b) by (eapply Qlt_le_trans; eassumption).
  destruct (ilog2_spec a Ha) as [La _]. destruct (ilog2_spec b Hb) as [_ Ub].
  assert (H : pow2 (ilog2 a) < pow2 (ilog2 b + 1)).
  { eapply Qle_lt_trans; [exact La |]. eapply Qle_lt_trans; eassumption. }
  apply pow2_lt_inv in H. lia.
Qed.

Lemma ulp_exp_mono a b : 0 < a -> a <= b -> (ulp_exp a <= ulp_exp b)%Z.
Proof.
  intros Ha Hab. unfold ulp_exp. pose proof (ilog2_mono a b Ha Hab). lia.
Qed.

(* ------------------------------------------------------------------ *)
(** ** Rounding to an integer *)

Lemma rne_Z z : rne (inject_Z z) = z.
Proof.
  unfold rne. rewrite Qfloor_Z.
  assert (E : inject_Z z - inject_Z z == 0) by ring.
  rewrite E. reflexivity.
Qed.

Lemma rne_bounds x : (Qfloor x <= rne x <= Qfloor x + 1)%Z.
Proof.
  unfold rne. destruct (Qcompare _ _); [destruct (Z.even _) | |]; lia.
Qed.

Lemma rne_mono x y : x <= y -> (rne x <= rne y)%Z.
Proof.
  intros Hxy. pose proof (Qfloor_resp_le x y Hxy) as Hf.
  destruct (Z.eq_dec (Qfloor x) (Qfloor y)) as [E | NE].
  - unfold rne. rewrite <- E.
    destruct (Qcompare_spec (x - inject_Z (Qfloor x)) (1 # 2)) as [Hx | Hx | Hx];
    destruct (Qcompare_spec (y - inject_Z (Qfloor x)) (1 # 2)) as [Hy | Hy | Hy];
    try destruct (Z.even (Qfloor x)); try lia; exfalso; lra.
  - pose proof (rne_bounds x). pose proof (rne_bounds y). lia.
Qed.

Lemma rne_le_Z x k : x <= inject_Z k -> (rne x <= k)%Z.
Proof. intros H. rewrite <- (rne_Z k). apply rne_mono, H. Qed.

Lemma rne_ge_Z x k : inject_Z k <= x -> (k <= rne x)%Z.
Proof. intros H. rewrite <- (rne_Z k). apply rne_mono, H. Qed.

(** The rounded integer is within one half of the argument. *)
Lemma rne_error x : Qabs (inject_Z (rne x) - x) <= 1 # 2.
Proof.
  pose proof (Qfloor_le x) as L. pose proof (Qlt_floor x) as U.
  rewrite inject_Z_plus in U. change (inject_Z 1) with 1 in U.
  apply Qabs_Qle_condition. unfold rne.
  destruct (Qcompare_spec (x - inject_Z (Qfloor x)) (1 # 2)) as [H | H | H];
    [destruct (Z.even (Qfloor x)) | |];
    rewrite ?inject_Z_plus; change (inject_Z 1) with 1; split; lra.
Qed.

(* ------------------------------------------------------------------ *)
(** ** Rounding a magnitude *)

Lemma round_mag_nonneg a : 0 < a -> 0 <= round_mag a.
Proof.
  intros Ha. unfold round_mag.
  apply Qmult_le_0_compat; [| apply Qlt_le_weak, pow2_pos].
  change 0 with (inject_Z 0). rewrite <- Zle_Qle. apply rne_ge_Z.
  apply Qle_shift_div_l; [apply pow2_pos |].
  change (inject_Z 0) with 0. rewrite Qmult_0_l. apply Qlt_le_weak, Ha.
Qed.

Lemma round_mag_upper a : 0 < a -> round_mag a <= pow2 (ulp_exp a + 53).
Proof.
  intros Ha. unfold round_mag. set (ex := ulp_exp a).
  destruct (ilog2_spec a Ha) as [_ U].
  assert (Hex : (ilog2 a + 1 <= ex + 53)%Z) by (unfold ex, ulp_exp; lia).
  assert (P : pow2 53 == inject_Z (2 ^ 53)) by (apply pow2_Z; lia).
  assert (A : a / pow2 ex <= inject_Z (2 ^ 53)).
  { rewrite <- P.
    apply Qle_shift_div_r; [apply pow2_pos |].
    rewrite <- pow2_add. replace (53 + ex)%Z with (ex + 53)%Z by ring.
    eapply Qle_trans; [apply Qlt_le_weak, U | apply pow2_le, Hex]. }
  apply rne_le_Z in A.
  replace (ex + 53)%Z with (53 + ex)%Z by ring. rewrite pow2_add.
  apply Qmult_le_compat_r; [| apply Qlt_le_weak, pow2_pos].
  rewrite P. rewrite <- Zle_Qle. exact A.
Qed.

Lemma round_mag_lower a :
  0 < a -> (-1074 < ulp_exp a)%Z -> pow2 (ulp_exp a + 52) <= round_mag a.
Proof.
  intros Ha Hn. unfold round_mag. set (ex := ulp_exp a) in *.
  destruct (ilog2_spec a Ha) as [L _].
  assert (Hex : ilog2 a = (ex + 52)%Z) by (unfold ex, ulp_exp in *; lia).
  assert (P : pow2 52 == inject_Z (2 ^ 52)) by (apply pow2_Z; lia).
  assert (A : inject_Z (2 ^ 52) <= a / pow2 ex).
  { rewrite <- P.
    apply Qle_shift_div_l; [apply pow2_pos |].
    rewrite <- pow2_add. replace (52 + ex)%Z with (ex + 52)%Z by ring.
    rewrite <- Hex. exact L. }
  apply rne_ge_Z in A.
  replace (ex + 52)%Z with (52 + ex)%Z by ring. rewrite pow2_add.
  apply Qmult_le_compat_r; [| apply Qlt_le_weak, pow2_pos].
  rewrite P. rewrite <- Zle_Qle. exact A.
Qed.

Lemma round_mag_mono a b : 0 < a -> a <= b -> round_mag a <= round_mag b.
Proof.
  intros Ha Hab.
  assert (Hb : 0 < b) by (eapply Qlt_le_trans; eassumption).
  pose proof (ulp_exp_mono a b Ha Hab) as He.
  destruct (Z.eq_dec (ulp_exp a) (ulp_exp b)) as [E | NE].
  - unfold round_mag. rewrite <- E.
    apply Qmult_le_compat_r; [| apply Qlt_le_weak, pow2_pos].
    rewrite <- Zle_Qle. apply rne_mono, div_pow2_le, Hab.
  - eapply Qle_trans; [apply round_mag_upper, Ha |].
    eapply Qle_trans; [| apply round_mag_lower; [exact Hb |]].
    + apply pow2_le. lia.
    + unfold ulp_exp in *. lia.
Qed.
(* ------------------------------------------------------------------ *)
(** ** Rounding to a double *)

Lemma Qle_bool_false a b : Qle_bool a b = false -> b < a.
Proof.
  intros H. apply Qnot_le_lt. intros L. apply Qle_bool_iff in L. congruence.
Qed.

Lemma Fin_inj a b : Fin a = Fin b -> a = b.
Proof. intros H. injection H as E. exact E. Qed.

Lemma fle_Fin a b : fle (Fin a) (Fin b) <-> a <= b.
Proof. unfold fle; simpl. apply Qle_bool_iff. Qed.

Lemma round64_zero q : q == 0 -> round64 q = Fin 0.
Proof.
  intros H. unfold round64.
  assert (Qcompare q 0 = Eq) as E by (apply Qeq_alt; exact H).
  rewrite E. reflexivity.
Qed.

Lemma round64_pos q :
  0 < q ->
  round64 q = if Qle_bool (pow2 1024) (round_mag q) then Inf false
              else Fin (Qred (round_mag q)).
Proof.
  intros H. unfold round64.
  assert (Qcompare q 0 = Gt) as E by (apply Qgt_alt; exact H).
  rewrite E. reflexivity.
Qed.

Lemma round64_neg q :
  q < 0 ->
  round64 q = if Qle_bool (pow2 1024) (round_mag (- q)) then Inf true
              else Fin (Qred (- round_mag (- q))).
Proof.
  intros H. unfold round64.
  assert (Qcompare q 0 = Lt) as E by (apply Qlt_alt; exact H).
  rewrite E. reflexivity.
Qed.

Lemma round64_not_nan q : round64 q <> NaN.
Proof.
  unfold round64.
  destruct (Qcompare q 0); try discriminate; destruct (Qle_bool _ _); discriminate.
Qed.

(** Rounding never reverses two numbers. *)
Lemma round64_mono q1 q2 : q1 <= q2 -> fle (round64 q1) (round64 q2).
Proof.
  intros H.
  destruct (Qcompare_spec q1 0) as [Z1 | N1 | P1];
  destruct (Qcompare_spec q2 0) as [Z2 | N2 | P2];
  try (exfalso; lra).
  - rewrite (round64_zero _ Z1), (round64_zero _ Z2). reflexivity.
  - rewrite (round64_zero _ Z1), (round64_pos _ P2).
    pose proof (round_mag_nonneg q2 P2).
    destruct (Qle_bool _ _); [reflexivity |].
    apply fle_Fin. rewrite Qred_correct. assumption.
  - rewrite (round64_neg _ N1), (round64_zero _ Z2).
    assert (0 < - q1) as P by lra. pose proof (round_mag_nonneg _ P).
    destruct (Qle_bool _ _); [reflexivity |].
    apply fle_Fin. rewrite Qred_correct. lra.
  - rewrite (round64_neg _ N1), (round64_neg _ N2).
    assert (0 < - q2) as P by lra.
    assert (- q2 <= - q1) as L by lra.
    pose proof (round_mag_mono _ _ P L) as M.
    destruct (Qle_bool _ (round_mag (- q1))) eqn:E1;
    destruct (Qle_bool _ (round_mag (- q2))) eqn:E2; try reflexivity.
    + apply Qle_bool_iff in E2. apply Qle_bool_false in E1. exfalso; lra.
    + apply fle_Fin. rewrite !Qred_correct. lra.
  - rewrite (round64_neg _ N1), (round64_pos _ P2).
    assert (0 < - q1) as P by lra.
    pose proof (round_mag_nonneg _ P). pose proof (round_mag_nonneg _ P2).
    destruct (Qle_bool _ (round_mag (- q1)));
    destruct (Qle_bool _ (round_mag q2)); try reflexivity.
    apply fle_Fin. rewrite !Qred_correct. lra.
  - rewrite (round64_pos _ P1), (round64_pos _ P2).
    pose proof (round_mag_mono _ _ P1 H) as M.
    destruct (Qle_bool _ (round_mag q1)) eqn:E1;
    destruct (Qle_bool _ (round_mag q2)) eqn:E2; try reflexivity.
    + apply Qle_bool_iff in E1. apply Qle_bool_false in E2. exfalso; lra.
    + apply fle_Fin. rewrite !Qred_correct. exact M.
Qed.

(** A magnitude of at most [2^k] rounds to at most [2^(k+1)]. *)
Lemma round_mag_bound a k :
  (-1022 <= k)%Z -> 0 < a -> a <= pow2 k -> round_mag a <= pow2 (k + 1).
Proof.
  intros Hk Ha Hak.
  eapply Qle_trans; [apply round_mag_upper, Ha |].
  apply pow2_le.
  destruct (ilog2_spec a Ha) as [L _].
  assert (pow2 (ilog2 a) < pow2 (k + 1)) as S.
  { eapply Qle_lt_trans; [exact L |]. eapply Qle_lt_trans; [exact Hak |].
    replace (k + 1)%Z with (1 + k)%Z by ring. rewrite pow2_add.
    pose proof (pow2_pos k). change (pow2 1) with 2. lra. }
  apply pow2_lt_inv in S. unfold ulp_exp. lia.
Qed.

Lemma round64_finite q k :
  (-1022 <= k < 1023)%Z -> Qabs q <= pow2 k ->
  exists v, round64 q = Fin v /\ Qabs v <= pow2 (k + 1).
Proof.
  intros Hk Hq. apply Qabs_Qle_condition in Hq. destruct Hq as [Hl Hu].
  assert (pow2 (k + 1) <= pow2 1023) as Top by (apply pow2_le; lia).
  assert (pow2 1023 < pow2 1024) as Top' by reflexivity.
  destruct (Qcompare_spec q 0) as [Z | N | P].
  - exists 0. split; [apply round64_zero, Z |].
    apply Qlt_le_weak, pow2_pos.
  - assert (0 < - q) as P by lra. assert (- q <= pow2 k) as B by lra.
    pose proof (round_mag_bound _ _ (proj1 Hk) P B) as M.
    pose proof (round_mag_nonneg _ P) as NN.
    rewrite (round64_neg _ N).
    destruct (Qle_bool _ _) eqn:E.
    + apply Qle_bool_iff in E. exfalso; lra.
    + eexists; split; [reflexivity |].
      apply Qabs_Qle_condition. rewrite Qred_correct. split; lra.
  - pose proof (round_mag_bound _ _ (proj1 Hk) P Hu) as M.
    pose proof (round_mag_nonneg _ P) as NN.
    rewrite (round64_pos _ P).
    destruct (Qle_bool _ _) eqn:E.
    + apply Qle_bool_iff in E. exfalso; lra.
    + eexists; split; [reflexivity |].
      apply Qabs_Qle_condition. rewrite Qred_correct. split; lra.
Qed.

Lemma round64_nonneg q : 0 <= q -> fle (Fin 0) (round64 q).
Proof.
  intros H. pose proof (round64_mono 0 q H) as M.
  rewrite (round64_zero 0) in M by reflexivity. exact M.
Qed.

(* ------------------------------------------------------------------ *)
(** ** Truncation *)

Lemma Qtrunc_mono a b : a <= b -> (Qtrunc a <= Qtrunc b)%Z.
Proof.
  intros H. unfold Qtrunc.
  destruct (Qle_bool 0 a) eqn:Ea; destruct (Qle_bool 0 b) eqn:Eb.
  - apply Qfloor_resp_le, H.
  - apply Qle_bool_iff in Ea. apply Qle_bool_false in Eb. exfalso; lra.
  - apply Qle_bool_false in Ea. apply Qle_bool_iff in Eb.
    assert (Qceiling a <= Qceiling 0)%Z as C by (apply Qceiling_resp_le; lra).
    assert (Qfloor 0 <= Qfloor b)%Z as F by (apply Qfloor_resp_le; lra).
    change (Qceiling 0) with 0%Z in C. change (Qfloor 0) with 0%Z in F. lia.
  - apply Qceiling_resp_le, H.
Qed.

Lemma Qtrunc_nonneg a : 0 <= a -> Qtrunc a = Qfloor a.
Proof.
  intros H. unfold Qtrunc. apply Qle_bool_iff in H. rewrite H. reflexivity.
Qed.

Lemma Qfloor_unique a k :
  inject_Z k <= a -> a < inject_Z (k + 1) -> Qfloor a = k.
Proof.
  intros L U. pose proof (Qfloor_le a) as L'. pose proof (Qlt_floor a) as U'.
  assert (inject_Z (Qfloor a) < inject_Z (k + 1)) as A by lra.
  assert (inject_Z k < inject_Z (Qfloor a + 1)) as B by lra.
  rewrite <- Zlt_Qlt in A, B. lia.
Qed.

(* ------------------------------------------------------------------ *)
(** ** The error of one rounding *)

(** In the normal range a rounding moves a number by at most the fraction
    [2^-53] of it. *)
Lemma round64_rel_error q v :
  0 < q -> (-1022 <= ilog2 q)%Z -> round64 q = Fin v ->
  Qabs (v - q) <= q * pow2 (-53).
Proof.
  intros Hq He Hv. rewrite (round64_pos _ Hq) in Hv.
  destruct (Qle_bool _ _); [discriminate |]. apply Fin_inj in Hv.
  assert (v == round_mag q) as Ev by (rewrite <- Hv; apply Qred_correct).
  unfold round_mag in Ev.
  assert (ulp_exp q = (ilog2 q - 52)%Z) as Ex by (unfold ulp_exp; lia).
  rewrite Ex in Ev. set (u := pow2 (ilog2 q - 52)) in *.
  set (t := q / u) in *. set (m := inject_Z (rne t)) in *.
  pose proof (pow2_pos (ilog2 q - 52)) as Pu. fold u in Pu.
  pose proof (rne_error t) as R. fold m in R.
  apply Qabs_Qle_condition in R. destruct R as [R1 R2].
  assert (q == t * u) as Eq by (unfold t; field; lra).
  assert ((m - t) * u <= (1 # 2) * u) as U1
    by (apply Qmult_le_compat_r; lra).
  assert (- (1 # 2) * u <= (m - t) * u) as U2
    by (apply Qmult_le_compat_r; lra).
  assert ((1 # 2) * u <= q * pow2 (-53)) as B.
  { destruct (ilog2_spec q Hq) as [L _].
    assert (u == pow2 (ilog2 q) * pow2 (-52)) as Eu.
    { unfold u. rewrite <- pow2_add. f_equiv. }
    assert (pow2 (-53) == (1 # 2) * pow2 (-52)) as E53 by reflexivity.
    rewrite Eu, E53.
    assert (pow2 (ilog2 q) * ((1 # 2) * pow2 (-52))
            <= q * ((1 # 2) * pow2 (-52))) as M
      by (apply Qmult_le_compat_r; [exact L | discriminate]).
    lra. }
  assert ((m - t) * u == v - q) as Ed by (rewrite Ev, Eq; ring).
  apply Qabs_Qle_condition. rewrite <- Ed. split; lra.
Qed.

End Binary64Facts.

(* ================================================================== *)
(** * Facts about the Python arithmetic of the cutoff *)
(* ================================================================== *)

Module PyFacts.
Import Binary64 Binary64Facts Py.

Lemma bind_Ok {A B : Type} (r : result A) (k : A -> result B) (b : B) :
  bind r k = Ok b -> exists a, r = Ok a /\ k a = Ok b.
Proof. destruct r as [a | e]; simpl; intros H; [eauto | discriminate]. Qed.

Lemma float_of_int_100 : float_of_int 100 = Ok (Fin 100).
Proof. reflexivity. Qed.

(** Whatever the percentile is, an [int] or a [float], a quotient that
    comes back is the double division of its value by one hundred. *)
Lemma truediv_100 p d :
  truediv p 100 = Ok d -> d = fdiv (value p) (Fin 100).
Proof.
  destruct p as [z | f]; simpl.
  - unfold int_truediv. simpl.
    change (fdiv (Fin (inject_Z z)) (Fin 100))
      with (round64 (inject_Z z / inject_Z 100)).
    destruct (round64 _); intros H; inversion H; reflexivity.
  - intros H. inversion H. reflexivity.
Qed.

Lemma fdiv_100_mono x y :
  fle x y -> fle (fdiv x (Fin 100)) (fdiv y (Fin 100)).
Proof.
  assert (D : forall a, fdiv (Fin a) (Fin 100) = round64 (a / 100))
    by reflexivity.
  assert (I : forall s, fdiv (Inf s) (Fin 100) = Inf s)
    by (intros []; reflexivity).
  destruct x as [| [|] | a]; destruct y as [| [|] | b];
    try discriminate; intros H; rewrite ?D, ?I; try reflexivity.
  - pose proof (round64_not_nan (b / 100)).
    destruct (round64 (b / 100)) as [| [|] |]; try reflexivity; congruence.
  - pose proof (round64_not_nan (a / 100)).
    destruct (round64 (a / 100)) as [| [|] |]; try reflexivity; congruence.
  - apply fle_Fin in H. apply round64_mono.
    unfold Qdiv. apply Qmult_le_compat_r; [exact H | discriminate].
Qed.

Lemma float_of_nat n x :
  float_of_int (Z.of_nat n) = Ok x -> exists N, x = Fin N /\ 0 <= N.
Proof.
  unfold float_of_int.
  assert (0 <= inject_Z (Z.of_nat n)) as NN.
  { change 0 with (inject_Z 0). rewrite <- Zle_Qle. lia. }
  pose proof (round64_nonneg _ NN) as P.
  destruct (round64 _) as [| s | N]; try discriminate.
  intros H; inversion H; subst. exists N. split; [reflexivity |].
  apply fle_Fin in P. exact P.
Qed.

(** A product by a non-negative double keeps the order of the other
    factors whenever both products are finite. *)
Lemma fmul_mono_r N d1 d2 a1 a2 :
  0 <= N -> fle d1 d2 ->
  fmul (Fin N) d1 = Fin a1 -> fmul (Fin N) d2 = Fin a2 -> a1 <= a2.
Proof.
  intros HN Hd H1 H2.
  destruct d1 as [| s1 | b1]; simpl in H1;
    [discriminate | destruct (Qeq_bool N 0); discriminate |].
  destruct d2 as [| s2 | b2]; simpl in H2;
    [discriminate | destruct (Qeq_bool N 0); discriminate |].
  apply fle_Fin in Hd.
  assert (N * b1 <= N * b2) as L.
  { rewrite (Qmult_comm N b1), (Qmult_comm N b2).
    apply Qmult_le_compat_r; assumption. }
  pose proof (round64_mono _ _ L) as M. rewrite H1, H2 in M.
  apply fle_Fin in M. exact M.
Qed.

End PyFacts.

(* ================================================================== *)
(** * Facts about [cutoff_idx] *)
(* ================================================================== *)

Module CutoffFacts.
Import Binary64 Binary64Facts Py PyFacts Report.

(** What a cutoff that comes back went through. *)
Lemma cutoff_idx_inv n p c :
  cutoff_idx n p = Ok c ->
  exists N a,
    float_of_int (Z.of_nat n) = Ok (Fin N) /\ 0 <= N /\
    fmul (Fin N) (fdiv (value p) (Fin 100)) = Fin a /\
    c = Z.max 1 (Z.min (Qtrunc a) (Z.of_nat n - 1)).
Proof.
  unfold cutoff_idx, mul_int_float. intros H.
  apply bind_Ok in H. destruct H as (d & Hd & H).
  apply bind_Ok in H. destruct H as (x & Hx & H).
  apply bind_Ok in Hx. destruct Hx as (fn & Hn & Hx).
  apply bind_Ok in H. destruct H as (t & Ht & H).
  apply truediv_100 in Hd. subst d.
  destruct (float_of_nat _ _ Hn) as (N & -> & HN).
  cbv beta in Hx, H. injection Hx as Ex. injection H as Ec. subst c.
  change (fmul (Fin N) (fdiv (value p) (Fin 100)) = x) in Ex.
  destruct x as [| s | a]; simpl in Ht; try discriminate.
  injection Ht as Et. subst t. exists N, a. repeat split; assumption.
Qed.

Lemma cutoff_idx_ge_1 n p c : cutoff_idx n p = Ok c -> (1 <= c)%Z.
Proof.
  intros H. destruct (cutoff_idx_inv _ _ _ H) as (N & a & _ & _ & _ & ->). lia.
Qed.

Lemma cutoff_idx_range n p c :
  (2 <= n)%nat -> cutoff_idx n p = Ok c -> (1 <= c <= Z.of_nat n - 1)%Z.
Proof.
  intros Hn H.
  destruct (cutoff_idx_inv _ _ _ H) as (N & a & _ & _ & _ & ->). lia.
Qed.

(** With fewer than two rows the clamp leaves one. *)
Lemma cutoff_idx_short n p c :
  (n < 2)%nat -> cutoff_idx n p = Ok c -> c = 1%Z.
Proof.
  intros Hn H.
  destruct (cutoff_idx_inv _ _ _ H) as (N & a & _ & _ & _ & ->). lia.
Qed.

(** The cutoff never decreases when the percentile increases. *)
Lemma cutoff_idx_mono n p1 p2 c1 c2 :
  py_le p1 p2 ->
  cutoff_idx n p1 = Ok c1 -> cutoff_idx n p2 = Ok c2 -> (c1 <= c2)%Z.
Proof.
  intros Hp H1 H2.
  destruct (cutoff_idx_inv _ _ _ H1) as (N1 & a1 & Hn1 & HN & M1 & ->).
  destruct (cutoff_idx_inv _ _ _ H2) as (N2 & a2 & Hn2 & _ & M2 & ->).
  rewrite Hn1 in Hn2. inversion Hn2 as [E]. rewrite <- E in M2.
  pose proof (fmul_mono_r _ _ _ _ _ HN (fdiv_100_mono _ _ Hp) M1 M2) as L.
  apply Qtrunc_mono in L. lia.
Qed.

Lemma Qabs_div_100 v B : Qabs v <= B -> Qabs (v / 100) <= B.
Proof.
  intros H. apply Qabs_Qle_condition in H. apply Qabs_Qle_condition.
  assert (100 * (v / 100) == v) as E by (field; discriminate).
  set (x := v / 100) in *. split; lra.
Qed.

(** For every finite percentile of magnitude at most [2^900], and every
    length a machine word holds, the cutoff is computed. *)
Lemma cutoff_idx_total n p v :
  value p = Fin v -> Qabs v <= pow2 900 -> (Z.of_nat n <= 2 ^ 63)%Z ->
  exists c, cutoff_idx n p = Ok c.
Proof.
  intros Hv Hb Hn.
  destruct (round64_finite (v / 100) 900 ltac:(lia) (Qabs_div_100 _ _ Hb))
    as (d & Hd & Bd).
  assert (truediv p 100 = Ok (Fin d)) as Td.
  { destruct p as [z | f]; simpl in Hv.
    - inversion Hv; subst v. unfold truediv, int_truediv. simpl.
      change (inject_Z 100) with 100. rewrite Hd. reflexivity.
    - subst f. simpl.
      change (fdiv (Fin v) (Fin 100)) with (round64 (v / 100)).
      rewrite Hd. reflexivity. }
  assert (Qabs (inject_Z (Z.of_nat n)) <= pow2 63) as Bn.
  { rewrite Qabs_pos.
    - assert (pow2 63 == inject_Z (2 ^ 63)) as P by (apply pow2_Z; lia).
      rewrite P. rewrite <- Zle_Qle. exact Hn.
    - change 0 with (inject_Z 0). rewrite <- Zle_Qle. lia. }
  destruct (round64_finite _ 63 ltac:(lia) Bn) as (N & HN & BN).
  assert (Qabs (N * d) <= pow2 965) as Bp.
  { rewrite Qabs_Qmult.
    replace 965%Z with ((63 + 1) + (900 + 1))%Z by reflexivity.
    rewrite pow2_add.
    apply Qmult_le_compat_nonneg; split;
      solve [apply Qabs_nonneg | assumption]. }
  destruct (round64_finite _ 965 ltac:(lia) Bp) as (a & Ha & _).
  exists (Z.max 1 (Z.min (Qtrunc a) (Z.of_nat n - 1))).
  unfold cutoff_idx, mul_int_float, float_of_int.
  rewrite Td. simpl. rewrite HN. simpl. rewrite Ha. reflexivity.
Qed.

Lemma float_of_int_Fin z N :
  float_of_int z = Ok (Fin N) -> round64 (inject_Z z) = Fin N.
Proof.
  unfold float_of_int. destruct (round64 _); intros H; try discriminate.
  injection H as E. rewrite E. reflexivity.
Qed.

(** For a whole percentile from 0 to 100 and up to [2^40] rows, the
    truncated product is the exact [floor(n * p / 100)], or one less, and
    one less only where [n * p] is a multiple of one hundred: there the
    product of the two roundings can fall just under the integer. *)
Lemma product_floor n z N a :
  (1 <= n)%nat -> (Z.of_nat n <= 2 ^ 40)%Z -> (0 <= z <= 100)%Z ->
  float_of_int (Z.of_nat n) = Ok (Fin N) ->
  fmul (Fin N) (fdiv (value (PyInt z)) (Fin 100)) = Fin a ->
  Qtrunc a = (Z.of_nat n * z / 100)%Z \/
  (Qtrunc a = (Z.of_nat n * z / 100 - 1)%Z /\
   (Z.of_nat n * z mod 100 = 0)%Z).
Proof.
  intros Hn Hb Hz HN M.
  apply float_of_int_Fin in HN.
  set (n' := Z.of_nat n) in *.
  assert (1 <= n')%Z as Hn' by (unfold n'; lia).
  change (fdiv (value (PyInt z)) (Fin 100))
    with (round64 (inject_Z z / 100)) in M.
  destruct (Z.eq_dec z 0) as [-> | Zz].
  { rewrite (round64_zero (inject_Z 0 / 100)) in M by reflexivity.
    change (fmul (Fin N) (Fin 0)) with (round64 (N * 0)) in M.
    rewrite (round64_zero (N * 0)) in M by ring.
    apply Fin_inj in M. subst a. left. rewrite Z.mul_0_r. reflexivity. }
  set (q := inject_Z z / 100) in *.
  set (nq := inject_Z n') in *.
  assert (1 <= inject_Z z) as Z1
    by (change 1 with (inject_Z 1); rewrite <- Zle_Qle; lia).
  assert (inject_Z z <= 100) as Z2
    by (change 100 with (inject_Z 100); rewrite <- Zle_Qle; lia).
  assert (100 * q == inject_Z z) as Eq by (unfold q; field).
  assert (1 <= nq) as Nq1
    by (change 1 with (inject_Z 1); unfold nq; rewrite <- Zle_Qle; lia).
  destruct (round64 q) as [| s | d] eqn:Ed; simpl in M;
    [discriminate | destruct (Qeq_bool N 0); discriminate |].
  assert (pow2 (-53) == 1 # 9007199254740992) as E53 by reflexivity.
  (* the three roundings *)
  assert (Qabs (N - nq) <= nq * pow2 (-53)) as R1.
  { apply round64_rel_error; [lra | | exact HN].
    assert (0 <= ilog2 nq)%Z by (apply ilog2_lower; change (pow2 0) with 1; lra).
    lia. }
  assert (Qabs (d - q) <= q * pow2 (-53)) as R2.
  { apply round64_rel_error; [lra | | exact Ed].
    assert (-7 <= ilog2 q)%Z.
    { apply ilog2_lower. change (pow2 (-7)) with (1 # 128). lra. }
    lia. }
  rewrite E53 in R1, R2.
  apply Qabs_Qle_condition in R1. apply Qabs_Qle_condition in R2.
  destruct R1 as [R1l R1u]. destruct R2 as [R2l R2u].
  set (e := 1 # 9007199254740992) in *.
  set (Y := nq * q). set (P := N * d) in *.
  assert (Y * ((1 - e) * (1 - e)) <= P) as Lo.
  { setoid_replace (Y * ((1 - e) * (1 - e)))
      with ((nq * (1 - e)) * (q * (1 - e))) by (unfold Y; ring).
    unfold P. apply Qmult_le_compat_nonneg; split; unfold e in *; lra. }
  assert (P <= Y * ((1 + e) * (1 + e))) as Hi.
  { setoid_replace (Y * ((1 + e) * (1 + e)))
      with ((nq * (1 + e)) * (q * (1 + e))) by (unfold Y; ring).
    unfold P. apply Qmult_le_compat_nonneg; split; unfold e in *; lra. }
  (* the exact quotient *)
  set (k := (n' * z / 100)%Z). set (r := (n' * z mod 100)%Z).
  assert (n' * z = 100 * k + r)%Z as Dm by (apply Z.div_mod; lia).
  assert (0 <= r < 100)%Z as Br by (apply Z.mod_pos_bound; lia).
  assert (n' * z <= 100 * 2 ^ 40)%Z as Bnz by nia.
  assert (1 <= n' * z)%Z as Lnz by nia.
  assert (100 * Y == 100 * inject_Z k + inject_Z r) as EY.
  { unfold Y. setoid_replace (100 * (nq * q)) with (nq * (100 * q)) by ring.
    rewrite Eq. unfold nq. rewrite <- inject_Z_mult, Dm.
    rewrite inject_Z_plus, inject_Z_mult. reflexivity. }
  assert (100 * Y <= 100 * inject_Z (2 ^ 40)) as UY.
  { rewrite EY. change 100 with (inject_Z 100).
    rewrite <- !inject_Z_mult, <- inject_Z_plus, <- Zle_Qle. lia. }
  assert (1 <= 100 * Y) as LY.
  { rewrite EY. change 100 with (inject_Z 100). change 1 with (inject_Z 1).
    rewrite <- !inject_Z_mult, <- inject_Z_plus, <- Zle_Qle. lia. }
  assert (0 <= inject_Z r) as Qr0
    by (change 0 with (inject_Z 0); rewrite <- Zle_Qle; lia).
  assert (inject_Z r <= 99) as Qr99
    by (change 99 with (inject_Z 99); rewrite <- Zle_Qle; lia).
  change (inject_Z (2 ^ 40)) with 1099511627776 in UY.
  assert (Qabs (a - P) <= P * pow2 (-53)) as R3.
  { apply round64_rel_error; [unfold e in *; lra | | exact M].
    assert (-9 <= ilog2 P)%Z.
    { apply ilog2_lower. change (pow2 (-9)) with (1 # 512).
      unfold e in *. lra. }
    lia. }
  rewrite E53 in R3. fold e in R3.
  apply Qabs_Qle_condition in R3. destruct R3 as [R3l R3u].
  assert (0 <= a) as A0 by (unfold e in *; lra).
  rewrite (Qtrunc_nonneg _ A0).
  destruct (Z.eq_dec r 0) as [R0 | Rn].
  - rewrite R0 in EY. change (inject_Z 0) with 0 in EY.
    destruct (Qlt_le_dec a (inject_Z k)) as [Lt | Ge].
    + right. split; [| exact R0].
      apply Qfloor_unique.
      * replace (k - 1)%Z with (k + -1)%Z by ring.
        rewrite inject_Z_plus. change (inject_Z (-1)) with (- (1)).
        unfold e in *. lra.
      * replace (k - 1 + 1)%Z with k by ring. exact Lt.
    + left. apply Qfloor_unique; [exact Ge |].
      rewrite inject_Z_plus. change (inject_Z 1) with 1.
      unfold e in *. lra.
  - left.
    assert (1 <= inject_Z r) as Qr1
      by (change 1 with (inject_Z 1); rewrite <- Zle_Qle; lia).
    apply Qfloor_unique.
    + unfold e in *. lra.
    + rewrite inject_Z_plus. change (inject_Z 1) with 1.
      unfold e in *. lra.
Qed.

Lemma cutoff_idx_floor n z c :
  (1 <= n)%nat -> (Z.of_nat n <= 2 ^ 40)%Z -> (0 <= z <= 100)%Z ->
  cutoff_idx n (PyInt z) = Ok c ->
  exists raw,
    c = Z.max 1 (Z.min raw (Z.of_nat n - 1)) /\
    (raw = (Z.of_nat n * z / 100)%Z \/
     (raw = (Z.of_nat n * z / 100 - 1)%Z /\ (Z.of_nat n * z mod 100 = 0)%Z)).
Proof.
  intros Hn Hb Hz H.
  destruct (cutoff_idx_inv _ _ _ H) as (N & a & HN & N0 & M & ->).
  exists (Qtrunc a). split; [reflexivity |].
  exact (product_floor _ _ _ _ Hn Hb Hz HN M).
Qed.

End CutoffFacts.

(* ================================================================== *)
(** * Facts about lists, [take] and [sort_values] *)
(* ================================================================== *)

Module ListFacts.

Section Lists.
Context {A : Type}.

Lemma map_nth_seq_app (l1 l2 : list A) (d : A) :
  map (fun i => nth i (l1 ++ l2) d) (seq (length l1) (length l2)) = l2.
Proof.
  revert l1. induction l2 as [| x l2 IH]; intros l1; [reflexivity |].
  simpl. rewrite nth_middle. f_equal.
  specialize (IH (l1 ++ [x])).
  rewrite <- app_assoc, length_app, Nat.add_1_r in IH. exact IH.
Qed.

Lemma map_nth_seq (l : list A) (d : A) :
  map (fun i => nth i l d) (seq 0 (length l)) = l.
Proof. exact (map_nth_seq_app [] l d). Qed.

Lemma perm_seq_bound (idx : list nat) (n : nat) :
  Permutation idx (seq 0 n) -> Forall (fun i => i < n)%nat idx.
Proof.
  intros P. apply Forall_forall. intros i Hi.
  apply (Permutation_in _ P) in Hi. apply in_seq in Hi. lia.
Qed.

Lemma filter_partition_perm (f : A -> bool) (l : list A) :
  Permutation (filter (fun x => negb (f x)) l ++ filter f l) l.
Proof.
  induction l as [| x l IH]; [constructor |].
  simpl. destruct (f x); simpl.
  - apply Permutation_sym, Permutation_cons_app, Permutation_sym, IH.
  - constructor. exact IH.
Qed.

Lemma StronglySorted_app (R : A -> A -> Prop) (l1 l2 : list A) :
  StronglySorted R l1 -> StronglySorted R l2 ->
  (forall x y, In x l1 -> In y l2 -> R x y) ->
  StronglySorted R (l1 ++ l2).
Proof.
  intros S1 S2 C. induction S1 as [| a l1 S1 IH F]; [exact S2 |].
  simpl. constructor.
  - apply IH. intros x y Hx Hy. apply C; [right; exact Hx | exact Hy].
  - apply Forall_app. split; [exact F |].
    apply Forall_forall. intros y Hy. apply C; [left; reflexivity | exact Hy].
Qed.

Lemma StronglySorted_app_inv (R : A -> A -> Prop) (l1 l2 : list A) :
  StronglySorted R (l1 ++ l2) ->
  forall x y, In x l1 -> In y l2 -> R x y.
Proof.
  induction l1 as [| a l1 IH]; intros S x y Hx Hy; [destruct Hx |].
  simpl in S. apply StronglySorted_inv in S. destruct S as [S F].
  destruct Hx as [<- | Hx].
  - rewrite Forall_forall in F. apply F. apply in_or_app. right; exact Hy.
  - apply IH; assumption.
Qed.

Lemma StronglySorted_rev (R : A -> A -> Prop) (l : list A) :
  StronglySorted R l -> StronglySorted (fun x y => R y x) (rev l).
Proof.
  induction 1 as [| a l S IH F]; [constructor |].
  simpl. apply StronglySorted_app.
  - exact IH.
  - repeat constructor.
  - intros x y Hx [<- | []]. apply in_rev in Hx.
    rewrite Forall_forall in F. apply F, Hx.
Qed.

End Lists.

Lemma StronglySorted_weaken {A : Type} (R R' : A -> A -> Prop) (l : list A) :
  (forall x y, In x l -> In y l -> R x y -> R' x y) ->
  StronglySorted R l -> StronglySorted R' l.
Proof.
  intros W S. induction S as [| a l S IH F]; [constructor |].
  constructor.
  - apply IH. intros x y Hx Hy. apply W; right; assumption.
  - rewrite Forall_forall in *. intros y Hy.
    apply W; [left; reflexivity | right; exact Hy | apply F, Hy].
Qed.

Lemma StronglySorted_map {A B : Type} (f : A -> B) (R : B -> B -> Prop)
      (l : list A) :
  StronglySorted (fun x y => R (f x) (f y)) l -> StronglySorted R (map f l).
Proof.
  induction 1 as [| a l S IH F]; simpl; constructor; [exact IH |].
  apply Forall_map. exact F.
Qed.

End ListFacts.

Module FrameFacts.
Import Binary64 Binary64Facts Py PyFacts Libs Frame ListFacts.

Lemma take_app_seq {A : Type} (l1 l2 : list A) :
  take (seq (length l1) (length l2)) (l1 ++ l2) = l2.
Proof.
  revert l1. induction l2 as [| x l2 IH]; intros l1; [reflexivity |].
  cbn [length seq take flat_map].
  rewrite nth_error_app2 by lia. rewrite Nat.sub_diag. simpl. f_equal.
  specialize (IH (l1 ++ [x])).
  rewrite <- app_assoc, length_app, Nat.add_1_r in IH. exact IH.
Qed.

Lemma take_perm {A : Type} (idx : list nat) (l : list A) :
  Permutation idx (seq 0 (length l)) -> Permutation (take idx l) l.
Proof.
  intros P. rewrite <- (take_app_seq [] l) at 2. simpl.
  unfold take. apply Permutation_flat_map. exact P.
Qed.

Lemma take_nth {A : Type} (idx : list nat) (l : list A) (d : A) :
  Forall (fun i => i < length l)%nat idx ->
  take idx l = map (fun i => nth i l d) idx.
Proof.
  induction 1 as [| i idx Hi F IH]; [reflexivity |].
  cbn [take flat_map map]. rewrite (nth_error_nth' l d Hi). simpl.
  f_equal. exact IH.
Qed.

Lemma take_map {A B : Type} (f : A -> B) (idx : list nat) (l : list A) :
  take idx (map f l) = map f (take idx l).
Proof.
  induction idx as [| i idx IH]; [reflexivity |].
  cbn [take flat_map]. rewrite map_app. fold (take idx (map f l)).
  fold (take idx l). rewrite IH. f_equal.
  rewrite nth_error_map. destruct (nth_error l i); reflexivity.
Qed.

Section Sorting.
Context `{Numpy}.

Lemma nargsort_perm (items : list float64) :
  Permutation (nargsort items) (seq 0 (length items)).
Proof.
  pose (g := fun i => nth i items NaN).
  pose (f := fun i => is_nan (nth i items NaN)).
  pose (idx := seq 0 (length items)).
  pose (NN := filter (fun i => negb (f i)) idx).
  pose (A := rev (map g NN)). pose (R := rev NN).
  change (Permutation
            (rev (map (fun j => nth j R O) (argsort A)) ++ filter f idx) idx).
  assert (length A = length R) as EL
    by (unfold A, R; rewrite !length_rev, length_map; reflexivity).
  eapply Permutation_trans; [| apply (filter_partition_perm f idx)].
  apply Permutation_app; [| apply Permutation_refl]. fold NN.
  eapply Permutation_trans; [apply Permutation_sym, Permutation_rev |].
  pose proof (argsort_perm A) as P. rewrite EL in P.
  eapply Permutation_trans; [apply Permutation_map, P |].
  rewrite map_nth_seq. unfold R.
  apply Permutation_sym, Permutation_rev.
Qed.

Lemma all_nan_sorted (l : list float64) :
  Forall (fun x => is_nan x = true) l -> StronglySorted before_desc l.
Proof.
  induction 1 as [| x l Hx F IH]; constructor; [exact IH |].
  eapply Forall_impl; [| exact F]. intros y Hy. left; exact Hy.
Qed.

(** The keys read along the indexer are in descending order, the missing
    ones last. *)
Lemma nargsort_sorted (items : list float64) :
  StronglySorted before_desc
    (map (fun i => nth i items NaN) (nargsort items)).
Proof.
  pose (g := fun i => nth i items NaN).
  pose (f := fun i => is_nan (nth i items NaN)).
  pose (idx := seq 0 (length items)).
  pose (NN := filter (fun i => negb (f i)) idx).
  pose (NA := filter f idx).
  pose (A := rev (map g NN)). pose (R := rev NN).
  change (StronglySorted before_desc
            (map g (rev (map (fun j => nth j R O) (argsort A)) ++ NA))).
  assert (A = map g R) as EA by (unfold A, R; rewrite map_rev; reflexivity).
  assert (length A = length R) as EL by (rewrite EA; apply length_map).
  assert (Forall (fun x => is_nan x = false) A) as NNA.
  { rewrite EA. apply Forall_map. apply Forall_forall. intros i Hi.
    unfold R in Hi. apply in_rev in Hi. unfold NN in Hi.
    apply filter_In in Hi. destruct Hi as [_ Hi].
    apply negb_true_iff in Hi. exact Hi. }
  set (S := map (fun j => nth j A NaN) (argsort A)).
  assert (map g (map (fun j => nth j R O) (argsort A)) = S) as ES.
  { rewrite map_map. unfold S. apply map_ext_in. intros j Hj.
    pose proof (perm_seq_bound _ _ (argsort_perm A)) as B.
    rewrite Forall_forall in B. specialize (B j Hj).
    rewrite EA. rewrite (nth_indep (map g R) NaN (g O)).
    - rewrite map_nth. reflexivity.
    - rewrite length_map, <- EL. exact B. }
  assert (Permutation S A) as PS.
  { unfold S. eapply Permutation_trans;
      [apply Permutation_map, (argsort_perm A) |].
    rewrite map_nth_seq. apply Permutation_refl. }
  assert (Forall (fun x => is_nan x = false) S) as NNS.
  { eapply Permutation_Forall; [apply Permutation_sym, PS | exact NNA]. }
  rewrite map_app, map_rev, ES.
  apply StronglySorted_app.
  - apply (StronglySorted_weaken (fun x y => np_le y x)).
    + intros x y Hx Hy L. apply in_rev in Hx.
      rewrite Forall_forall in NNS. pose proof (NNS x Hx) as Nx.
      right. split; [exact Nx |].
      unfold np_le, np_leb in L. rewrite Nx in L. exact L.
    + apply StronglySorted_rev. apply argsort_sorted.
  - apply all_nan_sorted. apply Forall_map. apply Forall_forall. intros i Hi.
    unfold NA in Hi. apply filter_In in Hi. exact (proj2 Hi).
  - intros x y _ Hy. left. apply in_map_iff in Hy.
    destruct Hy as (i & <- & Hi). unfold NA in Hi.
    apply filter_In in Hi. exact (proj2 Hi).
Qed.

Lemma sort_values_inv (data sorted : DataFrame) (c : string) :
  sort_values data c = Ok sorted ->
  exists i, position c (columns data) = Some i /\
    columns sorted = columns data /\
    rows sorted = take (nargsort (map (cell i) (rows data))) (rows data).
Proof.
  unfold sort_values, getitem. destruct (position c (columns data)) as [i |];
    simpl; intros E; [| discriminate].
  injection E as <-. exists i. repeat split.
Qed.

Lemma sort_values_perm (data sorted : DataFrame) (c : string) :
  sort_values data c = Ok sorted -> Permutation (rows sorted) (rows data).
Proof.
  intros E. destruct (sort_values_inv _ _ _ E) as (i & _ & _ & ->).
  apply take_perm. rewrite <- (length_map (cell i)). apply nargsort_perm.
Qed.

Lemma sort_values_len (data sorted : DataFrame) (c : string) :
  sort_values data c = Ok sorted -> len sorted = len data.
Proof. intros E. apply Permutation_length, (sort_values_perm _ _ _ E). Qed.

Lemma sort_values_sorted (data sorted : DataFrame) (c : string) :
  sort_values data c = Ok sorted ->
  exists i, position c (columns data) = Some i /\
    StronglySorted before_desc (map (cell i) (rows sorted)).
Proof.
  intros E. destruct (sort_values_inv _ _ _ E) as (i & Hi & _ & ->).
  exists i. split; [exact Hi |].
  rewrite <- take_map.
  rewrite (take_nth _ _ NaN).
  - apply nargsort_sorted.
  - eapply Forall_impl; [| apply perm_seq_bound, nargsort_perm].
    intros j Hj. exact Hj.
Qed.

End Sorting.

End FrameFacts.

(* ================================================================== *)
(** * Reference: two conforming [argsort]s *)
(* ================================================================== *)

Module NumpyOrder.
Import Binary64 Binary64Facts Libs.

Lemma fleb_total x y :
  is_nan x = false -> is_nan y = false -> fleb x y = true \/ fleb y x = true.
Proof.
  destruct x as [| [|] | a]; destruct y as [| [|] | b]; simpl;
    try discriminate; intros _ _; auto.
  destruct (Qle_bool a b) eqn:E; [left; reflexivity | right].
  apply Qle_bool_false in E. apply Qle_bool_iff. lra.
Qed.

Lemma fleb_trans x y z : fleb x y = true -> fleb y z = true -> fleb x z = true.
Proof.
  destruct x as [| [|] | a]; destruct y as [| [|] | b];
    destruct z as [| [|] | c]; simpl; try discriminate; auto.
  intros H1 H2. apply Qle_bool_iff in H1, H2. apply Qle_bool_iff. lra.
Qed.

Lemma fleb_not_nan x y : fleb x y = true -> is_nan x = false /\ is_nan y = false.
Proof. destruct x as [| [|] |]; destruct y as [| [|] |]; simpl; auto; discriminate. Qed.

Lemma np_leb_total x y : np_leb x y = true \/ np_leb y x = true.
Proof.
  unfold np_leb. destruct (is_nan y) eqn:Ny; [left; reflexivity |].
  destruct (is_nan x) eqn:Nx; [right; reflexivity |].
  simpl. apply fleb_total; assumption.
Qed.

Lemma np_le_trans : Transitive np_le.
Proof.
  intros x y z. unfold np_le, np_leb.
  destruct (is_nan z) eqn:Nz; [reflexivity |]. simpl.
  intros H1 H2. destruct (fleb_not_nan _ _ H2) as [Ny _].
  rewrite Ny in H1. simpl in H1. eapply fleb_trans; eassumption.
Qed.

End NumpyOrder.

Module Reference.
Import Binary64 Binary64Facts Libs ListFacts NumpyOrder.

(** Keys are sorted together with a tag; two keys that compare equal are
    ordered by their tags. *)
Module KeyOrder <: TotalLeBool.
Definition t : Type := (float64 * Z)%type.
Definition leb (p q : t) : bool :=
  if np_leb (fst p) (fst q)
  then (if np_leb (fst q) (fst p) then (snd p <=? snd q)%Z else true)
  else false.
Theorem leb_total : forall p q, leb p q = true \/ leb q p = true.
Proof.
  intros [x i] [y j]. unfold leb. simpl.
  destruct (np_leb_total x y) as [H | H]; rewrite H.
  - destruct (np_leb y x); [| left; reflexivity].
    destruct (Z.leb_spec i j); [left; reflexivity | right].
    apply Z.leb_le. lia.
  - destruct (np_leb x y); [| right; reflexivity].
    destruct (Z.leb_spec i j); [left; reflexivity | right].
    apply Z.leb_le. lia.
Qed.
End KeyOrder.

Module KeySort := Sort KeyOrder.

(** Argsort by merge sort on the tagged keys: [tag] turns a position into
    its tag and [untag] gives the position back. *)
Definition argsort_tagged (tag : nat -> Z) (untag : Z -> nat)
           (a : list float64) : list nat :=
  map (fun p => untag (snd p))
      (KeySort.sort (combine a (map tag (seq 0 (length a))))).

(** Equal keys stay in the order they came in. *)
Definition argsort_stable : list float64 -> list nat :=
  argsort_tagged Z.of_nat Z.to_nat.

(** Equal keys come out in the opposite order. *)
Definition argsort_swapping : list float64 -> list nat :=
  argsort_tagged (fun i => (- Z.of_nat i)%Z) (fun z => Z.to_nat (- z)).

Lemma map_snd_combine {A B : Type} (l : list A) (l' : list B) :
  length l = length l' -> map snd (combine l l') = l'.
Proof.
  revert l'. induction l as [| x l IH]; intros [| y l']; simpl;
    try discriminate; [reflexivity |].
  intros E. f_equal. apply IH. lia.
Qed.

Lemma in_combine_seq (tag : nat -> Z) (a : list float64) (k : nat) x z :
  In (x, z) (combine a (map tag (seq k (length a)))) ->
  exists i, (k <= i)%nat /\ z = tag i /\ nth (i - k) a NaN = x.
Proof.
  revert k. induction a as [| y a IH]; intros k; simpl; [intros [] |].
  intros [E | Hin].
  - injection E as <- <-. exists k. rewrite Nat.sub_diag. auto.
  - destruct (IH _ Hin) as (i & Hi & Hz & Hn). exists i.
    repeat split; [lia | exact Hz |].
    replace (i - k)%nat with (S (i - S k)) by lia. exact Hn.
Qed.

Lemma Sorted_map_fst (l : list (float64 * Z)) :
  Sorted (fun p q => KeyOrder.leb p q = true) l -> Sorted np_le (map fst l).
Proof.
  induction 1 as [| p l S IH Hd]; simpl; constructor; [exact IH |].
  destruct Hd as [| q l Hpq]; simpl; constructor.
  unfold KeyOrder.leb in Hpq. unfold np_le.
  destruct (np_leb (fst p) (fst q)); [reflexivity | discriminate].
Qed.

Section Tagged.
Variables (tag : nat -> Z) (untag : Z -> nat).
Hypothesis untag_tag : forall i, untag (tag i) = i.

Lemma argsort_tagged_perm a :
  Permutation (argsort_tagged tag untag a) (seq 0 (length a)).
Proof.
  unfold argsort_tagged.
  eapply Permutation_trans;
    [apply Permutation_map, Permutation_sym, KeySort.Permuted_sort |].
  rewrite <- (map_map snd untag).
  rewrite map_snd_combine by (rewrite length_map, length_seq; reflexivity).
  rewrite map_map. erewrite map_ext; [| intros i; apply untag_tag].
  rewrite map_id. apply Permutation_refl.
Qed.

Lemma argsort_tagged_sorted a :
  StronglySorted np_le
    (map (fun i => nth i a NaN) (argsort_tagged tag untag a)).
Proof.
  unfold argsort_tagged. rewrite map_map.
  set (L := combine a (map tag (seq 0 (length a)))).
  assert (map (fun p => nth (untag (snd p)) a NaN) (KeySort.sort L)
          = map fst (KeySort.sort L)) as E.
  { apply map_ext_in. intros [x z] Hin.
    apply (Permutation_in _ (Permutation_sym (KeySort.Permuted_sort L))) in Hin.
    destruct (in_combine_seq _ _ _ _ _ Hin) as (i & _ & -> & Hn).
    simpl. rewrite untag_tag, Nat.sub_0_r in *. exact Hn. }
  rewrite E. apply Sorted_StronglySorted; [exact np_le_trans |].
  apply Sorted_map_fst. apply KeySort.Sorted_sort.
Qed.

End Tagged.

Definition numpy_stable : Numpy := {|
  argsort := argsort_stable;
  argsort_perm := argsort_tagged_perm _ _ Nat2Z.id;
  argsort_sorted := argsort_tagged_sorted _ _ Nat2Z.id
|}.

Lemma untag_neg i : (fun z => Z.to_nat (- z)) ((fun i => - Z.of_nat i)%Z i) = i.
Proof. cbv beta. lia. Qed.

Definition numpy_swapping : Numpy := {|
  argsort := argsort_swapping;
  argsort_perm :=
    argsort_tagged_perm (fun i => (- Z.of_nat i)%Z) (fun z => Z.to_nat (- z))
                        untag_neg;
  argsort_sorted :=
    argsort_tagged_sorted (fun i => (- Z.of_nat i)%Z) (fun z => Z.to_nat (- z))
                          untag_neg
|}.

End Reference.

(* ================================================================== *)
(** * Reference: the statistics, in exact arithmetic rounded once *)
(* ================================================================== *)

Module ReferenceStats.
Import Binary64 Binary64Facts Py Libs NumpyOrder Reference.

(** The correctly rounded square root: the integer root of the operand
    scaled to more than 55 bits decides the rounding. *)
Definition fsqrt (x : float64) : float64 :=
  match x with
  | NaN => NaN
  | Inf true => NaN
  | Inf false => Inf false
  | Fin q =>
      match Qcompare q 0 with
      | Lt => NaN
      | Eq => Fin 0
      | Gt =>
          let k := Z.max 0 (60 - ilog2 q / 2) in
          let scaled := q * pow2 (2 * k) in
          let s := Z.sqrt (Qfloor scaled) in
          let root := if Qeq_bool (inject_Z (s * s)) scaled
                      then inject_Z s else inject_Z s + (1 # 2) in
          round64 (root / pow2 k)
      end
  end.

(** The valid values of a Series, when none is infinite. *)
Definition valid (s : list float64) : option (list Q) :=
  finite_values (dropna s).

(** Sum of the [k]-th powers of the deviations from the mean. *)
Definition moment (k : positive) (l : list Q) : Q :=
  Qsum (map (fun x => Qpower_positive (x - Qmean l) k) l).

Definition ref_mean (s : list float64) : float64 :=
  match valid s with
  | Some (x :: l) => round64 (Qmean (x :: l))
  | _ => NaN
  end.

Definition ref_sum (s : list float64) : float64 :=
  match valid s with
  | Some l => round64 (Qsum l)
  | None => NaN
  end.

Definition ref_count (s : list float64) : Z := Z.of_nat (length (dropna s)).

Definition ref_var (s : list float64) : float64 :=
  match valid s with
  | Some (x :: y :: l) =>
      let v := x :: y :: l in round64 (moment 2 v / (Qlen v - 1))
  | _ => NaN
  end.

(** An empty Series is answered by the plain [float] NaN that pandas keeps
    for empty input, any other by a [numpy.float64]. *)
Definition ref_std (s : list float64) : scalar :=
  match s with
  | [] => py_float NaN
  | _ => np_float64 (fsqrt (ref_var s))
  end.

Definition sorted_valid (s : list float64) : list float64 :=
  map fst (KeySort.sort (map (fun x => (x, 0%Z)) (dropna s))).

Definition ref_median (s : list float64) : float64 :=
  let v := sorted_valid s in
  let n := length v in
  match n with
  | O => NaN
  | _ => if Nat.even n
         then fdiv (fadd (nth (n / 2 - 1) v NaN) (nth (n / 2) v NaN)) (Fin 2)
         else nth (n / 2) v NaN
  end.

Definition ref_max (s : list float64) : float64 :=
  match dropna s with
  | [] => NaN
  | x :: l => fold_left (fun m y => if fleb m y then y else m) l x
  end.

Definition ref_min (s : list float64) : float64 :=
  match dropna s with
  | [] => NaN
  | x :: l => fold_left (fun m y => if fleb y m then y else m) l x
  end.

Definition Q_of_float (x : float64) : Q :=
  match x with Fin q => q | _ => 0 end.

(** The adjusted Fisher-Pearson skewness pandas computes. *)
Definition ref_skew (s : list float64) : float64 :=
  match valid s with
  | Some (x :: y :: z :: l) =>
      let v := x :: y :: z :: l in
      let n := Qlen v in
      let m2 := moment 2 v in
      let m3 := moment 3 v in
      if Qeq_bool m2 0 then Fin 0
      else round64 (n / (n - 2) * (m3 / m2)
                    * Q_of_float (fsqrt (round64 ((n - 1) / m2))))
  | _ => NaN
  end.

(** The bias-corrected excess kurtosis pandas computes. *)
Definition ref_kurtosis (s : list float64) : float64 :=
  match valid s with
  | Some (x :: y :: z :: w :: l) =>
      let v := x :: y :: z :: w :: l in
      let n := Qlen v in
      let m2 := moment 2 v in
      let m4 := moment 4 v in
      let adj := 3 * (n - 1) * (n - 1) / ((n - 2) * (n - 3)) in
      let numerator := n * (n + 1) * (n - 1) * m4 in
      let denominator := (n - 2) * (n - 3) * (m2 * m2) in
      if Qeq_bool denominator 0 then Fin 0
      else round64 (numerator / denominator - adj)
  | _ => NaN
  end.

(** Student's statistic with the pooled variance. *)
Definition ref_statistic (a b : list float64) : float64 :=
  match valid a, valid b with
  | Some (x :: xs), Some (y :: ys) =>
      let u := x :: xs in
      let v := y :: ys in
      let df := Qlen u + Qlen v - 2 in
      if Qle_bool df 0 then NaN
      else
        let diff := Qmean u - Qmean v in
        let svar := (moment 2 u + moment 2 v) / df in
        let denom2 := svar * (1 / Qlen u + 1 / Qlen v) in
        match fsqrt (round64 denom2) with
        | Fin d =>
            if Qle_bool d 0
            then (if Qeq_bool diff 0 then NaN else Inf (Qsign_neg diff))
            else round64 (diff / d)
        | _ => NaN
        end
  | _, _ => NaN
  end.

(** A stand-in for the two-sided tail of Student's distribution, whose
    values the interface leaves open: it is one at zero and decreases to
    zero as the statistic grows. *)
Definition ref_pvalue (t : float64) : float64 :=
  match t with
  | NaN => NaN
  | Inf _ => Fin 0
  | Fin q => round64 (1 / (1 + q * q))
  end.

Definition ref_ttest_ind (a b : list float64) : TtestResult :=
  let t := ref_statistic a b in
  {| statistic := t; pvalue := ref_pvalue t |}.

End ReferenceStats.

(* ================================================================== *)
(** * Reference: the interfaces are met *)
(* ================================================================== *)

Module ReferenceFacts.
Import Binary64 Binary64Facts Py Libs NumpyOrder Reference ReferenceStats.

Lemma valid_no_valid s : dropna s = [] -> valid s = Some [].
Proof. unfold valid. intros ->. reflexivity. Qed.

Lemma ref_std_no_valid s : dropna s = [] -> scalar_value (ref_std s) = NaN.
Proof.
  intros E. destruct s as [| x s]; [reflexivity |].
  unfold ref_std, ref_var. rewrite (valid_no_valid _ E). reflexivity.
Qed.

Lemma ref_median_no_valid s : dropna s = [] -> ref_median s = NaN.
Proof. intros E. unfold ref_median, sorted_valid. rewrite E. reflexivity. Qed.

Definition pandas_reference : Pandas.
Proof.
  refine {| mean := ref_mean; std := ref_std; median := ref_median;
            var := ref_var; kurtosis := ref_kurtosis; skew := ref_skew;
            max := ref_max; min := ref_min; sum := ref_sum;
            count := ref_count |}.
  - intros s E. unfold ref_mean. rewrite (valid_no_valid _ E). reflexivity.
  - exact ref_std_no_valid.
  - exact ref_median_no_valid.
  - intros s E. unfold ref_var. rewrite (valid_no_valid _ E). reflexivity.
  - intros s E. unfold ref_kurtosis. rewrite (valid_no_valid _ E). reflexivity.
  - intros s E. unfold ref_skew. rewrite (valid_no_valid _ E). reflexivity.
  - intros s E. unfold ref_max. rewrite E. reflexivity.
  - intros s E. unfold ref_min. rewrite E. reflexivity.
  - intros s E. unfold ref_sum. rewrite (valid_no_valid _ E). reflexivity.
  - intros s. reflexivity.
Defined.

Definition scipy_reference : Scipy := {| ttest_ind := ref_ttest_ind |}.

Lemma round64_pow2_m60 : round64 (pow2 (-60)) = Fin (pow2 (-60)).
Proof. vm_compute. reflexivity. Qed.

Lemma fsqrt_positive x :
  1 <= x -> x <= pow2 64 -> exists r, fsqrt (Fin x) = Fin r /\ 0 < r.
Proof.
  intros L U. unfold fsqrt.
  assert (Qcompare x 0 = Gt) as C by (apply Qgt_alt; lra). rewrite C.
  assert (0 < x) as P by lra. destruct (ilog2_spec x P) as [Lx Ux].
  assert (0 <= ilog2 x <= 64)%Z as B.
  { split.
    - assert (pow2 0 < pow2 (ilog2 x + 1)) as S
        by (change (pow2 0) with 1; lra).
      apply pow2_lt_inv in S. lia.
    - assert (pow2 (ilog2 x) < pow2 65) as S.
      { eapply Qle_lt_trans; [exact Lx |]. eapply Qle_lt_trans; [exact U |].
        reflexivity. }
      apply pow2_lt_inv in S. lia. }
  set (k := Z.max 0 (60 - ilog2 x / 2)).
  assert (0 <= k <= 60)%Z as Bk.
  { unfold k. pose proof (Z.div_pos (ilog2 x) 2). lia. }
  set (scaled := x * pow2 (2 * k)).
  assert (1 <= pow2 (2 * k)) as P1
    by (change 1 with (pow2 0); apply pow2_le; lia).
  assert (pow2 (2 * k) <= pow2 120) as P2 by (apply pow2_le; lia).
  assert (1 <= scaled) as Ls.
  { unfold scaled. setoid_replace 1 with (1 * 1) by ring.
    apply Qmult_le_compat_nonneg; split; solve [discriminate | assumption]. }
  assert (scaled <= pow2 184) as Us.
  { unfold scaled. replace 184%Z with (64 + 120)%Z by reflexivity.
    rewrite pow2_add. apply Qmult_le_compat_nonneg; split; solve [lra | assumption]. }
  set (f := Qfloor scaled).
  assert (1 <= f)%Z as Lf.
  { change 1%Z with (Qfloor 1). apply Qfloor_resp_le, Ls. }
  assert (inject_Z f <= scaled) as Uf by apply Qfloor_le.
  set (s := Z.sqrt f).
  assert (1 <= s <= f)%Z as Bs.
  { split.
    - change 1%Z with (Z.sqrt 1). apply Z.sqrt_le_mono, Lf.
    - apply Z.sqrt_le_lin. lia. }
  set (root := if Qeq_bool (inject_Z (s * s)) scaled
               then inject_Z s else inject_Z s + (1 # 2)).
  assert (1 <= inject_Z s) as Is
    by (change 1 with (inject_Z 1); rewrite <- Zle_Qle; lia).
  assert (inject_Z s <= inject_Z f) as Is' by (rewrite <- Zle_Qle; lia).
  assert (1 <= root <= pow2 185) as Br.
  { assert (pow2 185 == 2 * pow2 184) as E
      by (replace 185%Z with (1 + 184)%Z by reflexivity; rewrite pow2_add;
          reflexivity).
    unfold root. destruct (Qeq_bool _ _); split; lra. }
  pose proof (pow2_pos k) as Pk.
  assert (pow2 (-60) <= root / pow2 k) as Lw.
  { apply Qle_shift_div_l; [exact Pk |].
    assert (pow2 (-60) * pow2 k <= 1) as E.
    { rewrite <- pow2_add. change 1 with (pow2 0). apply pow2_le. lia. }
    lra. }
  assert (root / pow2 k <= pow2 185) as Uw.
  { apply Qle_shift_div_r; [exact Pk |].
    assert (pow2 185 * 1 <= pow2 185 * pow2 k) as E.
    { apply Qmult_le_l; [apply pow2_pos |].
      change 1 with (pow2 0). apply pow2_le. lia. }
    lra. }
  assert (Qabs (root / pow2 k) <= pow2 185) as Ab.
  { rewrite Qabs_pos; [exact Uw |]. pose proof (pow2_pos (-60)). lra. }
  destruct (round64_finite _ 185 ltac:(lia) Ab) as (r & Hr & _).
  exists r. split; [exact Hr |].
  pose proof (round64_mono _ _ Lw) as M.
  rewrite round64_pow2_m60, Hr in M. apply fle_Fin in M.
  pose proof (pow2_pos (-60)). lra.
Qed.

Definition libm_reference : Libm := {|
  pow_half := fsqrt;
  pow_half_zero := eq_refl;
  pow_half_positive := fsqrt_positive
|}.

End ReferenceFacts.

(* ================================================================== *)
(** * Binary64 against the Standard Library's IEEE 754 model *)
(* ================================================================== *)

Module Binary64Agreement.
Import Binary64 ReferenceStats.

Definition same_float (x y : float64) : bool :=
  match x, y with
  | NaN, NaN => true
  | Inf s, Inf t => Bool.eqb s t
  | Fin a, Fin b => Qeq_bool a b
  | _, _ => false
  end.

(** The product [n * (p / 100)] in both models. *)
Definition product_here (n p : Z) : float64 :=
  fmul (round64 (inject_Z n)) (fdiv (Fin (inject_Z p)) (Fin 100)).

Definition product_spec (n p : Z) : float64 :=
  of_spec (SFmul 53 1024 (spec_of_Z n)
                 (SFdiv 53 1024 (spec_of_Z p) (spec_of_Z 100))).

Definition agree_on (ns ps : list Z) : bool :=
  forallb (fun n => forallb (fun p => same_float (product_here n p)
                                                 (product_spec n p)) ps) ns.

Definition upto (k : nat) : list Z := map Z.of_nat (seq 0 k).

(** The two models give the same product for a range of lengths and every
    whole percentile from -5 to 105. *)
Lemma products_agree :
  agree_on [0; 1; 2; 3; 7; 10; 20; 50; 90; 100; 180; 360; 1000; 12345]%Z
           (map (fun p => (p - 5)%Z) (upto 111)) = true.
Proof. vm_compute. reflexivity. Qed.

(** And on large and small operands, where the exponent range matters. *)
Lemma extremes_agree :
  forallb (fun x => same_float
                      (fdiv (round64 (inject_Z (fst x)))
                            (round64 (inject_Z (snd x))))
                      (of_spec (SFdiv 53 1024 (spec_of_Z (fst x))
                                      (spec_of_Z (snd x)))))
          [(1, 3); (10 ^ 300, 7); (7, 10 ^ 300); (2 ^ 1023, 1);
           (10 ^ 400, 100); (1, 10 ^ 308); (- 5, 10 ^ 307); (0, 5)]%Z
  = true.
Proof. vm_compute. reflexivity. Qed.

Lemma square_roots_agree :
  forallb (fun n => same_float (fsqrt (round64 (inject_Z n)))
                               (of_spec (SFsqrt 53 1024 (spec_of_Z n))))
          (upto 40)
  = true.
Proof. vm_compute. reflexivity. Qed.

End Binary64Agreement.

(* ================================================================== *)
(** * numpy's vectorised argsort on short arrays *)
(* ================================================================== *)

Module VectorSort.
Import Binary64 Binary64Facts Libs ListFacts NumpyOrder Reference.

(** On x86-64 with AVX2 or AVX-512 numpy's [argsort(kind='quicksort')] of
    doubles is the vectorised quicksort, which sorts a short array in one
    register by a bitonic network of compare-and-exchange steps.  A lane
    holds a key and the position it came from. *)
Definition lane : Type := (float64 * nat)%type.

(** The lanes past the end of the array are loaded with the largest key. *)
Definition padding : lane := (Inf false, O).

Definition fmin (x y : float64) : float64 := if fltb x y then x else y.

Definition fmax (x y : float64) : float64 := if fltb y x then x else y.

Definition feqb (x y : float64) : bool := fleb x y && fleb y x.

(** One lane of a step: it keeps the smaller or the larger of its key and
    its partner's, and keeps its own position exactly when the key it ends
    with equals the key it had.  Two equal keys are therefore not
    exchanged. *)
Definition cmp_merge (take_max : bool) (in1 in2 : lane) : lane :=
  let key := if take_max then fmax (fst in2) (fst in1)
             else fmin (fst in2) (fst in1) in
  (key, if feqb key (fst in1) then snd in1 else snd in2).

(** One step: every lane against the lane [partner] pairs it with. *)
Definition exchange (partner : list nat) (mask : list bool) (v : list lane)
  : list lane :=
  map (fun i => cmp_merge (nth i mask false) (nth i v padding)
                          (nth (nth i partner O) v padding))
      (seq 0 (length v)).

(** The network for four lanes: neighbours, mirror image, neighbours. *)
Definition sort_lanes (v : list lane) : list lane :=
  let v := exchange [1; 0; 3; 2]%nat [false; true; false; true] v in
  let v := exchange [3; 2; 1; 0]%nat [false; false; true; true] v in
  exchange [1; 0; 3; 2]%nat [false; true; false; true] v.

Definition load (a : list float64) : list lane :=
  combine (a ++ repeat (Inf false) (4 - length a))
          (seq 0 (length a) ++ repeat O (4 - length a)).

(** The positions stored back for an array of at most four keys. *)
Definition argsort_lanes (a : list float64) : list nat :=
  firstn (length a) (map snd (sort_lanes (load a))).

Fixpoint ascending (x : float64) (l : list float64) : bool :=
  match l with
  | [] => true
  | y :: l' => np_leb x y && ascending y l'
  end.

(** [r] lists the positions of [a], each once, in ascending order of the
    keys. *)
Definition is_argsort (a : list float64) (r : list nat) : bool :=
  Nat.eqb (length r) (length a)
  && forallb (fun i => existsb (Nat.eqb i) r) (seq 0 (length a))
  && match map (fun i => nth i a NaN) r with
     | [] => true
     | x :: l => ascending x l
     end.

(** The argsort: the network on an array of at most four keys.  Longer
    arrays, which the library sorts by wider networks and by partitioning,
    and arrays the network would not sort (it is not built for NaN keys) are
    sorted by the stable reference. *)
Definition argsort_vector (a : list float64) : list nat :=
  if (length a <=? 4)%nat && is_argsort a (argsort_lanes a)
  then argsort_lanes a
  else argsort_stable a.

Lemma ascending_sorted x l : ascending x l = true -> Sorted np_le (x :: l).
Proof.
  revert x. induction l as [| y l IH]; intros x H; simpl in H.
  - constructor; constructor.
  - apply andb_true_iff in H. destruct H as [H1 H2].
    constructor; [apply IH; exact H2 | constructor; exact H1].
Qed.

Lemma is_argsort_perm a r :
  is_argsort a r = true -> Permutation r (seq 0 (length a)).
Proof.
  unfold is_argsort. intros H.
  apply andb_true_iff in H. destruct H as [H _].
  apply andb_true_iff in H. destruct H as [Hl Hi].
  apply Nat.eqb_eq in Hl. apply Permutation_sym.
  apply NoDup_Permutation_bis.
  - apply seq_NoDup.
  - rewrite length_seq. lia.
  - intros i I. rewrite forallb_forall in Hi. specialize (Hi i I).
    apply existsb_exists in Hi. destruct Hi as (j & Ij & E).
    apply Nat.eqb_eq in E. subst j. exact Ij.
Qed.

Lemma is_argsort_sorted a r :
  is_argsort a r = true ->
  StronglySorted np_le (map (fun i => nth i a NaN) r).
Proof.
  unfold is_argsort. intros H.
  apply andb_true_iff in H. destruct H as [_ H].
  apply Sorted_StronglySorted; [exact np_le_trans |].
  destruct (map _ r) as [| x l]; [constructor |].
  apply ascending_sorted. exact H.
Qed.

Definition numpy_vector : Numpy.
Proof.
  refine {| argsort := argsort_vector |}.
  - intros a. unfold argsort_vector.
    destruct ((length a <=? 4)%nat && is_argsort a (argsort_lanes a)) eqn:E.
    + apply andb_true_iff in E. apply is_argsort_perm. apply E.
    + apply (@argsort_perm numpy_stable a).
  - intros a. unfold argsort_vector.
    destruct ((length a <=? 4)%nat && is_argsort a (argsort_lanes a)) eqn:E.
    + apply andb_true_iff in E. apply is_argsort_sorted. apply E.
    + apply (@argsort_sorted numpy_stable a).
Defined.

End VectorSort.

(* ================================================================== *)
(** * numpy's mean and scipy's t-test in binary64 *)
(* ================================================================== *)

Module FloatStats.
Import Binary64 Py Libs ReferenceStats.

Definition as_double (n : nat) : float64 := round64 (inject_Z (Z.of_nat n)).

(** ** [numpy.add.reduce]: pairwise summation *)

Definition add_lanes (r block : list float64) : list float64 :=
  map (fun p => fadd (fst p) (snd p)) (combine r block).

(** Eight running sums take the array eight items at a time. *)
Fixpoint add_blocks (blocks : nat) (r a : list float64)
  : list float64 * list float64 :=
  match blocks with
  | O => (r, a)
  | S k => add_blocks k (add_lanes r (firstn 8 a)) (skipn 8 a)
  end.

Definition reduce_lanes (r : list float64) : float64 :=
  match r with
  | [r0; r1; r2; r3; r4; r5; r6; r7] =>
      fadd (fadd (fadd r0 r1) (fadd r2 r3))
           (fadd (fadd r4 r5) (fadd r6 r7))
  | _ => NaN
  end.

(** From 8 to 128 items: the eight sums over the whole blocks of eight,
    added up as a tree, then the items left over, one by one. *)
Definition sum_unrolled (a : list float64) : float64 :=
  let (r, rest) := add_blocks (length a / 8 - 1) (firstn 8 a) (skipn 8 a) in
  fold_left fadd rest (reduce_lanes r).

(** Fewer than 8 items are added in order; more than 128 are cut in two
    halves, the first a multiple of eight long.  The fuel bounds the depth
    of the cutting, and the length of the array is more than enough. *)
Fixpoint pairwise_sum (fuel : nat) (a : list float64) : float64 :=
  let n := length a in
  if (n <? 8)%nat then fold_left fadd a (Fin 0)
  else if (n <=? 128)%nat then sum_unrolled a
  else match fuel with
       | O => NaN
       | S fuel' =>
           let n2 := (n / 2 - (n / 2) mod 8)%nat in
           fadd (pairwise_sum fuel' (firstn n2 a))
                (pairwise_sum fuel' (skipn n2 a))
       end.

(** The fuel is never used up. *)
Lemma pairwise_sum_fuel fuel fuel' a :
  (length a <= fuel)%nat -> (length a <= fuel')%nat ->
  pairwise_sum fuel a = pairwise_sum fuel' a.
Proof.
  revert fuel' a. induction fuel as [| fuel IH]; intros fuel' a L L'.
  - destruct a; [| simpl in L; lia]. destruct fuel'; reflexivity.
  - destruct fuel' as [| fuel'].
    + destruct a; [reflexivity | simpl in L'; lia].
    + cbn [pairwise_sum].
      destruct (length a <? 8)%nat; [reflexivity |].
      destruct (Nat.leb_spec (length a) 128) as [| G]; [reflexivity |].
      assert (length a / 2 - (length a / 2) mod 8 < length a)%nat as U.
      { assert (length a / 2 < length a)%nat
          by (apply Nat.div_lt; lia).
        lia. }
      assert (0 < length a / 2 - (length a / 2) mod 8)%nat as P.
      { assert (64 <= length a / 2)%nat
          by (apply Nat.div_le_lower_bound; lia).
        pose proof (Nat.mod_upper_bound (length a / 2) 8). lia. }
      f_equal; apply IH; rewrite ?length_firstn, ?length_skipn; lia.
Qed.

(** [numpy.sum(a)], the reduction started from the identity, and
    [numpy.mean(a)]. *)
Definition np_sum (a : list float64) : float64 :=
  fadd (Fin 0) (pairwise_sum (length a) a).

Definition np_mean (a : list float64) : float64 :=
  fdiv (np_sum a) (as_double (length a)).

(** ** Student's distribution *)

(** Fixed-point numbers with 128 fractional bits. *)
Definition fx_one : Z := 2 ^ 128.

Definition fx_of_Q (q : Q) : Z := (Qnum q * fx_one / Zpos (Qden q))%Z.

Definition fx_mul (a b : Z) : Z := (a * b / fx_one)%Z.

Definition fx_div (a b : Z) : Z := (a * fx_one / b)%Z.

Definition fx_sqrt (a : Z) : Z := Z.sqrt (a * fx_one).

(** [sum (-1)^j x^(2j+1) / (2j+1)], for [|x| <= 1/2]. *)
Fixpoint arctan_series (n : nat) (j : Z) (power x2 : Z) : Z :=
  match n with
  | O => 0%Z
  | S n' => (power / (2 * j + 1)
             - arctan_series n' (j + 1) (fx_mul power x2) x2)%Z
  end.

Definition arctan_small (x : Z) : Z := arctan_series 70 0 x (fx_mul x x).

(** Machin's formula. *)
Definition fx_pi : Z :=
  Eval vm_compute in
    (4 * (4 * arctan_small (fx_one / 5) - arctan_small (fx_one / 239)))%Z.

Definition arctan_unit (x : Z) : Z :=
  if (fx_one <? 2 * x)%Z
  then (fx_pi / 4 + arctan_small (fx_div (x - fx_one) (x + fx_one)))%Z
  else arctan_small x.

(** The arctangent of [x >= 0]. *)
Definition fx_arctan (x : Z) : Z :=
  if (fx_one <? x)%Z then (fx_pi / 2 - arctan_unit (fx_div fx_one x))%Z
  else arctan_unit x.

(** [1 + c1 x + c2 x^2 + ...], [m] terms, where [c(k+1) / c(k)] is
    [(2k+1)/(2k+2)] for an even number of degrees of freedom and
    [(2k+2)/(2k+3)] for an odd one. *)
Fixpoint tail_series (m : nat) (k : Z) (term x : Z) (even : bool) : Z :=
  match m with
  | O => 0%Z
  | S m' =>
      let next := if even then (fx_mul term x * (2 * k + 1) / (2 * k + 2))%Z
                  else (fx_mul term x * (2 * k + 2) / (2 * k + 3))%Z in
      (term + tail_series m' (k + 1) next x even)%Z
  end.

(** The probability that Student's variable with [df] degrees of freedom
    is beyond [t] in either direction, from the closed forms in
    [theta = arctan(t / sqrt(df))]:
    [1 - sin(theta) (1 + cos^2/2 + ...)] for even [df] and
    [1 - (2/pi) (theta + sin(theta) cos(theta) (1 + 2 cos^2/3 + ...))] for
    odd [df].  The library evaluates the same function by other means; the
    two agree to rounding. *)
Definition student_two_sided (df : Z) (t : float64) : float64 :=
  if (df <=? 0)%Z then NaN
  else
    match t with
    | NaN => NaN
    | Inf _ => Fin 0
    | Fin q =>
        let t2 := q * q in
        let nu := inject_Z df in
        let cos2 := fx_of_Q (nu / (nu + t2)) in
        let sine := fx_sqrt (fx_of_Q (t2 / (nu + t2))) in
        let inside :=
          if Z.even df
          then fx_mul sine (tail_series (Z.to_nat (df / 2)) 0 fx_one cos2 true)
          else
            let sc := fx_sqrt (fx_of_Q (nu * t2 / ((nu + t2) * (nu + t2)))) in
            let theta := fx_arctan (fx_sqrt (fx_of_Q (t2 / nu))) in
            fx_div (2 * (theta
                         + fx_mul sc (tail_series (Z.to_nat ((df - 1) / 2)) 0
                                                  fx_one cos2 false)))
                   fx_pi in
        let p := Z.max 0 (Z.min fx_one (fx_one - inside)) in
        round64 (inject_Z p / inject_Z fx_one)
    end.

(** ** [scipy.stats.ttest_ind] *)

(** [_var(a, ddof=1)]: the mean of the squared deviations from the mean,
    times [n / (n - 1)]. *)
Definition sample_variance (a : list float64) : float64 :=
  let n := as_double (length a) in
  let mean := np_mean a in
  let a_zero_mean := map (fun x => fsub x mean) a in
  let s := map (fun x => fmul x x) a_zero_mean in
  fmul (np_mean s) (fdiv n (fsub n (Fin 1))).

(** [_equal_var_ttest_denom(v1, n1, v2, n2)]. *)
Definition equal_var_ttest_denom (v1 n1 v2 n2 : float64) : float64 :=
  let df := fsub (fadd n1 n2) (Fin 2) in
  let svar := fdiv (fadd (fmul (fsub n1 (Fin 1)) v1)
                         (fmul (fsub n2 (Fin 1)) v2)) df in
  fsqrt (fmul svar (fadd (fdiv (Fin 1) n1) (fdiv (Fin 1) n2))).

(** The test with [equal_var=True] and [nan_policy='omit']: the missing
    values are removed from each sample, and the statistic is the difference
    of the two means over the pooled standard error, with the two-sided
    tail of Student's distribution as the p-value. *)
Definition binary64_ttest_ind (a b : list float64) : TtestResult :=
  let a := dropna a in
  let b := dropna b in
  let n1 := as_double (length a) in
  let n2 := as_double (length b) in
  let denom := equal_var_ttest_denom (sample_variance a) n1
                                     (sample_variance b) n2 in
  let t := fdiv (fsub (np_mean a) (np_mean b)) denom in
  {| statistic := t;
     pvalue := student_two_sided
                 (Z.of_nat (length a) + Z.of_nat (length b) - 2) t |}.

Definition scipy_binary64 : Scipy := {| ttest_ind := binary64_ttest_ind |}.

End FloatStats.

(* ================================================================== *)
(** * Rounding keeps the order of two means *)
(* ================================================================== *)

Module FloatStatsFacts.
Import Binary64 Binary64Facts Py Libs ReferenceStats FloatStats.

(** [x <= y], or one of the two is a NaN. *)
Definition below (x y : float64) : Prop :=
  is_nan x = true \/ is_nan y = true \/ fle x y.

Lemma below_nan_l y : below NaN y.
Proof. left. reflexivity. Qed.

Lemma below_nan_r x : below x NaN.
Proof. right. left. reflexivity. Qed.

Lemma below_Fin a b : a <= b -> below (Fin a) (Fin b).
Proof. intros H. right. right. apply fle_Fin. exact H. Qed.

Lemma below_Fin_inv a b : below (Fin a) (Fin b) -> a <= b.
Proof.
  intros [H | [H | H]]; try discriminate. apply fle_Fin. exact H.
Qed.

Lemma below_round q1 q2 : q1 <= q2 -> below (round64 q1) (round64 q2).
Proof. intros H. right. right. apply round64_mono. exact H. Qed.

Lemma round64_below_top q : below (round64 q) (Inf false).
Proof.
  right. right. pose proof (round64_not_nan q).
  destruct (round64 q) as [| [|] | r]; [congruence | | |]; reflexivity.
Qed.

Lemma round64_above_bottom q : below (Inf true) (round64 q).
Proof.
  right. right. pose proof (round64_not_nan q).
  destruct (round64 q) as [| [|] | r]; [congruence | | |]; reflexivity.
Qed.

Ltac below_cases :=
  first [ apply below_nan_l | apply below_nan_r
        | apply round64_below_top | apply round64_above_bottom
        | right; right; reflexivity ].

Ltac below_absurd :=
  match goal with
  | H : below _ _ |- _ =>
      destruct H as [H | [H | H]]; discriminate H
  end.

Lemma fadd_below x1 y1 x2 y2 :
  below x1 y1 -> below x2 y2 -> below (fadd x1 x2) (fadd y1 y2).
Proof.
  intros H1 H2.
  destruct x1 as [| [|] | a1]; destruct y1 as [| [|] | b1];
    destruct x2 as [| [|] | a2]; destruct y2 as [| [|] | b2];
    cbn [fadd Bool.eqb]; try below_cases; try below_absurd.
  apply below_Fin_inv in H1, H2. apply below_round. lra.
Qed.

Lemma Forall2_firstn {A B : Type} (R : A -> B -> Prop) n l l' :
  Forall2 R l l' -> Forall2 R (firstn n l) (firstn n l').
Proof.
  intros H. revert n. induction H as [| x y l l' Hxy H IH]; intros [| n];
    simpl; constructor; auto.
Qed.

Lemma Forall2_skipn {A B : Type} (R : A -> B -> Prop) n l l' :
  Forall2 R l l' -> Forall2 R (skipn n l) (skipn n l').
Proof.
  intros H. revert n. induction H as [| x y l l' Hxy H IH]; intros [| n];
    simpl; try constructor; auto.
Qed.

Lemma fold_left_fadd_below l l' s s' :
  Forall2 below l l' -> below s s' ->
  below (fold_left fadd l s) (fold_left fadd l' s').
Proof.
  intros H. revert s s'. induction H as [| x y l l' Hxy H IH];
    intros s s' Hs; simpl; [exact Hs |].
  apply IH. apply fadd_below; assumption.
Qed.

Lemma add_lanes_below r r' b b' :
  Forall2 below r r' -> Forall2 below b b' ->
  Forall2 below (add_lanes r b) (add_lanes r' b').
Proof.
  unfold add_lanes. intros H. revert b b'.
  induction H as [| x y r r' Hxy H IH]; intros b b' Hb; simpl;
    [constructor |].
  destruct Hb as [| u v b b' Huv Hb]; simpl; constructor.
  - apply fadd_below; assumption.
  - apply IH. exact Hb.
Qed.

Lemma add_blocks_below k r r' a a' :
  Forall2 below r r' -> Forall2 below a a' ->
  Forall2 below (fst (add_blocks k r a)) (fst (add_blocks k r' a')) /\
  Forall2 below (snd (add_blocks k r a)) (snd (add_blocks k r' a')).
Proof.
  revert r r' a a'. induction k as [| k IH]; intros r r' a a' Hr Ha;
    cbn [add_blocks fst snd].
  - split; assumption.
  - apply IH.
    + apply add_lanes_below; [exact Hr | apply Forall2_firstn; exact Ha].
    + apply Forall2_skipn. exact Ha.
Qed.

Lemma reduce_lanes_below r r' :
  Forall2 below r r' -> below (reduce_lanes r) (reduce_lanes r').
Proof.
  intros H. unfold reduce_lanes.
  repeat (destruct H as [| ? ? r r' ? H]; [apply below_nan_l |]).
  destruct H; [| apply below_nan_l].
  repeat apply fadd_below; assumption.
Qed.

Lemma sum_unrolled_below a a' :
  Forall2 below a a' -> below (sum_unrolled a) (sum_unrolled a').
Proof.
  intros H. unfold sum_unrolled.
  rewrite <- (Forall2_length H).
  destruct (add_blocks_below (length a / 8 - 1) (firstn 8 a) (firstn 8 a')
                             (skipn 8 a) (skipn 8 a')) as [Hr Hs].
  { apply Forall2_firstn. exact H. }
  { apply Forall2_skipn. exact H. }
  destruct (add_blocks _ (firstn 8 a) _) as [r rest].
  destruct (add_blocks _ (firstn 8 a') _) as [r' rest'].
  simpl in Hr, Hs. apply fold_left_fadd_below; [exact Hs |].
  apply reduce_lanes_below. exact Hr.
Qed.

Lemma pairwise_sum_below fuel a a' :
  Forall2 below a a' -> below (pairwise_sum fuel a) (pairwise_sum fuel a').
Proof.
  revert a a'. induction fuel as [| fuel IH]; intros a a' H;
    cbn [pairwise_sum]; rewrite <- (Forall2_length H).
  - destruct (length a <? 8)%nat.
    + apply fold_left_fadd_below; [exact H | apply below_Fin; lra].
    + destruct (length a <=? 128)%nat;
        [apply sum_unrolled_below; exact H | apply below_nan_l].
  - destruct (length a <? 8)%nat.
    + apply fold_left_fadd_below; [exact H | apply below_Fin; lra].
    + destruct (length a <=? 128)%nat; [apply sum_unrolled_below; exact H |].
      apply fadd_below; apply IH;
        [apply Forall2_firstn | apply Forall2_skipn]; exact H.
Qed.

Ltac split_tests :=
  repeat match goal with
         | |- context [Qeq_bool ?u 0] =>
             let F := fresh "T" in
             destruct (Qeq_bool u 0) eqn:F;
             [apply Qeq_bool_iff in F | apply Qeq_bool_neq in F]
         | |- context [Qcompare ?u 0] =>
             destruct (Qcompare_spec u 0)
         end.

Lemma fdiv_below x y n :
  below x y -> below (Fin 0) n -> below (fdiv x n) (fdiv y n).
Proof.
  intros H Hn.
  destruct n as [| [|] | q]; try below_absurd.
  - destruct x, y; cbn [fdiv]; below_cases.
  - destruct x as [| [|] | a]; destruct y as [| [|] | b]; cbn [fdiv];
      try below_cases; try below_absurd.
  - apply below_Fin_inv in Hn.
    destruct x as [| [|] | a]; destruct y as [| [|] | b]; cbn [fdiv];
      try below_cases; try below_absurd.
    all: try apply below_Fin_inv in H.
    all: unfold Qsign_neg; split_tests; cbn [xorb];
      try (exfalso; lra); try contradiction; try below_cases.
    apply below_round. unfold Qdiv. apply Qmult_le_compat_r; [exact H |].
    apply Qlt_le_weak, Qinv_lt_0_compat. lra.
Qed.

Lemma np_mean_below a a' :
  Forall2 below a a' -> below (np_mean a) (np_mean a').
Proof.
  intros H. unfold np_mean, np_sum. rewrite <- (Forall2_length H).
  apply fdiv_below.
  - apply fadd_below; [apply below_Fin; lra | apply pairwise_sum_below; exact H].
  - unfold as_double. right. right. apply round64_nonneg.
    change 0 with (inject_Z 0). rewrite <- Zle_Qle. lia.
Qed.

(** A square root is a NaN or not below zero. *)
Lemma fsqrt_range x : below (Fin 0) (fsqrt x).
Proof.
  destruct x as [| [|] | q]; cbn [fsqrt]; try below_cases.
  destruct (Qcompare_spec q 0) as [Z | N | P]; try below_cases.
  right. right. apply round64_nonneg.
  set (k := Z.max 0 (60 - ilog2 q / 2)).
  assert (0 < pow2 k) as Pk by apply pow2_pos.
  assert (0 <= inject_Z (Z.sqrt (Qfloor (q * pow2 (2 * k))))) as R.
  { change 0 with (inject_Z 0). rewrite <- Zle_Qle. apply Z.sqrt_nonneg. }
  apply Qle_shift_div_l; [exact Pk |].
  destruct (Qeq_bool _ _); lra.
Qed.

(** The quotient is not above zero when the first mean is not above the
    second. *)
Lemma quotient_not_positive m1 m2 denom :
  below m1 m2 -> below (Fin 0) denom ->
  fltb (Fin 0) (fdiv (fsub m1 m2) denom) = false.
Proof.
  intros H Hd.
  assert (below (fsub m1 m2) (Fin 0)) as D.
  { destruct m1 as [| [|] | a]; destruct m2 as [| [|] | b];
      cbn [fsub Bool.eqb negb]; try below_cases; try below_absurd.
    apply below_Fin_inv in H.
    pose proof (round64_mono (a - b) 0 ltac:(lra)) as M.
    rewrite (round64_zero 0) in M by reflexivity. right. right. exact M. }
  destruct (fsub m1 m2) as [| [|] | a]; destruct denom as [| [|] | q];
    cbn [fdiv]; try reflexivity; try below_absurd.
  - unfold Qsign_neg. apply below_Fin_inv in Hd. split_tests; try reflexivity.
    exfalso; lra.
  - apply below_Fin_inv in Hd, D. unfold Qsign_neg.
    split_tests; try reflexivity; try (exfalso; lra).
    assert (a / q <= 0) as N.
    { unfold Qdiv. setoid_replace 0 with (0 * / q) by ring.
      apply Qmult_le_compat_r; [exact D |].
      apply Qlt_le_weak, Qinv_lt_0_compat. lra. }
    pose proof (round64_mono _ _ N) as M.
    rewrite (round64_zero 0) in M by reflexivity.
    pose proof (round64_not_nan (a / q)) as NN.
    unfold fle in M. destruct (round64 (a / q)) as [| s | t];
      [congruence | |]; unfold fltb; rewrite M; reflexivity.
Qed.

Lemma dropna_all s : Forall (fun x => is_nan x = false) s -> dropna s = s.
Proof.
  unfold dropna. induction 1 as [| x s N _ IH]; simpl; [reflexivity |].
  rewrite N. simpl. f_equal. exact IH.
Qed.

Lemma fle_not_nan x y : fle x y -> is_nan x = false /\ is_nan y = false.
Proof.
  unfold fle. destruct x as [| [|] |]; destruct y as [| [|] |]; simpl;
    intros H; try discriminate; split; reflexivity.
Qed.

Lemma flt_fle x y : flt x y -> fle x y.
Proof.
  unfold flt, fle.
  destruct x as [| [|] | a]; destruct y as [| [|] | b]; simpl;
    try discriminate; try reflexivity.
  intros H. apply negb_true_iff in H. apply Qle_bool_false in H.
  apply Qle_bool_iff. lra.
Qed.

Lemma pointwise_below a b : Forall2 fle a b -> Forall2 below a b.
Proof.
  induction 1; constructor; [right; right; assumption | assumption].
Qed.

Lemma pointwise_complete a b :
  Forall2 fle a b ->
  Forall (fun x => is_nan x = false) a /\
  Forall (fun x => is_nan x = false) b.
Proof.
  induction 1 as [| x y a b H _ [IHa IHb]]; [split; constructor |].
  destruct (fle_not_nan _ _ H). split; constructor; assumption.
Qed.

(** Two samples of the same size, the first not above the second item by
    item and nothing missing: the statistic is not above zero. *)
Lemma binary64_statistic_not_positive a b :
  Forall2 fle a b ->
  fltb (Fin 0) (statistic (binary64_ttest_ind a b)) = false.
Proof.
  intros H. destruct (pointwise_complete _ _ H) as [Na Nb].
  unfold binary64_ttest_ind. cbn [statistic].
  rewrite (dropna_all _ Na), (dropna_all _ Nb).
  apply quotient_not_positive.
  - apply np_mean_below. apply pointwise_below. exact H.
  - unfold equal_var_ttest_denom. apply fsqrt_range.
Qed.

End FloatStatsFacts.

(* ================================================================== *)
(** * Facts about [split] *)
(* ================================================================== *)

Module SplitFacts.
Import Binary64 Binary64Facts Py PyFacts Libs Frame ListFacts FrameFacts.
Import Report CutoffFacts.

(** A percentile the arithmetic of the cutoff cannot overflow on: finite,
    of magnitude at most [2^900]. *)
Definition finite_percentile (p : pynum) : Prop :=
  exists v, value p = Fin v /\ Qabs v <= pow2 900.

(** A frame whose length a signed machine word holds, as every frame in
    memory does. *)
Definition word_sized (data : DataFrame) : Prop :=
  (Z.of_nat (len data) <= 2 ^ 63)%Z.

Definition has_column (c : string) (data : DataFrame) : Prop :=
  exists i, position c (columns data) = Some i.

Lemma slice_bound_pos n k :
  (1 <= k)%Z -> slice_bound n k = Nat.min (Z.to_nat k) n.
Proof.
  intros H. unfold slice_bound.
  destruct (Z.ltb_spec k 0); [lia | reflexivity].
Qed.

Lemma firstn_min {A : Type} k (l : list A) :
  firstn (Nat.min k (length l)) l = firstn k l.
Proof.
  destruct (Nat.le_ge_cases k (length l)) as [L | G].
  - rewrite Nat.min_l by exact L. reflexivity.
  - rewrite Nat.min_r by exact G.
    rewrite firstn_all, firstn_all2 by exact G. reflexivity.
Qed.

Lemma skipn_min {A : Type} k (l : list A) :
  skipn (Nat.min k (length l)) l = skipn k l.
Proof.
  destruct (Nat.le_ge_cases k (length l)) as [L | G].
  - rewrite Nat.min_l by exact L. reflexivity.
  - rewrite Nat.min_r by exact G.
    rewrite skipn_all, skipn_all2 by exact G. reflexivity.
Qed.

Section WithNumpy.
Context `{Numpy}.

(** What a split that comes back went through. *)
Lemma split_inv data p up lo :
  split data p = Ok (up, lo) ->
  exists sorted cutoff,
    sort_values data rank_column = Ok sorted /\
    cutoff_idx (len data) p = Ok cutoff /\
    rows up = firstn (Z.to_nat cutoff) (rows sorted) /\
    rows lo = skipn (Z.to_nat cutoff) (rows sorted).
Proof.
  unfold split. intros E.
  apply bind_Ok in E. destruct E as (sorted & Hs & E).
  apply bind_Ok in E. destruct E as (cutoff & Hc & E).
  cbv beta zeta in E. injection E as <- <-.
  pose proof (cutoff_idx_ge_1 _ _ _ Hc) as G.
  rewrite (sort_values_len _ _ _ Hs) in Hc.
  exists sorted, cutoff. repeat split; try assumption; simpl;
    rewrite (slice_bound_pos _ _ G); unfold len.
  - apply firstn_min.
  - apply skipn_min.
Qed.

Lemma split_total data p cutoff :
  has_column rank_column data ->
  cutoff_idx (len data) p = Ok cutoff ->
  exists up lo, split data p = Ok (up, lo).
Proof.
  intros (i & Hi) Hc. unfold split.
  destruct (sort_values data rank_column) as [sorted | e] eqn:Hs.
  - simpl. rewrite (sort_values_len _ _ _ Hs), Hc. simpl. eauto.
  - unfold sort_values, getitem in Hs. rewrite Hi in Hs. discriminate.
Qed.

Lemma split_lengths data p up lo :
  split data p = Ok (up, lo) ->
  exists cutoff,
    cutoff_idx (len data) p = Ok cutoff /\
    len up = Nat.min (Z.to_nat cutoff) (len data) /\
    (len up + len lo = len data)%nat.
Proof.
  intros E. destruct (split_inv _ _ _ _ E) as (sorted & cutoff & Hs & Hc & Hu & Hl).
  exists cutoff. split; [exact Hc |].
  pose proof (sort_values_len _ _ _ Hs) as L. unfold len in *.
  rewrite Hu, Hl, length_firstn, length_skipn. lia.
Qed.

(** With fewer than two rows nothing is raised and the lower group is
    empty. *)
Lemma split_short data p :
  has_column rank_column data -> (len data < 2)%nat -> word_sized data ->
  finite_percentile p ->
  exists up lo, split data p = Ok (up, lo) /\
                len up = len data /\ len lo = O.
Proof.
  intros Hc Hn Hw (v & Hv & Hb).
  destruct (cutoff_idx_total _ _ _ Hv Hb Hw) as (c & Ec).
  destruct (split_total _ _ _ Hc Ec) as (up & lo & E).
  exists up, lo. split; [exact E |].
  destruct (split_lengths _ _ _ _ E) as (c' & Ec' & Lu & Ls).
  rewrite Ec in Ec'. injection Ec' as <-.
  pose proof (cutoff_idx_short _ _ _ Hn Ec). lia.
Qed.

(** With at least two rows and a finite percentile both groups have a
    row. *)
Lemma split_sizes_total data p :
  has_column rank_column data -> (2 <= len data)%nat -> word_sized data ->
  finite_percentile p ->
  exists up lo, split data p = Ok (up, lo) /\
                (len up + len lo = len data)%nat /\
                (1 <= len up)%nat /\ (1 <= len lo)%nat.
Proof.
  intros Hc Hn Hw (v & Hv & Hb).
  destruct (cutoff_idx_total _ _ _ Hv Hb Hw) as (c & Ec).
  destruct (split_total _ _ _ Hc Ec) as (up & lo & E).
  exists up, lo. split; [exact E |].
  destruct (split_lengths _ _ _ _ E) as (c' & Ec' & Lu & Ls).
  rewrite Ec in Ec'. injection Ec' as <-.
  pose proof (cutoff_idx_range _ _ _ Hn Ec). lia.
Qed.

End WithNumpy.

End SplitFacts.

(* ================================================================== *)
(** * Example frames *)
(* ================================================================== *)

Module Examples.
Import Binary64 Py Libs Frame Report.

(** A frame from its column names and the cells of its rows, labelled
    0, 1, 2, ... as [read_csv] labels them. *)
Definition frame (cols : list string) (table : list (list float64))
  : DataFrame :=
  {| columns := cols;
     rows := map (fun ic => {| label := fst ic; cells := snd ic |})
                 (combine (seq 0 (length table)) table) |}.

Definition report_columns : list string :=
  [rank_column; reference_column; comparison_column].

Definition of_ints (l : list Z) : list float64 :=
  map (fun z => Fin (inject_Z z)) l.

(** Two rows with the same rank. *)
Definition tied_rows : DataFrame :=
  frame report_columns [of_ints [5; 1; 2]; of_ints [5; 3; 4]]%Z.

(** Ranks [100, 90, ..., 10]. *)
Definition ten_rows : DataFrame :=
  frame report_columns
        (map (fun k => of_ints [100 - 10 * Z.of_nat k; 7; 8]%Z) (seq 0 10)).

(** Ninety rows, ranks [90, 89, ..., 1]. *)
Definition ninety_rows : DataFrame :=
  frame report_columns
        (map (fun k => of_ints [90 - Z.of_nat k; 7; 8]%Z) (seq 0 90)).

Definition one_row : DataFrame :=
  frame report_columns [of_ints [5; 1; 2]]%Z.

(** The first row has no rank. *)
Definition unranked_row : DataFrame :=
  frame report_columns [[NaN; Fin 1; Fin 2]; [Fin 5; Fin 3; Fin 4]].

(** No [2021_HE] column. *)
Definition no_comparison : DataFrame :=
  frame [rank_column; reference_column] [of_ints [5; 1]; of_ints [6; 3]]%Z.

(** Sixteen values of one column, four of them present. *)
Definition sparse_series : list float64 :=
  of_ints [0; 0; 0; 2]%Z ++ repeat NaN 12.

(** A group whose [2021_HE] column is all missing. *)
Definition blank_comparison : DataFrame :=
  frame report_columns
        [[Fin 9; Fin 1; NaN]; [Fin 8; Fin 2; NaN]; [Fin 7; Fin 4; NaN]].

(** A group where every [2021_HE] value is below every [2019_HE] value. *)
Definition lower_comparison : DataFrame :=
  frame report_columns
        [of_ints [9; 5; 1]; of_ints [8; 6; 2]; of_ints [7; 7; 4]]%Z.

(** Ranks [1, 1, 2, 2]: two pairs of rows of equal rank. *)
Definition paired_ranks : DataFrame :=
  frame report_columns
        [of_ints [1; 10; 11]; of_ints [1; 20; 21];
         of_ints [2; 30; 31]; of_ints [2; 40; 41]]%Z.

(** The doubles written [0.7] and [0.7000000000000001]: the second is the
    next double after the first. *)
Definition seven_tenths : float64 := Eval vm_compute in round64 (7 # 10).

Definition seven_tenths_up : float64 :=
  Eval vm_compute in round64 (7000000000000001 # 10000000000000000).

(** A group of fifteen rows: [2019_HE] is 0.7000000000000001 in every row;
    [2021_HE] is 0.7 in the first eleven rows and missing in the last
    four. *)
Definition rounded_means : DataFrame :=
  frame report_columns
        (map (fun k => [Fin (inject_Z (15 - Z.of_nat k)); seven_tenths_up;
                        if (k <? 11)%nat then seven_tenths else NaN])
             (seq 0 15)).

(** A dataset of sixteen rows whose fifteen rows of highest rank are the
    group [rounded_means]. *)
Definition rounded_means_data : DataFrame :=
  frame report_columns
        (map cells (rows rounded_means) ++ [of_ints [0; 1; 2]%Z]).

End Examples.

(* ================================================================== *)
(** * The split: claims C1, C2, C5, C7, C8, C10 *)
(* ================================================================== *)

Module SplitSpec.
Import Binary64 Binary64Facts Py PyFacts Libs Frame ListFacts FrameFacts.
Import Report CutoffFacts SplitFacts Reference VectorSort Examples.

(** Two floats that compare equal. *)
Definition same_rank (x y : float64) : Prop :=
  fleb x y = true /\ fleb y x = true.

(** [output] keeps the rows of [input] that have the same value in column
    [i] in the order they had in [input]. *)
Definition keeps_ties_in_order (i : nat) (input output : list Row) : Prop :=
  forall a b ra rb,
    (a < b)%nat ->
    nth_error input a = Some ra -> nth_error input b = Some rb ->
    same_rank (cell i ra) (cell i rb) ->
    exists a' b', (a' < b')%nat /\
      nth_error output a' = Some ra /\ nth_error output b' = Some rb.

(** No rank is missing. *)
Definition all_ranked (i : nat) (data : DataFrame) : Prop :=
  forall r, In r (rows data) -> is_nan (cell i r) = false.

Lemma finite_percentile_int z :
  (Z.abs z <= 2 ^ 900)%Z -> finite_percentile (PyInt z).
Proof.
  intros H. exists (inject_Z z). split; [reflexivity |].
  assert (pow2 900 == inject_Z (2 ^ 900)) as P by (apply pow2_Z; lia).
  rewrite P. apply Qabs_Qle_condition. rewrite <- inject_Z_opp.
  split; rewrite <- Zle_Qle; lia.
Qed.

(* ------------------------------------------------------------------ *)
(** ** C1 *)

(** C1, as stated, fails: with the percentile [10**400], an [int], the
    quotient [percentile_threshold / 100] is beyond the doubles and
    [split] raises OverflowError on a dataset of two rows. *)
Lemma C1_counterexample :
  (2 <= len tied_rows)%nat /\
  @split numpy_stable tied_rows (PyInt (10 ^ 400)) = Raise OverflowError.
Proof. split; [vm_compute; lia | vm_compute; reflexivity]. Qed.

(** C1, amended.  For every dataset with the rank column and at least two
    rows, and every finite percentile of magnitude at most [2^900], in or out
    of the range 0 to 100, [split] returns two groups whose sizes sum to the
    size of the dataset, each with at least one row. *)
Theorem C1_split_sizes :
  forall (N : Numpy) (data : DataFrame) (p : pynum),
    has_column rank_column data ->
    (2 <= len data)%nat ->
    word_sized data ->
    finite_percentile p ->
    exists up lo,
      split data p = Ok (up, lo) /\
      (len up + len lo = len data)%nat /\
      (1 <= len up)%nat /\ (1 <= len lo)%nat.
Proof.
  intros N data p Hc Hn Hw (v & Hv & Hb).
  destruct (cutoff_idx_total _ _ _ Hv Hb Hw) as (c & Ec).
  destruct (split_total _ _ _ Hc Ec) as (up & lo & E).
  exists up, lo. split; [exact E |].
  destruct (split_lengths _ _ _ _ E) as (c' & Ec' & Lu & Ls).
  rewrite Ec in Ec'. injection Ec' as <-.
  pose proof (cutoff_idx_range _ _ _ Hn Ec). lia.
Qed.

Lemma C1_split_sizes_witness :
  exists up lo,
    @split numpy_stable ten_rows (PyInt (-20)) = Ok (up, lo) /\
    (len up + len lo = len ten_rows)%nat /\
    (1 <= len up)%nat /\ (1 <= len lo)%nat.
Proof.
  apply (C1_split_sizes numpy_stable ten_rows (PyInt (-20))).
  - exists O. reflexivity.
  - vm_compute. lia.
  - unfold word_sized. vm_compute. discriminate.
  - apply finite_percentile_int. vm_compute. discriminate.
Defined.

(* ------------------------------------------------------------------ *)
(** ** C2 *)

(** C2, as stated, fails: the cutoff is not always
    [floor(len(dataset) * percentile / 100)].  The code divides first, and
    both the quotient and the product are rounded: on ninety rows at
    percentile 70 the product is just under sixty-three, the upper group has
    sixty-two rows, and the formula gives sixty-three. *)
Lemma C2_counterexample :
  exists up lo,
    @split numpy_stable ninety_rows (PyInt 70) = Ok (up, lo) /\
    len ninety_rows = 90%nat /\
    len up = 62%nat /\
    Z.max 1 (Z.min (Z.of_nat (len ninety_rows) * 70 / 100)
                   (Z.of_nat (len ninety_rows) - 1)) = 63%Z.
Proof.
  do 2 eexists. split; [vm_compute; reflexivity |].
  split; [vm_compute; reflexivity |].
  split; vm_compute; reflexivity.
Qed.

(** C2, amended.  When [split] returns, the rows were sorted by the rank
    column in descending order, rows without a rank last; the cutoff is the
    double product [len(dataset) * (percentile / 100)], quotient and product
    each rounded to the nearest double, truncated toward zero and clamped to
    the range from 1 to [len(dataset) - 1]; the upper group is the first
    [cutoff] sorted rows and the lower group the rest.  For a whole
    percentile from 0 to 100 the truncated product is
    [floor(len(dataset) * percentile / 100)], or one less where
    [len(dataset) * percentile] is a multiple of one hundred.  On ten rows,
    percentile 0 gives an upper group of one row and percentile 100 a lower
    group of one row. *)
Theorem C2_split_formula :
  forall (N : Numpy) (data : DataFrame) (p : pynum) (up lo : DataFrame),
    split data p = Ok (up, lo) ->
    exists sorted i n a,
      sort_values data rank_column = Ok sorted /\
      position rank_column (columns data) = Some i /\
      Permutation (rows sorted) (rows data) /\
      StronglySorted before_desc (map (cell i) (rows sorted)) /\
      float_of_int (Z.of_nat (len data)) = Ok (Fin n) /\
      fmul (Fin n) (fdiv (value p) (Fin 100)) = Fin a /\
      let cutoff := Z.max 1 (Z.min (Qtrunc a) (Z.of_nat (len data) - 1)) in
      ((2 <= len data)%nat -> (1 <= cutoff <= Z.of_nat (len data) - 1)%Z) /\
      rows up = firstn (Z.to_nat cutoff) (rows sorted) /\
      rows lo = skipn (Z.to_nat cutoff) (rows sorted) /\
      (forall z, p = PyInt z -> (0 <= z <= 100)%Z ->
                 (1 <= len data)%nat -> (Z.of_nat (len data) <= 2 ^ 40)%Z ->
                 Qtrunc a = (Z.of_nat (len data) * z / 100)%Z \/
                 (Qtrunc a = (Z.of_nat (len data) * z / 100 - 1)%Z /\
                  (Z.of_nat (len data) * z mod 100 = 0)%Z)) /\
      (len data = 10%nat -> p = PyInt 0 ->
       len up = 1%nat /\ len lo = 9%nat) /\
      (len data = 10%nat -> p = PyInt 100 ->
       len up = 9%nat /\ len lo = 1%nat).
Proof.
  intros N data p up lo E.
  destruct (split_inv _ _ _ _ E) as (sorted & cutoff & Hs & Hc & Hu & Hl).
  destruct (sort_values_sorted _ _ _ Hs) as (i & Hi & S).
  destruct (cutoff_idx_inv _ _ _ Hc) as (n & a & Hn & _ & Ha & Ec).
  destruct (split_lengths _ _ _ _ E) as (c' & Hc' & Lu & Ls).
  rewrite Hc in Hc'. injection Hc' as <-.
  exists sorted, i, n, a. cbv zeta. rewrite <- Ec.
  repeat split; try assumption.
  - apply (sort_values_perm _ _ _ Hs).
  - apply (cutoff_idx_range _ _ _ H Hc).
  - apply (cutoff_idx_range _ _ _ H Hc).
  - intros z -> Hz H1 Hb. exact (product_floor _ _ _ _ H1 Hb Hz Hn Ha).
  - subst p. rewrite H in Hc. vm_compute in Hc. injection Hc as <-.
    rewrite H in Lu. exact Lu.
  - subst p. rewrite H in Hc, Lu, Ls. vm_compute in Hc. injection Hc as <-.
    simpl in Lu. lia.
  - subst p. rewrite H in Hc, Lu. vm_compute in Hc. injection Hc as <-.
    exact Lu.
  - subst p. rewrite H in Hc, Lu, Ls. vm_compute in Hc. injection Hc as <-.
    simpl in Lu. lia.
Qed.

Lemma C2_split_formula_witness :
  exists up lo,
    @split numpy_stable ten_rows (PyInt 50) = Ok (up, lo) /\
    len up = 5%nat /\ len lo = 5%nat /\
    exists sorted i n a,
      @sort_values numpy_stable ten_rows rank_column = Ok sorted /\
      position rank_column (columns ten_rows) = Some i /\
      Permutation (rows sorted) (rows ten_rows) /\
      StronglySorted before_desc (map (cell i) (rows sorted)) /\
      float_of_int (Z.of_nat (len ten_rows)) = Ok (Fin n) /\
      fmul (Fin n) (fdiv (value (PyInt 50)) (Fin 100)) = Fin a /\
      let cutoff := Z.max 1 (Z.min (Qtrunc a) (Z.of_nat (len ten_rows) - 1)) in
      ((2 <= len ten_rows)%nat ->
       (1 <= cutoff <= Z.of_nat (len ten_rows) - 1)%Z) /\
      rows up = firstn (Z.to_nat cutoff) (rows sorted) /\
      rows lo = skipn (Z.to_nat cutoff) (rows sorted) /\
      (forall z, PyInt 50 = PyInt z -> (0 <= z <= 100)%Z ->
                 (1 <= len ten_rows)%nat ->
                 (Z.of_nat (len ten_rows) <= 2 ^ 40)%Z ->
                 Qtrunc a = (Z.of_nat (len ten_rows) * z / 100)%Z \/
                 (Qtrunc a = (Z.of_nat (len ten_rows) * z / 100 - 1)%Z /\
                  (Z.of_nat (len ten_rows) * z mod 100 = 0)%Z)) /\
      (len ten_rows = 10%nat -> PyInt 50 = PyInt 0 ->
       len up = 1%nat /\ len lo = 9%nat) /\
      (len ten_rows = 10%nat -> PyInt 50 = PyInt 100 ->
       len up = 9%nat /\ len lo = 1%nat).
Proof.
  do 2 eexists. split; [vm_compute; reflexivity |].
  split; [reflexivity |]. split; [reflexivity |].
  apply (C2_split_formula numpy_stable ten_rows (PyInt 50)).
  vm_compute. reflexivity.
Defined.

(* ------------------------------------------------------------------ *)
(** ** C5 *)

(** C5 fails on the code: on a dataset of one row [split] raises nothing;
    it returns the row as the upper group and an empty lower group. *)
Theorem C5_one_row_is_split :
  exists up lo,
    @split numpy_stable one_row (PyInt 50) = Ok (up, lo) /\
    len one_row = 1%nat /\ rows up = rows one_row /\ rows lo = [].
Proof.
  do 2 eexists. split; [vm_compute; reflexivity |].
  split; [reflexivity |]. split; reflexivity.
Qed.

(* ------------------------------------------------------------------ *)
(** ** C8 *)

(** C8.  For two percentiles [p1 <= p2] and one dataset, the upper group
    that [split] returns at [p2] has at least as many rows as the one it
    returns at [p1]; and it returns at both whenever the dataset has the
    rank column and the two percentiles are finite, of magnitude at most
    [2^900]. *)
Theorem C8_upper_group_monotone :
  forall (N : Numpy) (data : DataFrame) (p1 p2 : pynum),
    py_le p1 p2 ->
    (forall up1 lo1 up2 lo2,
        split data p1 = Ok (up1, lo1) -> split data p2 = Ok (up2, lo2) ->
        (len up1 <= len up2)%nat) /\
    (has_column rank_column data -> word_sized data ->
     finite_percentile p1 -> finite_percentile p2 ->
     exists up1 lo1 up2 lo2,
       split data p1 = Ok (up1, lo1) /\ split data p2 = Ok (up2, lo2)).
Proof.
  intros N data p1 p2 Hle. split.
  - intros up1 lo1 up2 lo2 E1 E2.
    destruct (split_lengths _ _ _ _ E1) as (c1 & Ec1 & L1 & _).
    destruct (split_lengths _ _ _ _ E2) as (c2 & Ec2 & L2 & _).
    pose proof (cutoff_idx_mono _ _ _ _ _ Hle Ec1 Ec2). lia.
  - intros Hc Hw (v1 & Hv1 & Hb1) (v2 & Hv2 & Hb2).
    destruct (cutoff_idx_total _ _ _ Hv1 Hb1 Hw) as (c1 & Ec1).
    destruct (cutoff_idx_total _ _ _ Hv2 Hb2 Hw) as (c2 & Ec2).
    destruct (split_total _ _ _ Hc Ec1) as (up1 & lo1 & E1).
    destruct (split_total _ _ _ Hc Ec2) as (up2 & lo2 & E2).
    exists up1, lo1, up2, lo2. split; assumption.
Qed.

Lemma C8_upper_group_monotone_witness :
  (forall up1 lo1 up2 lo2,
      @split numpy_stable ten_rows (PyInt 30) = Ok (up1, lo1) ->
      @split numpy_stable ten_rows (PyFloat (Fin (145 # 2))) = Ok (up2, lo2) ->
      (len up1 <= len up2)%nat) /\
  (has_column rank_column ten_rows -> word_sized ten_rows ->
   finite_percentile (PyInt 30) -> finite_percentile (PyFloat (Fin (145 # 2))) ->
   exists up1 lo1 up2 lo2,
     @split numpy_stable ten_rows (PyInt 30) = Ok (up1, lo1) /\
     @split numpy_stable ten_rows (PyFloat (Fin (145 # 2))) = Ok (up2, lo2)).
Proof.
  apply (C8_upper_group_monotone numpy_stable ten_rows
           (PyInt 30) (PyFloat (Fin (145 # 2)))).
  vm_compute. reflexivity.
Defined.

(* ------------------------------------------------------------------ *)
(** ** C10 *)

Lemma split_sorted `{Numpy} data p up lo i :
  split data p = Ok (up, lo) ->
  position rank_column (columns data) = Some i ->
  Permutation (rows up ++ rows lo) (rows data) /\
  StronglySorted before_desc (map (cell i) (rows up ++ rows lo)).
Proof.
  intros E Hi.
  destruct (split_inv _ _ _ _ E) as (sorted & cutoff & Hs & _ & -> & ->).
  rewrite firstn_skipn. split; [apply (sort_values_perm _ _ _ Hs) |].
  destruct (sort_values_sorted _ _ _ Hs) as (i' & Hi' & S).
  rewrite Hi in Hi'. injection Hi' as <-. exact S.
Qed.

(** C10, as stated, fails: a row whose rank is missing is sorted last, and
    no comparison with a missing rank holds.  Here the upper group is the
    row of rank 5, the lower group the row without a rank. *)
Lemma C10_counterexample :
  (2 <= len unranked_row)%nat /\
  exists up lo u l,
    @split numpy_stable unranked_row (PyInt 50) = Ok (up, lo) /\
    In u (rows up) /\ In l (rows lo) /\
    fleb (cell 0 l) (cell 0 u) = false.
Proof.
  split; [vm_compute; lia |].
  do 4 eexists. split; [vm_compute; reflexivity |].
  split; [left; reflexivity |]. split; [left; reflexivity |]. reflexivity.
Qed.

(** C10, amended.  In what [split] returns, for every row [u] of the upper
    group and every row [l] of the lower group, either the rank of [l] is
    missing, or both ranks are present and the rank of [u] is greater than or
    equal to the rank of [l]; so when no rank of the dataset is missing,
    every rank of the upper group is greater than or equal to every rank of
    the lower group. *)
Theorem C10_rank_dominance :
  forall (N : Numpy) (data : DataFrame) (p : pynum) (up lo : DataFrame)
         (i : nat),
    split data p = Ok (up, lo) ->
    position rank_column (columns data) = Some i ->
    (forall u l, In u (rows up) -> In l (rows lo) ->
                 before_desc (cell i u) (cell i l)) /\
    (all_ranked i data ->
     forall u l, In u (rows up) -> In l (rows lo) ->
                 fle (cell i l) (cell i u)).
Proof.
  intros N data p up lo i E Hi.
  destruct (split_sorted _ _ _ _ _ E Hi) as (P & S).
  rewrite map_app in S.
  assert (forall u l, In u (rows up) -> In l (rows lo) ->
                      before_desc (cell i u) (cell i l)) as D.
  { intros u l Hu Hl.
    apply (StronglySorted_app_inv _ _ _ S); apply in_map; assumption. }
  split; [exact D |].
  intros A u l Hu Hl. destruct (D u l Hu Hl) as [Nl | [_ L]]; [| exact L].
  assert (In l (rows data)) as Hd.
  { apply (Permutation_in _ P). apply in_or_app. right; exact Hl. }
  rewrite (A l Hd) in Nl. discriminate.
Qed.

Lemma C10_rank_dominance_witness :
  exists up lo,
    @split numpy_stable ten_rows (PyInt 50) = Ok (up, lo) /\
    (forall u l, In u (rows up) -> In l (rows lo) ->
                 before_desc (cell 0 u) (cell 0 l)) /\
    (all_ranked 0 ten_rows ->
     forall u l, In u (rows up) -> In l (rows lo) ->
                 fle (cell 0 l) (cell 0 u)).
Proof.
  do 2 eexists. split; [vm_compute; reflexivity |].
  apply (C10_rank_dominance numpy_stable ten_rows (PyInt 50) _ _ O).
  - vm_compute. reflexivity.
  - reflexivity.
Defined.

(* ------------------------------------------------------------------ *)
(** ** C7 *)

(** C7, as stated, fails.  The sort is the library's default, quicksort,
    which is not stable.  For the ranks [1, 1, 2, 2] pandas hands numpy the
    reversed keys [2, 2, 1, 1]; the vectorised quicksort exchanges the first
    key with the last and the second with the third and leaves equal keys
    where they are, so the argsort is [3, 2, 1, 0] and the sorted rows are
    the rows 3, 2, 1, 0: both pairs of equal rank come out in the opposite
    order. *)
Lemma C7_counterexample :
  exists sorted,
    @sort_values numpy_vector paired_ranks rank_column = Ok sorted /\
    @argsort numpy_vector (of_ints [2; 2; 1; 1]%Z) = [3; 2; 1; 0]%nat /\
    map label (rows sorted) = [3; 2; 1; 0]%nat /\
    ~ keeps_ties_in_order 0 (rows paired_ranks) (rows sorted).
Proof.
  eexists. split; [vm_compute; reflexivity |].
  split; [vm_compute; reflexivity |].
  split; [reflexivity |].
  intros K.
  destruct (K O 1%nat _ _ (Nat.lt_0_1) eq_refl eq_refl
              (conj eq_refl eq_refl)) as (a' & b' & L & Ha & Hb).
  destruct a' as [| [| [| [| a']]]]; simpl in Ha; try discriminate.
  - destruct b' as [| [| [| [| b']]]]; simpl in Hb; try discriminate; try lia.
    destruct b'; discriminate.
  - destruct a'; discriminate.
Qed.

(** C7, amended.  The sort that [split] performs returns the rows of the
    dataset, each once, with the ranks in descending order and the rows
    without a rank last; the order between two rows of equal rank is the one
    the library's quicksort leaves them in. *)
Theorem C7_sort_descending :
  forall (N : Numpy) (data sorted : DataFrame),
    sort_values data rank_column = Ok sorted ->
    columns sorted = columns data /\
    Permutation (rows sorted) (rows data) /\
    exists i, position rank_column (columns data) = Some i /\
              StronglySorted before_desc (map (cell i) (rows sorted)).
Proof.
  intros N data sorted E. split; [| split].
  - destruct (sort_values_inv _ _ _ E) as (i & _ & C & _). exact C.
  - apply (sort_values_perm _ _ _ E).
  - apply (sort_values_sorted _ _ _ E).
Qed.

Lemma C7_sort_descending_witness :
  exists sorted,
    @sort_values numpy_vector paired_ranks rank_column = Ok sorted /\
    columns sorted = columns paired_ranks /\
    Permutation (rows sorted) (rows paired_ranks) /\
    exists i, position rank_column (columns paired_ranks) = Some i /\
              StronglySorted before_desc (map (cell i) (rows sorted)).
Proof.
  eexists. split; [vm_compute; reflexivity |].
  apply (C7_sort_descending numpy_vector paired_ranks).
  vm_compute. reflexivity.
Defined.

End SplitSpec.

(* ================================================================== *)
(** * Facts about the analysis of one group *)
(* ================================================================== *)

Module AnalysisFacts.
Import Binary64 Binary64Facts Py PyFacts Libs Frame FrameFacts.
Import Report CutoffFacts SplitFacts.

Lemma dropna_In x s : In x (dropna s) -> In x s /\ is_nan x = false.
Proof.
  unfold dropna. intros H. apply filter_In in H. destruct H as [H N].
  split; [exact H | apply negb_true_iff, N].
Qed.

Lemma round64_one : round64 1 = Fin 1.
Proof. reflexivity. Qed.

(** The length of a Series that is not empty converts to a double from 1
    to [2^64]. *)
Lemma float_of_len n :
  (1 <= n)%nat -> (Z.of_nat n <= 2 ^ 63)%Z ->
  exists size, float_of_int (Z.of_nat n) = Ok (Fin size) /\
               1 <= size /\ size <= pow2 64.
Proof.
  intros L U.
  assert (1 <= inject_Z (Z.of_nat n)) as Q1
    by (change 1 with (inject_Z 1); rewrite <- Zle_Qle; lia).
  assert (Qabs (inject_Z (Z.of_nat n)) <= pow2 63) as B.
  { rewrite Qabs_pos by lra.
    assert (pow2 63 == inject_Z (2 ^ 63)) as P by (apply pow2_Z; lia).
    rewrite P, <- Zle_Qle. exact U. }
  destruct (round64_finite _ 63 ltac:(lia) B) as (size & Hs & Bs).
  exists size. unfold float_of_int. rewrite Hs. split; [reflexivity |].
  pose proof (round64_mono _ _ Q1) as M. rewrite round64_one, Hs in M.
  apply fle_Fin in M. split; [exact M |].
  apply Qabs_Qle_condition in Bs. exact (proj2 Bs).
Qed.

Lemma scalar_truediv_value s y v :
  scalar_truediv s y = Ok v -> v = fdiv (scalar_value s) y.
Proof.
  destruct s as [x | x]; simpl.
  - intros E. injection E as <-. reflexivity.
  - unfold float_truediv. destruct y as [| b | q];
      try (intros E; injection E as <-; reflexivity).
    destruct (Qeq_bool q 0); [discriminate |].
    intros E; injection E as <-; reflexivity.
Qed.

Lemma scalar_truediv_positive s r :
  0 < r -> scalar_truediv s (Fin r) = Ok (fdiv (scalar_value s) (Fin r)).
Proof.
  intros P. destruct s as [x | x]; simpl; [reflexivity |].
  destruct (Qeq_bool r 0) eqn:E; [| reflexivity].
  apply Qeq_bool_iff in E. lra.
Qed.

Section WithLibs.
Context `{Pandas} `{Libm}.

(** The divisor of the standard error is built from [len(group[year])],
    the number of rows of the Series, missing values included. *)
Lemma describe_standard_error series st :
  describe series = Ok st ->
  exists size,
    float_of_int (Z.of_nat (length series)) = Ok size /\
    Standard_Deviation st = scalar_value (std series) /\
    Standard_Error st = fdiv (Standard_Deviation st) (pow_half size).
Proof.
  unfold describe. intros E.
  apply bind_Ok in E. destruct E as (size & Hs & E).
  apply bind_Ok in E. destruct E as (se & He & E).
  injection E as <-. exists size. simpl.
  split; [exact Hs |]. split; [reflexivity |].
  apply scalar_truediv_value, He.
Qed.

(** On a Series with at least one row nothing is raised. *)
Lemma describe_ok series :
  (1 <= length series)%nat -> (Z.of_nat (length series) <= 2 ^ 63)%Z ->
  exists root,
    describe series =
    Ok {| Mean := mean series;
          Standard_Error := fdiv (scalar_value (std series)) (Fin root);
          Median := median series;
          Standard_Deviation := scalar_value (std series);
          Sample_Variance := var series;
          Kurtosis := kurtosis series;
          Skewness := skew series;
          Range := fsub (max series) (min series);
          Minimum := min series;
          Maximum := max series;
          Sum := sum series;
          Count := count series |}.
Proof.
  intros L U. destruct (float_of_len _ L U) as (size & Hs & S1 & S2).
  destruct (pow_half_positive size S1 S2) as (root & Hr & Pr).
  exists root. unfold describe. rewrite Hs. simpl. rewrite Hr.
  rewrite (scalar_truediv_positive _ _ Pr). reflexivity.
Qed.

End WithLibs.

Section WithNumpy.
Context `{Numpy}.

Lemma split_columns data p up lo :
  split data p = Ok (up, lo) ->
  columns up = columns data /\ columns lo = columns data.
Proof.
  unfold split. intros E.
  apply bind_Ok in E. destruct E as (sorted & Hs & E).
  apply bind_Ok in E. destruct E as (cutoff & Hc & E).
  cbv beta zeta in E. injection E as <- <-. simpl.
  destruct (sort_values_inv _ _ _ Hs) as (i & _ & C & _).
  split; exact C.
Qed.

Lemma split_missing_rank data p :
  position rank_column (columns data) = None ->
  split data p = Raise (KeyError rank_column).
Proof.
  intros E. unfold split, sort_values, getitem. rewrite E. reflexivity.
Qed.

End WithNumpy.

End AnalysisFacts.

(* ================================================================== *)
(** * The analysis: claims C3, C4, C6, C9 *)
(* ================================================================== *)

Module AnalysisSpec.
Import Binary64 Binary64Facts Py PyFacts Libs Frame FrameFacts.
Import Report CutoffFacts SplitFacts AnalysisFacts.
Import Reference ReferenceStats ReferenceFacts FloatStats Examples SplitSpec.

(** [stats[year]]. *)
Fixpoint lookup (year : string) (stats : list (string * Stats))
  : option Stats :=
  match stats with
  | [] => None
  | (y, s) :: rest => if String.eqb year y then Some s else lookup year rest
  end.

(** The three columns [analyze_split] reads. *)
Definition required_columns : list string :=
  [rank_column; reference_column; comparison_column].

(** Every valid value of [a] is below every valid value of [b]. *)
Definition uniformly_below (a b : list float64) : Prop :=
  forall x y, In x a -> In y b ->
              is_nan x = false -> is_nan y = false -> flt x y.

Lemma uniformly_below_check a b :
  forallb (fun x => is_nan x || forallb (fun y => is_nan y || fltb x y) b) a
  = true ->
  uniformly_below a b.
Proof.
  intros H x y Ix Iy Nx Ny. rewrite forallb_forall in H.
  specialize (H x Ix). rewrite Nx in H. simpl in H.
  rewrite forallb_forall in H. specialize (H y Iy). rewrite Ny in H.
  exact H.
Qed.

Section WithLibs.
Context `{Scipy} `{Pandas} `{Libm}.

Lemma analyze_group_inv group r :
  analyze_group group = Ok r ->
  exists comparison reference stats_2019 stats_2021,
    getitem group comparison_column = Ok comparison /\
    getitem group reference_column = Ok reference /\
    describe reference = Ok stats_2019 /\
    describe comparison = Ok stats_2021 /\
    r = {| data := group;
           result_pvalue :=
             fdiv (pvalue (ttest_ind comparison reference)) (Fin 2);
           result_statistic := statistic (ttest_ind comparison reference);
           significant :=
             fltb (fdiv (pvalue (ttest_ind comparison reference)) (Fin 2))
                  alpha
             && fltb (Fin 0) (statistic (ttest_ind comparison reference));
           stats := [(reference_column, stats_2019);
                     (comparison_column, stats_2021)] |}.
Proof.
  unfold analyze_group. intros E.
  apply bind_Ok in E. destruct E as (comparison & Hc & E).
  apply bind_Ok in E. destruct E as (reference & Hr & E).
  cbv beta zeta in E. rewrite Hr in E. cbn [bind] in E.
  apply bind_Ok in E. destruct E as (s19 & H19 & E).
  rewrite Hc in E. cbn [bind] in E.
  apply bind_Ok in E. destruct E as (s21 & H21 & E).
  injection E as <-.
  exists comparison, reference, s19, s21. repeat split; assumption.
Qed.

End WithLibs.

(* ------------------------------------------------------------------ *)
(** ** C3 *)

(** C3, as stated, fails in its last part.  At the percentile 95 the upper
    group of [rounded_means_data] is [rounded_means], where every [2021_HE]
    value, 0.7, is below every [2019_HE] value, 0.7000000000000001.  The
    test leaves out the four missing values and works on eleven and fifteen
    values; in binary64 the mean of the eleven comes out above the mean of
    the fifteen, so the statistic is above zero, the one-tailed p-value is
    below 0.05, and the flag is true. *)
Lemma C3_counterexample :
  exists r lower comparison reference,
    @analyze_split numpy_stable scipy_binary64 pandas_reference
                   libm_reference rounded_means_data (PyInt 95)
    = Ok [(Top (PyInt 95), r); (Bottom (PyInt 5), lower)] /\
    Report.data r = rounded_means /\
    getitem (Report.data r) comparison_column = Ok comparison /\
    getitem (Report.data r) reference_column = Ok reference /\
    uniformly_below comparison reference /\
    flt (np_mean (dropna reference)) (np_mean (dropna comparison)) /\
    flt (Fin 0) (result_statistic r) /\
    flt (result_pvalue r) alpha /\
    significant r = true.
Proof.
  do 4 eexists. split; [vm_compute; reflexivity |].
  split; [vm_compute; reflexivity |].
  split; [vm_compute; reflexivity |].
  split; [vm_compute; reflexivity |].
  split; [apply uniformly_below_check; vm_compute; reflexivity |].
  split; [vm_compute; reflexivity |].
  split; [vm_compute; reflexivity |].
  split; vm_compute; reflexivity.
Qed.

(** C3, amended.  In the result of a group, the reported statistic is the
    one the two-sample test of the comparison column against the reference
    column returns, the reported p-value is the p-value of that test
    divided by two, and the flag is true exactly when that p-value is below
    0.05 and the statistic is above zero; so whenever the statistic is not
    above zero (negative, zero or NaN) the flag is false, whatever the
    p-value. *)
Theorem C3_significance :
  forall (S : Scipy) (P : Pandas) (L : Libm) (group : DataFrame)
         (r : GroupResult),
    analyze_group group = Ok r ->
    exists comparison reference,
      getitem group comparison_column = Ok comparison /\
      getitem group reference_column = Ok reference /\
      result_statistic r = statistic (ttest_ind comparison reference) /\
      result_pvalue r
      = fdiv (pvalue (ttest_ind comparison reference)) (Fin 2) /\
      (significant r = true <->
       flt (result_pvalue r) alpha /\ flt (Fin 0) (result_statistic r)) /\
      (fltb (Fin 0) (result_statistic r) = false -> significant r = false).
Proof.
  intros S P L group r E.
  destruct (analyze_group_inv _ _ E)
    as (comparison & reference & s19 & s21 & Hc & Hr & _ & _ & ->).
  exists comparison, reference. cbn [result_statistic result_pvalue significant].
  repeat split; try assumption.
  - apply andb_true_iff in H. exact (proj1 H).
  - apply andb_true_iff in H. exact (proj2 H).
  - intros [A B]. apply andb_true_iff. split; assumption.
  - intros U. rewrite U. apply andb_false_r.
Qed.

Lemma C3_significance_witness :
  exists r,
    @analyze_group scipy_binary64 pandas_reference libm_reference
                   lower_comparison = Ok r /\
    exists comparison reference,
      getitem lower_comparison comparison_column = Ok comparison /\
      getitem lower_comparison reference_column = Ok reference /\
      result_statistic r
      = statistic (@ttest_ind scipy_binary64 comparison reference) /\
      result_pvalue r
      = fdiv (pvalue (@ttest_ind scipy_binary64 comparison reference))
             (Fin 2) /\
      (significant r = true <->
       flt (result_pvalue r) alpha /\ flt (Fin 0) (result_statistic r)) /\
      (fltb (Fin 0) (result_statistic r) = false -> significant r = false).
Proof.
  eexists. split; [vm_compute; reflexivity |].
  apply (C3_significance scipy_binary64 pandas_reference libm_reference
                         lower_comparison).
  vm_compute. reflexivity.
Defined.

(* ------------------------------------------------------------------ *)
(** ** C4 *)

(** C4 fails on the code: the standard error is the standard deviation
    over the square root of [len(group[year])], which counts the missing
    values.  On a column of sixteen rows with four values, [0, 0, 0, 2], the
    standard deviation is 1 and the count 4; the code reports 1/4, and the
    standard deviation over the square root of the count is 1/2. *)
Theorem C4_standard_error_divides_by_len :
  exists st,
    @describe pandas_reference libm_reference sparse_series = Ok st /\
    length sparse_series = 16%nat /\
    Count st = 4%Z /\
    Standard_Deviation st = Fin 1 /\
    Standard_Error st = Fin (1 # 4) /\
    fdiv (Standard_Deviation st) (@pow_half libm_reference (Fin 4))
    = Fin (1 # 2).
Proof.
  eexists. split; [vm_compute; reflexivity |].
  split; [reflexivity |]. split; [reflexivity |]. split; [reflexivity |].
  split; reflexivity.
Qed.

(* ------------------------------------------------------------------ *)
(** ** C6 *)

(** C6, as stated, fails: in a dataset that has the rank column and lacks
    [2021_HE], a percentile that is not a finite number is refused at line
    26, before any other column is read, so the error is the ValueError or
    the OverflowError of [int()] and not the error of the missing column. *)
Lemma C6_counterexample :
  In comparison_column required_columns /\
  position comparison_column (columns no_comparison) = None /\
  @analyze_split numpy_stable scipy_reference pandas_reference libm_reference
                 no_comparison (PyFloat NaN) = Raise ValueError /\
  @analyze_split numpy_stable scipy_reference pandas_reference libm_reference
                 no_comparison (PyFloat (Inf false)) = Raise OverflowError /\
  @analyze_split numpy_stable scipy_reference pandas_reference libm_reference
                 no_comparison (PyInt (10 ^ 400)) = Raise OverflowError.
Proof.
  split; [right; right; left; reflexivity |].
  split; [reflexivity |].
  split; [vm_compute; reflexivity |].
  split; vm_compute; reflexivity.
Qed.

(** C6, amended.  For every dataset without one of the three columns the
    function reads, and every finite percentile, one the cutoff can be
    computed from, [analyze_split] returns nothing and raises the KeyError
    that names a required column that is not there: the error a missing
    column has in the code, which defines no error class of its own. *)
Theorem C6_missing_column :
  forall (N : Numpy) (S : Scipy) (P : Pandas) (L : Libm)
         (data : DataFrame) (p : pynum) (c : string),
    In c required_columns ->
    position c (columns data) = None ->
    word_sized data ->
    finite_percentile p ->
    exists c',
      In c' required_columns /\
      position c' (columns data) = None /\
      analyze_split data p = Raise (KeyError c').
Proof.
  intros N S P L data p c Hin Hc Hw (v & Hv & Hb).
  destruct (position rank_column (columns data)) as [i |] eqn:Er.
  - destruct (cutoff_idx_total _ _ _ Hv Hb Hw) as (k & Ek).
    destruct (split_total data p k (ex_intro _ i Er) Ek) as (up & lo & E).
    destruct (split_columns _ _ _ _ E) as [Cu _].
    unfold analyze_split. rewrite E. cbn [bind fst snd].
    destruct (position comparison_column (columns data)) as [j |] eqn:Ec.
    + assert (position reference_column (columns data) = None) as En.
      { destruct Hin as [<- | [<- | [<- | []]]]; congruence. }
      exists reference_column. split; [right; left; reflexivity |].
      split; [exact En |].
      unfold analyze_group, getitem. rewrite Cu, Ec, En. reflexivity.
    + exists comparison_column. split; [right; right; left; reflexivity |].
      split; [exact Ec |].
      unfold analyze_group, getitem. rewrite Cu, Ec. reflexivity.
  - exists rank_column. split; [left; reflexivity |]. split; [exact Er |].
    unfold analyze_split. rewrite (split_missing_rank _ _ Er). reflexivity.
Qed.

Lemma C6_missing_column_witness :
  exists c',
    In c' required_columns /\
    position c' (columns no_comparison) = None /\
    @analyze_split numpy_stable scipy_reference pandas_reference
                   libm_reference no_comparison (PyInt 50)
    = Raise (KeyError c').
Proof.
  apply (C6_missing_column numpy_stable scipy_reference pandas_reference
                           libm_reference no_comparison (PyInt 50)
                           comparison_column).
  - right; right; left; reflexivity.
  - reflexivity.
  - unfold word_sized. vm_compute. discriminate.
  - apply finite_percentile_int. vm_compute. discriminate.
Defined.

(* ------------------------------------------------------------------ *)
(** ** C9 *)

(** C9.  For every group with at least one row and both columns, where one
    of the two columns has no valid value, [analyze_group] raises nothing,
    and in the statistics of that column the mean, the standard error, the
    median, the standard deviation, the variance, the kurtosis, the
    skewness, the range, the minimum and the maximum are NaN; the sum is
    zero and the count is zero. *)
Theorem C9_no_valid_value :
  forall (S : Scipy) (P : Pandas) (L : Libm) (group : DataFrame)
         (year : string) (series : list float64),
    rows group <> [] ->
    word_sized group ->
    has_column reference_column group ->
    has_column comparison_column group ->
    year = reference_column \/ year = comparison_column ->
    getitem group year = Ok series ->
    dropna series = [] ->
    exists r st,
      analyze_group group = Ok r /\
      lookup year (stats r) = Some st /\
      Mean st = NaN /\ Standard_Error st = NaN /\ Median st = NaN /\
      Standard_Deviation st = NaN /\ Sample_Variance st = NaN /\
      Kurtosis st = NaN /\ Skewness st = NaN /\ Range st = NaN /\
      Minimum st = NaN /\ Maximum st = NaN /\
      Sum st = Fin 0 /\ Count st = 0%Z.
Proof.
  intros S P L group year series Hne Hw (i & Hi) (j & Hj) Hy Hs Hd.
  assert (1 <= len group)%nat as L1.
  { unfold len. destruct (rows group); [congruence | simpl; lia]. }
  assert (getitem group reference_column = Ok (map (cell i) (rows group)))
    as Gr by (unfold getitem; rewrite Hi; reflexivity).
  assert (getitem group comparison_column = Ok (map (cell j) (rows group)))
    as Gc by (unfold getitem; rewrite Hj; reflexivity).
  set (reference := map (cell i) (rows group)) in *.
  set (comparison := map (cell j) (rows group)) in *.
  assert (length reference = len group) as Lr by apply length_map.
  assert (length comparison = len group) as Lc by apply length_map.
  destruct (describe_ok reference) as (root_r & Dr);
    [rewrite Lr; exact L1 | rewrite Lr; exact Hw |].
  destruct (describe_ok comparison) as (root_c & Dc);
    [rewrite Lc; exact L1 | rewrite Lc; exact Hw |].
  unfold analyze_group.
  repeat (first [rewrite Gc | rewrite Gr | rewrite Dr | rewrite Dc];
          cbn [bind]).
  destruct Hy as [-> | ->].
  - rewrite Gr in Hs. injection Hs as <-.
    do 2 eexists. split; [reflexivity |]. split; [reflexivity |].
    cbn [Mean Standard_Error Median Standard_Deviation Sample_Variance
         Kurtosis Skewness Range Minimum Maximum Sum Count].
    rewrite (mean_no_valid _ Hd), (std_no_valid _ Hd), (median_no_valid _ Hd),
      (var_no_valid _ Hd), (kurtosis_no_valid _ Hd), (skew_no_valid _ Hd),
      (max_no_valid _ Hd), (min_no_valid _ Hd), (sum_no_valid _ Hd),
      count_valid, Hd.
    repeat split; reflexivity.
  - rewrite Gc in Hs. injection Hs as <-.
    do 2 eexists. split; [reflexivity |]. split; [reflexivity |].
    cbn [Mean Standard_Error Median Standard_Deviation Sample_Variance
         Kurtosis Skewness Range Minimum Maximum Sum Count].
    rewrite (mean_no_valid _ Hd), (std_no_valid _ Hd), (median_no_valid _ Hd),
      (var_no_valid _ Hd), (kurtosis_no_valid _ Hd), (skew_no_valid _ Hd),
      (max_no_valid _ Hd), (min_no_valid _ Hd), (sum_no_valid _ Hd),
      count_valid, Hd.
    repeat split; reflexivity.
Qed.

Lemma C9_no_valid_value_witness :
  exists r st,
    @analyze_group scipy_reference pandas_reference libm_reference
                   blank_comparison = Ok r /\
    lookup comparison_column (stats r) = Some st /\
    Mean st = NaN /\ Standard_Error st = NaN /\ Median st = NaN /\
    Standard_Deviation st = NaN /\ Sample_Variance st = NaN /\
    Kurtosis st = NaN /\ Skewness st = NaN /\ Range st = NaN /\
    Minimum st = NaN /\ Maximum st = NaN /\
    Sum st = Fin 0 /\ Count st = 0%Z.
Proof.
  apply (C9_no_valid_value scipy_reference pandas_reference libm_reference
           blank_comparison comparison_column [NaN; NaN; NaN]).
  - discriminate.
  - unfold word_sized. vm_compute. discriminate.
  - exists 1%nat. reflexivity.
  - exists 2%nat. reflexivity.
  - right. reflexivity.
  - reflexivity.
  - reflexivity.
Defined.

End AnalysisSpec.

(* ================================================================== *)
(** * Operands the doubles hold exactly *)
(* ================================================================== *)

Module Binary64Exact.
Import Binary64 Binary64Facts.

Lemma rne_int x k : x == inject_Z k -> rne x = k.
Proof.
  intros E.
  assert (Qfloor x = k) as F
    by (rewrite (Qfloor_comp x (inject_Z k) E); apply Qfloor_Z).
  assert (x - inject_Z k == 0) as Z by (rewrite E; ring).
  assert (Qcompare (x - inject_Z k) (1 # 2) = Lt) as C
    by (apply Qlt_alt; rewrite Z; reflexivity).
  unfold rne. cbv zeta. rewrite F, C. reflexivity.
Qed.

(** A positive number with at most 53 significant bits, not below the
    subnormal spacing, is its own rounding. *)
Lemma round_mag_exact q m e :
  q == inject_Z m * pow2 e ->
  (0 < m < 2 ^ 53)%Z -> (-1074 <= e)%Z ->
  round_mag q == q.
Proof.
  intros Eq Hm He.
  assert (1 <= inject_Z m) as M1
    by (change 1 with (inject_Z 1); rewrite <- Zle_Qle; lia).
  assert (inject_Z m < pow2 53) as M2.
  { assert (pow2 53 == inject_Z (2 ^ 53)) as P by (apply pow2_Z; lia).
    rewrite P, <- Zlt_Qlt. lia. }
  pose proof (pow2_pos e) as Pe.
  assert (0 < q) as Hq.
  { rewrite Eq. apply Qmult_lt_0_compat; lra. }
  assert (q < pow2 (53 + e)) as Uq.
  { rewrite Eq, pow2_add. apply Qmult_lt_compat_r; assumption. }
  destruct (ilog2_spec q Hq) as [L _].
  assert (pow2 (ilog2 q) < pow2 (53 + e)) as S by lra.
  apply pow2_lt_inv in S.
  unfold round_mag. set (ex := ulp_exp q).
  assert (ex <= e)%Z as Hex by (unfold ex, ulp_exp; lia).
  assert (q / pow2 ex == inject_Z (m * 2 ^ (e - ex))) as Ei.
  { rewrite inject_Z_mult, <- pow2_Z by lia. rewrite Eq.
    replace e with ((e - ex) + ex)%Z at 1 by ring. rewrite pow2_add.
    field. apply pow2_nonzero. }
  rewrite (rne_int _ _ Ei), <- Ei. field. apply pow2_nonzero.
Qed.

Lemma round64_exact q m e :
  q == inject_Z m * pow2 e ->
  (Z.abs m < 2 ^ 53)%Z -> (-1074 <= e)%Z -> (e + 53 <= 1024)%Z ->
  round64 q = Fin (Qred q).
Proof.
  intros Eq Hm He Ho.
  pose proof (pow2_pos e) as Pe.
  assert (pow2 53 == inject_Z (2 ^ 53)) as P53 by (apply pow2_Z; lia).
  assert (pow2 (53 + e) <= pow2 1024) as Top by (apply pow2_le; lia).
  destruct (Z.lt_trichotomy m 0) as [Neg | [Zero | Pos]].
  - assert (- q == inject_Z (- m) * pow2 e) as Eq'
      by (rewrite Eq, inject_Z_opp; ring).
    assert (0 < - m < 2 ^ 53)%Z as Hm' by lia.
    pose proof (round_mag_exact _ _ _ Eq' Hm' He) as R.
    assert (0 < inject_Z (- m)) as M0
      by (change 0 with (inject_Z 0); rewrite <- Zlt_Qlt; lia).
    assert (inject_Z (- m) < pow2 53) as M2
      by (rewrite P53, <- Zlt_Qlt; lia).
    assert (0 < - q) as Hq
      by (rewrite Eq'; apply Qmult_lt_0_compat; assumption).
    assert (- q < pow2 (53 + e)) as Uq
      by (rewrite Eq', pow2_add; apply Qmult_lt_compat_r; assumption).
    rewrite round64_neg by lra.
    destruct (Qle_bool _ _) eqn:E.
    + apply Qle_bool_iff in E. exfalso. lra.
    + f_equal. apply Qred_complete. rewrite R. ring.
  - subst m. rewrite (round64_zero q) by (rewrite Eq; ring).
    f_equal. symmetry. transitivity (Qred 0); [| reflexivity].
    apply Qred_complete. rewrite Eq. ring.
  - assert (0 < m < 2 ^ 53)%Z as Hm' by lia.
    pose proof (round_mag_exact _ _ _ Eq Hm' He) as R.
    assert (0 < inject_Z m) as M0
      by (change 0 with (inject_Z 0); rewrite <- Zlt_Qlt; lia).
    assert (inject_Z m < pow2 53) as M2
      by (rewrite P53, <- Zlt_Qlt; lia).
    assert (0 < q) as Hq
      by (rewrite Eq; apply Qmult_lt_0_compat; assumption).
    assert (q < pow2 (53 + e)) as Uq
      by (rewrite Eq, pow2_add; apply Qmult_lt_compat_r; assumption).
    rewrite round64_pos by exact Hq.
    destruct (Qle_bool _ _) eqn:E.
    + apply Qle_bool_iff in E. exfalso. lra.
    + f_equal. apply Qred_complete. exact R.
Qed.

(** An integer of magnitude below [2^53] converts without rounding. *)
Lemma round64_int z :
  (Z.abs z < 2 ^ 53)%Z -> round64 (inject_Z z) = Fin (Qred (inject_Z z)).
Proof.
  intros H. apply (round64_exact _ z 0); try lia.
  change (pow2 0) with 1. ring.
Qed.

Lemma Qtrunc_eq a z : a == inject_Z z -> Qtrunc a = z.
Proof.
  intros E. unfold Qtrunc.
  rewrite (Qfloor_comp a (inject_Z z) E), (Qceiling_comp a (inject_Z z) E).
  destruct (Qle_bool 0 a); [apply Qfloor_Z | apply Qceiling_Z].
Qed.

Lemma Qfloor_quarters m : Qfloor (inject_Z m * pow2 (-2)) = (m / 4)%Z.
Proof.
  rewrite (Zdiv_Qdiv m 4). apply Qfloor_comp.
  change (pow2 (-2)) with (/ inject_Z 4). reflexivity.
Qed.

End Binary64Exact.

(* ================================================================== *)
(** * More on the split: what lines 23 to 33 guarantee *)
(* ================================================================== *)

Module SplitExtras.
Import Binary64 Binary64Facts Binary64Exact Py PyFacts Libs Frame.
Import ListFacts FrameFacts Report CutoffFacts SplitFacts AnalysisFacts.
Import Reference Examples SplitSpec.

Lemma NoDup_app_disjoint {A : Type} (l1 l2 : list A) x :
  NoDup (l1 ++ l2) -> In x l1 -> ~ In x l2.
Proof.
  induction l1 as [| a l1 IH]; intros ND H1 H2; [destruct H1 |].
  simpl in ND. inversion ND as [| ? ? Na ND']; subst.
  destruct H1 as [-> | H1].
  - apply Na. apply in_or_app. right; exact H2.
  - exact (IH ND' H1 H2).
Qed.

Lemma StronglySorted_app_l {A : Type} (R : A -> A -> Prop) (l1 l2 : list A) :
  StronglySorted R (l1 ++ l2) -> StronglySorted R l1.
Proof.
  induction l1 as [| a l1 IH]; intros S; [constructor |].
  simpl in S. apply StronglySorted_inv in S. destruct S as [S F].
  constructor; [apply IH, S |].
  apply Forall_app in F. exact (proj1 F).
Qed.

Lemma StronglySorted_app_r {A : Type} (R : A -> A -> Prop) (l1 l2 : list A) :
  StronglySorted R (l1 ++ l2) -> StronglySorted R l2.
Proof.
  induction l1 as [| a l1 IH]; intros S; [exact S |].
  simpl in S. apply StronglySorted_inv in S. apply IH, (proj1 S).
Qed.

Lemma before_desc_refl x : before_desc x x.
Proof.
  unfold before_desc, fle. destruct x as [| [|] | q]; simpl; auto.
  right. split; [reflexivity |]. apply Qle_bool_iff, Qle_refl.
Qed.

(* ------------------------------------------------------------------ *)
(** ** The two groups partition the dataset *)

(** Every row of the dataset is in one of the two groups and no row is
    added: the rows of the upper group followed by those of the lower group
    are a rearrangement of the rows of the dataset.  When the index labels
    of the dataset are distinct, no label is in both groups. *)
Theorem split_partitions :
  forall (N : Numpy) (data : DataFrame) (p : pynum) (up lo : DataFrame),
    split data p = Ok (up, lo) ->
    columns up = columns data /\ columns lo = columns data /\
    Permutation (rows up ++ rows lo) (rows data) /\
    (NoDup (map label (rows data)) ->
     forall r, In r (rows up) -> ~ In (label r) (map label (rows lo))).
Proof.
  intros N data p up lo E.
  destruct (split_columns _ _ _ _ E) as [Cu Cl].
  destruct (split_inv _ _ _ _ E) as (sorted & cutoff & Hs & _ & Hu & Hl).
  assert (Permutation (rows up ++ rows lo) (rows data)) as P.
  { rewrite Hu, Hl, firstn_skipn. apply (sort_values_perm _ _ _ Hs). }
  repeat split; try assumption.
  intros ND r Hr.
  apply (NoDup_app_disjoint (map label (rows up))).
  - rewrite <- map_app. eapply Permutation_NoDup; [| exact ND].
    apply Permutation_map, Permutation_sym, P.
  - apply in_map, Hr.
Qed.

Lemma split_partitions_witness :
  exists up lo,
    @split numpy_stable ten_rows (PyInt 30) = Ok (up, lo) /\
    columns up = columns ten_rows /\ columns lo = columns ten_rows /\
    Permutation (rows up ++ rows lo) (rows ten_rows) /\
    (NoDup (map label (rows ten_rows)) ->
     forall r, In r (rows up) -> ~ In (label r) (map label (rows lo))).
Proof.
  do 2 eexists. split; [vm_compute; reflexivity |].
  apply (split_partitions numpy_stable ten_rows (PyInt 30)).
  vm_compute. reflexivity.
Defined.

(* ------------------------------------------------------------------ *)
(** ** Each group is in descending order, the best row first *)

(** Inside each group the ranks are in descending order, rows without a
    rank last, and the first row of the upper group has the greatest rank of
    the dataset: every row of the dataset either has no rank or a rank that
    is at most the rank of that row. *)
Theorem split_groups_descending :
  forall (N : Numpy) (data : DataFrame) (p : pynum) (up lo : DataFrame)
         (i : nat),
    split data p = Ok (up, lo) ->
    position rank_column (columns data) = Some i ->
    StronglySorted before_desc (map (cell i) (rows up)) /\
    StronglySorted before_desc (map (cell i) (rows lo)) /\
    (forall first rest, rows up = first :: rest ->
       forall r, In r (rows data) -> before_desc (cell i first) (cell i r)).
Proof.
  intros N data p up lo i E Hi.
  destruct (split_sorted _ _ _ _ _ E Hi) as (P & S).
  rewrite map_app in S. split; [| split].
  - exact (StronglySorted_app_l _ _ _ S).
  - exact (StronglySorted_app_r _ _ _ S).
  - intros first rest Hf r Hr.
    apply (Permutation_in _ (Permutation_sym P)) in Hr.
    rewrite Hf in *. simpl in S, Hr.
    apply StronglySorted_inv in S. destruct S as [_ F].
    destruct Hr as [<- | Hr]; [apply before_desc_refl |].
    rewrite Forall_forall in F. apply F.
    rewrite <- map_app. apply in_map, Hr.
Qed.

Lemma split_groups_descending_witness :
  exists up lo,
    @split numpy_stable unranked_row (PyInt 50) = Ok (up, lo) /\
    StronglySorted before_desc (map (cell 0) (rows up)) /\
    StronglySorted before_desc (map (cell 0) (rows lo)) /\
    (forall first rest, rows up = first :: rest ->
       forall r, In r (rows unranked_row) ->
                 before_desc (cell 0 first) (cell 0 r)).
Proof.
  do 2 eexists. split; [vm_compute; reflexivity |].
  apply (split_groups_descending numpy_stable unranked_row (PyInt 50) _ _ O).
  - vm_compute. reflexivity.
  - reflexivity.
Defined.

(* ------------------------------------------------------------------ *)
(** ** The sizes depend on the row count and the percentile only *)

(** Two datasets with the same number of rows are cut at the same place,
    whatever their ranks and whatever order the sort leaves equal ranks in:
    the cutoff never looks at the values, so rows of equal rank can fall on
    both sides of it. *)
Theorem split_sizes_ignore_values :
  forall (N1 N2 : Numpy) (data1 data2 : DataFrame) (p : pynum)
         (up1 lo1 up2 lo2 : DataFrame),
    len data1 = len data2 ->
    @split N1 data1 p = Ok (up1, lo1) ->
    @split N2 data2 p = Ok (up2, lo2) ->
    len up1 = len up2 /\ len lo1 = len lo2.
Proof.
  intros N1 N2 data1 data2 p up1 lo1 up2 lo2 L E1 E2.
  destruct (@split_lengths N1 _ _ _ _ E1) as (c1 & H1 & U1 & S1).
  destruct (@split_lengths N2 _ _ _ _ E2) as (c2 & H2 & U2 & S2).
  rewrite L in H1. rewrite H1 in H2. injection H2 as <-. lia.
Qed.

Lemma split_sizes_ignore_values_witness :
  exists up1 lo1 up2 lo2,
    @split numpy_stable tied_rows (PyInt 50) = Ok (up1, lo1) /\
    @split numpy_swapping unranked_row (PyInt 50) = Ok (up2, lo2) /\
    len up1 = len up2 /\ len lo1 = len lo2.
Proof.
  do 4 eexists.
  split; [vm_compute; reflexivity |]. split; [vm_compute; reflexivity |].
  apply (split_sizes_ignore_values numpy_stable numpy_swapping
           tied_rows unranked_row (PyInt 50)).
  - reflexivity.
  - vm_compute. reflexivity.
  - vm_compute. reflexivity.
Defined.

End SplitExtras.

(* ================================================================== *)
(** * More on the cutoff: what lines 26 and 29 compute *)
(* ================================================================== *)

Module CutoffExtras.
Import Binary64 Binary64Facts Binary64Exact Py PyFacts Libs Frame.
Import ListFacts FrameFacts Report CutoffFacts SplitFacts AnalysisFacts.
Import Reference Examples SplitSpec.

Lemma float_of_int_exact z :
  (Z.abs z < 2 ^ 53)%Z -> float_of_int z = Ok (Fin (Qred (inject_Z z))).
Proof. intros H. unfold float_of_int. rewrite (round64_int _ H). reflexivity. Qed.

(** The cutoff at a whole number of quarters, [percentile = 25 * k]: the
    quotient and the product are exact. *)
Lemma cutoff_idx_quarters n k :
  (Z.of_nat n < 2 ^ 50)%Z -> (0 <= k <= 4)%Z ->
  cutoff_idx n (PyInt (25 * k))
  = Ok (Z.max 1 (Z.min (Z.of_nat n * k / 4) (Z.of_nat n - 1))).
Proof.
  intros Hn Hk. set (n' := Z.of_nat n) in *.
  assert (0 <= n')%Z as N0 by (unfold n'; lia).
  assert (truediv (PyInt (25 * k)) 100 = Ok (Fin (Qred (k # 4)))) as T.
  { assert (k = 0 \/ k = 1 \/ k = 2 \/ k = 3 \/ k = 4)%Z as C by lia.
    destruct C as [-> | [-> | [-> | [-> | ->]]]].
    all: try reflexivity. }
  unfold cutoff_idx. rewrite T. cbn [bind]. unfold mul_int_float.
  rewrite float_of_int_exact by lia. cbn [bind]. fold n'.
  change (fmul (Fin (Qred (inject_Z n'))) (Fin (Qred (k # 4))))
    with (round64 (Qred (inject_Z n') * Qred (k # 4))).
  assert (Qred (inject_Z n') * Qred (k # 4)
          == inject_Z (n' * k) * pow2 (-2)) as E.
  { rewrite !Qred_correct, inject_Z_mult. change (pow2 (-2)) with (1 # 4).
    rewrite (Qmake_Qdiv k 4). field. }
  rewrite (round64_exact _ _ _ E) by nia.
  cbn [int_of_float bind]. f_equal. f_equal. f_equal.
  rewrite Qtrunc_nonneg.
  - rewrite (Qfloor_comp _ _ (Qred_correct _)), (Qfloor_comp _ _ E).
    apply Qfloor_quarters.
  - rewrite Qred_correct, E.
    apply Qmult_le_0_compat; [| discriminate].
    change 0 with (inject_Z 0). rewrite <- Zle_Qle. nia.
Qed.

Section WithNumpy.
Context `{Numpy}.

(** A split whose cutoff is known. *)
Lemma split_with_cutoff data p c :
  has_column rank_column data ->
  cutoff_idx (len data) p = Ok c ->
  (1 <= c <= Z.of_nat (len data) - 1)%Z ->
  exists up lo,
    split data p = Ok (up, lo) /\
    Z.of_nat (len up) = c /\ Z.of_nat (len lo) = (Z.of_nat (len data) - c)%Z.
Proof.
  intros Hc Ec B.
  destruct (split_total _ _ _ Hc Ec) as (up & lo & E).
  exists up, lo. split; [exact E |].
  destruct (split_lengths _ _ _ _ E) as (c' & Ec' & Lu & Ls).
  rewrite Ec in Ec'. injection Ec' as <-. lia.
Qed.

End WithNumpy.

(* ------------------------------------------------------------------ *)
(** ** At and beyond the ends of the range *)

(** At every finite percentile that is zero or negative the upper group is
    one row, the one with the greatest rank, and the lower group has all the
    others. *)
Theorem split_at_or_below_zero :
  forall (N : Numpy) (data : DataFrame) (p : pynum),
    has_column rank_column data ->
    (2 <= len data)%nat ->
    word_sized data ->
    finite_percentile p ->
    py_le p (PyInt 0) ->
    exists up lo,
      split data p = Ok (up, lo) /\
      len up = 1%nat /\ len lo = (len data - 1)%nat.
Proof.
  intros N data p Hc Hn Hw (v & Hv & Hb) Hle.
  destruct (cutoff_idx_total _ _ _ Hv Hb Hw) as (c & Ec).
  destruct (cutoff_idx_total (len data) (PyInt 0) 0 eq_refl
              ltac:(apply Qlt_le_weak, pow2_pos) Hw) as (c0 & E0).
  assert (c0 = 1%Z) as ->.
  { destruct (cutoff_idx_inv _ _ _ E0) as (n & a & _ & _ & M & ->).
    change (fdiv (value (PyInt 0)) (Fin 100)) with (Fin 0) in M.
    change (fmul (Fin n) (Fin 0)) with (round64 (n * 0)) in M.
    rewrite (round64_zero (n * 0)) in M by ring.
    apply Fin_inj in M. subst a. change (Qtrunc 0) with 0%Z. lia. }
  pose proof (cutoff_idx_mono _ _ _ _ _ Hle Ec E0) as Up.
  pose proof (cutoff_idx_ge_1 _ _ _ Ec) as Lo.
  assert (c = 1%Z) as -> by lia.
  destruct (split_with_cutoff data p 1 Hc Ec ltac:(lia))
    as (up & lo & E & Lu & Ll).
  exists up, lo. split; [exact E |]. lia.
Qed.

Lemma split_at_or_below_zero_witness :
  exists up lo,
    @split numpy_stable ten_rows (PyFloat (Fin (- 7 # 2))) = Ok (up, lo) /\
    len up = 1%nat /\ len lo = (len ten_rows - 1)%nat.
Proof.
  apply (split_at_or_below_zero numpy_stable ten_rows
           (PyFloat (Fin (- 7 # 2)))).
  - exists O. reflexivity.
  - vm_compute. lia.
  - unfold word_sized. vm_compute. discriminate.
  - exists (- 7 # 2). split; [reflexivity |].
    apply Qle_bool_iff. vm_compute. reflexivity.
  - vm_compute. reflexivity.
Defined.

(** At every finite percentile that is one hundred or more the lower group
    is one row, the one sorted last, and the upper group has all the
    others. *)
Theorem split_at_or_above_hundred :
  forall (N : Numpy) (data : DataFrame) (p : pynum),
    has_column rank_column data ->
    (2 <= len data)%nat ->
    (Z.of_nat (len data) < 2 ^ 50)%Z ->
    finite_percentile p ->
    py_le (PyInt 100) p ->
    exists up lo,
      split data p = Ok (up, lo) /\
      len up = (len data - 1)%nat /\ len lo = 1%nat.
Proof.
  intros N data p Hc Hn Hw (v & Hv & Hb) Hle.
  assert (word_sized data) as Hw' by (unfold word_sized; lia).
  destruct (cutoff_idx_total _ _ _ Hv Hb Hw') as (c & Ec).
  pose proof (cutoff_idx_quarters (len data) 4 Hw ltac:(lia)) as E100.
  change (25 * 4)%Z with 100%Z in E100.
  pose proof (cutoff_idx_mono _ _ _ _ _ Hle E100 Ec) as Lo.
  pose proof (cutoff_idx_range _ _ _ Hn Ec) as R.
  assert (Z.of_nat (len data) * 4 / 4 = Z.of_nat (len data))%Z as D
    by (apply Z.div_mul; lia).
  rewrite D in Lo.
  destruct (split_with_cutoff data p c Hc Ec R) as (up & lo & E & Lu & Ll).
  exists up, lo. split; [exact E |]. lia.
Qed.

Lemma split_at_or_above_hundred_witness :
  exists up lo,
    @split numpy_stable ten_rows (PyInt 250) = Ok (up, lo) /\
    len up = (len ten_rows - 1)%nat /\ len lo = 1%nat.
Proof.
  apply (split_at_or_above_hundred numpy_stable ten_rows (PyInt 250)).
  - exists O. reflexivity.
  - vm_compute. lia.
  - vm_compute. reflexivity.
  - apply finite_percentile_int. vm_compute. discriminate.
  - vm_compute. reflexivity.
Defined.

(* ------------------------------------------------------------------ *)
(** ** The quartiles *)

(** At the percentiles 25, 50 and 75 no rounding occurs: the upper group
    has exactly [floor(len(dataset) * percentile / 100)] rows, and one row
    where that is zero. *)
Theorem split_at_quartiles :
  forall (N : Numpy) (data : DataFrame) (z : Z),
    has_column rank_column data ->
    (2 <= len data)%nat ->
    (Z.of_nat (len data) < 2 ^ 50)%Z ->
    z = 25%Z \/ z = 50%Z \/ z = 75%Z ->
    exists up lo,
      split data (PyInt z) = Ok (up, lo) /\
      Z.of_nat (len up) = Z.max 1 (Z.of_nat (len data) * z / 100) /\
      (len up + len lo = len data)%nat.
Proof.
  intros N data z Hc Hn Hw Hz.
  assert (exists k, z = 25 * k /\ 1 <= k <= 3)%Z as (k & -> & Hk).
  { destruct Hz as [-> | [-> | ->]];
      [exists 1%Z | exists 2%Z | exists 3%Z]; lia. }
  pose proof (cutoff_idx_quarters (len data) k Hw ltac:(lia)) as Ec.
  set (n := Z.of_nat (len data)) in *.
  assert (2 <= n)%Z as Hn' by (unfold n; lia).
  assert (n * (25 * k) / 100 = n * k / 4)%Z as D.
  { replace (n * (25 * k))%Z with (25 * (n * k))%Z by ring.
    change 100%Z with (25 * 4)%Z. apply Z.div_mul_cancel_l; lia. }
  assert (0 <= n * k / 4 <= n - 1)%Z as B.
  { split; [apply Z.div_pos; nia |].
    assert (n * k / 4 < n)%Z; [| lia].
    apply Z.div_lt_upper_bound; nia. }
  destruct (split_with_cutoff data (PyInt (25 * k)) _ Hc Ec ltac:(lia))
    as (up & lo & E & Lu & Ll).
  exists up, lo. split; [exact E |]. fold n in Ll. rewrite D. lia.
Qed.

Lemma split_at_quartiles_witness :
  exists up lo,
    @split numpy_stable ten_rows (PyInt 75) = Ok (up, lo) /\
    Z.of_nat (len up) = Z.max 1 (Z.of_nat (len ten_rows) * 75 / 100) /\
    (len up + len lo = len ten_rows)%nat.
Proof.
  apply (split_at_quartiles numpy_stable ten_rows 75).
  - exists O. reflexivity.
  - vm_compute. lia.
  - vm_compute. reflexivity.
  - right; right; reflexivity.
Defined.

(* ------------------------------------------------------------------ *)
(** ** [int] or [float] *)

Lemma truediv_100_value p d :
  fdiv (value p) (Fin 100) = d -> is_finite d = true ->
  truediv p 100 = Ok d.
Proof.
  intros E F. destruct p as [z | f]; cbn [value] in E.
  - change (fdiv (Fin (inject_Z z)) (Fin 100))
      with (round64 (inject_Z z / inject_Z 100)) in E.
    unfold truediv, int_truediv. change (100 =? 0)%Z with false. cbv iota.
    rewrite E. destruct d; try discriminate; reflexivity.
  - unfold truediv. rewrite float_of_int_100. cbn [bind].
    unfold float_truediv. change (Qeq_bool 100 0) with false. cbv iota.
    rewrite E. reflexivity.
Qed.

(** The split depends on the number the percentile denotes and not on its
    type: the [int] 50 and the [float] 50.0 give the same groups. *)
Theorem split_same_value :
  forall (N : Numpy) (data : DataFrame) (p1 p2 : pynum) (up lo : DataFrame),
    value p1 = value p2 ->
    split data p1 = Ok (up, lo) ->
    split data p2 = Ok (up, lo).
Proof.
  intros N data p1 p2 up lo V E. unfold split in *.
  destruct (sort_values data rank_column) as [sorted | e]; [| discriminate].
  cbn [bind] in *.
  destruct (cutoff_idx (len sorted) p1) as [c |] eqn:Ec; [| discriminate].
  destruct (cutoff_idx_inv _ _ _ Ec) as (n & a & Hn & _ & M & Hcut).
  assert (cutoff_idx (len sorted) p2 = Ok c) as Ec2.
  { rewrite V in M.
    destruct (fdiv (value p2) (Fin 100)) as [| s | d] eqn:Ed.
    - discriminate.
    - simpl in M. destruct (Qeq_bool n 0); discriminate.
    - unfold cutoff_idx. rewrite (truediv_100_value p2 _ Ed eq_refl).
      cbn [bind]. unfold mul_int_float. rewrite Hn. cbn [bind].
      rewrite M. cbn [int_of_float bind]. rewrite Hcut. reflexivity. }
  rewrite Ec2. exact E.
Qed.

Lemma split_same_value_witness :
  exists up lo,
    @split numpy_stable ten_rows (PyInt 35) = Ok (up, lo) /\
    @split numpy_stable ten_rows (PyFloat (Fin 35)) = Ok (up, lo).
Proof.
  do 2 eexists. split; [vm_compute; reflexivity |].
  apply (split_same_value numpy_stable ten_rows (PyInt 35)).
  - reflexivity.
  - vm_compute. reflexivity.
Defined.

End CutoffExtras.

(* ================================================================== *)
(** * More on [analyze_split]: its result and its errors *)
(* ================================================================== *)

Module AnalysisExtras.
Import Binary64 Binary64Facts Binary64Exact Py PyFacts Libs Frame.
Import ListFacts FrameFacts Report CutoffFacts SplitFacts AnalysisFacts.
Import Reference ReferenceStats ReferenceFacts Examples SplitSpec AnalysisSpec.

Lemma Permutation_filter_length {A : Type} (f : A -> bool) (l l' : list A) :
  Permutation l l' -> length (filter f l) = length (filter f l').
Proof.
  induction 1 as [| x l l' P IH | x y l | l l' l'' P1 IH1 P2 IH2]; simpl.
  - reflexivity.
  - destruct (f x); simpl; congruence.
  - destruct (f x), (f y); reflexivity.
  - congruence.
Qed.

Lemma getitem_position group year series :
  getitem group year = Ok series ->
  exists j, position year (columns group) = Some j /\
            series = map (cell j) (rows group).
Proof.
  unfold getitem. destruct (position year (columns group)) as [j |];
    intros E; [| discriminate].
  injection E as <-. exists j. split; reflexivity.
Qed.

Section WithLibs.
Context `{Scipy} `{Pandas} `{Libm}.

Lemma describe_count series st : describe series = Ok st -> Count st = count series.
Proof.
  unfold describe. intros E.
  apply bind_Ok in E. destruct E as (size & _ & E).
  apply bind_Ok in E. destruct E as (se & _ & E).
  injection E as <-. reflexivity.
Qed.

(** On a group with at least one row and the two columns nothing is
    raised. *)
Lemma analyze_group_returns group :
  rows group <> [] -> word_sized group ->
  has_column reference_column group -> has_column comparison_column group ->
  exists r, analyze_group group = Ok r /\ data r = group.
Proof.
  intros Hne Hw (i & Hi) (j & Hj).
  assert (1 <= len group)%nat as L1.
  { unfold len. destruct (rows group); [congruence | simpl; lia]. }
  assert (getitem group reference_column = Ok (map (cell i) (rows group)))
    as Gr by (unfold getitem; rewrite Hi; reflexivity).
  assert (getitem group comparison_column = Ok (map (cell j) (rows group)))
    as Gc by (unfold getitem; rewrite Hj; reflexivity).
  destruct (describe_ok (map (cell i) (rows group))) as (root_r & Dr);
    [rewrite length_map; exact L1 | rewrite length_map; exact Hw |].
  destruct (describe_ok (map (cell j) (rows group))) as (root_c & Dc);
    [rewrite length_map; exact L1 | rewrite length_map; exact Hw |].
  unfold analyze_group.
  repeat (first [rewrite Gc | rewrite Gr | rewrite Dr | rewrite Dc];
          cbn [bind]).
  eexists. split; reflexivity.
Qed.

Context `{Numpy}.

Lemma analyze_split_inv data p res :
  analyze_split data p = Ok res ->
  exists up lo r1 r2,
    split data p = Ok (up, lo) /\
    analyze_group up = Ok r1 /\ analyze_group lo = Ok r2 /\
    res = [(Top p, r1); (Bottom (rsub_int 100 p), r2)].
Proof.
  unfold analyze_split. intros E.
  apply bind_Ok in E. destruct E as ([up lo] & Hs & E). cbn [fst snd] in E.
  apply bind_Ok in E. destruct E as (r1 & G1 & E).
  apply bind_Ok in E. destruct E as (r2 & G2 & E).
  injection E as <-. exists up, lo, r1, r2. repeat split; assumption.
Qed.

Lemma analyze_split_raises data p e :
  split data p = Raise e -> analyze_split data p = Raise e.
Proof. intros E. unfold analyze_split. rewrite E. reflexivity. Qed.

End WithLibs.

(* ------------------------------------------------------------------ *)
(** ** A well-formed request is answered *)

(** For a dataset with the three columns and at least two rows, and a finite
    percentile, [analyze_split] raises nothing: it returns two entries, named
    [Top p] and [Bottom (100 - p)] in that order, whose [data] are the upper
    and the lower group of the split. *)
Theorem analyze_split_returns :
  forall (N : Numpy) (S : Scipy) (P : Pandas) (L : Libm)
         (data : DataFrame) (p : pynum),
    (forall c, In c required_columns -> has_column c data) ->
    (2 <= len data)%nat ->
    word_sized data ->
    finite_percentile p ->
    exists up lo r1 r2,
      split data p = Ok (up, lo) /\
      analyze_split data p
      = Ok [(Top p, r1); (Bottom (rsub_int 100 p), r2)] /\
      Report.data r1 = up /\ Report.data r2 = lo.
Proof.
  intros N S P L data p Hc Hn Hw Hp.
  destruct (@split_sizes_total N data p) as (up & lo & E & Ls & Lu & Ll).
  all: try assumption.
  { apply Hc. left; reflexivity. }
  destruct (split_columns _ _ _ _ E) as [Cu Cl].
  assert (forall g, columns g = columns data -> (1 <= len g)%nat ->
                    (len g <= len data)%nat ->
                    exists r, analyze_group g = Ok r /\ Report.data r = g) as G.
  { intros g Cg L1 L2. apply analyze_group_returns.
    - unfold len in L1. destruct (rows g); [simpl in L1; lia | discriminate].
    - unfold word_sized in *. lia.
    - destruct (Hc reference_column) as (i & Hi);
        [right; left; reflexivity |]. exists i. rewrite Cg. exact Hi.
    - destruct (Hc comparison_column) as (i & Hi);
        [right; right; left; reflexivity |]. exists i. rewrite Cg. exact Hi. }
  destruct (G up Cu Lu ltac:(lia)) as (r1 & E1 & D1).
  destruct (G lo Cl Ll ltac:(lia)) as (r2 & E2 & D2).
  exists up, lo, r1, r2. split; [exact E |]. split; [| split; assumption].
  unfold analyze_split. rewrite E. cbn [bind fst snd]. rewrite E1.
  cbn [bind]. rewrite E2. reflexivity.
Qed.

Lemma analyze_split_returns_witness :
  exists up lo r1 r2,
    @split numpy_stable ten_rows (PyInt 30) = Ok (up, lo) /\
    @analyze_split numpy_stable scipy_reference pandas_reference
                   libm_reference ten_rows (PyInt 30)
    = Ok [(Top (PyInt 30), r1); (Bottom (rsub_int 100 (PyInt 30)), r2)] /\
    Report.data r1 = up /\ Report.data r2 = lo.
Proof.
  apply (analyze_split_returns numpy_stable scipy_reference pandas_reference
                               libm_reference ten_rows (PyInt 30)).
  - intros c [<- | [<- | [<- | []]]];
      [exists 0%nat | exists 1%nat | exists 2%nat]; reflexivity.
  - vm_compute. lia.
  - unfold word_sized. vm_compute. discriminate.
  - apply finite_percentile_int. vm_compute. discriminate.
Defined.

(* ------------------------------------------------------------------ *)
(** ** The counts of the two groups add up *)

(** For each of the two measured columns, the [Count] entries of the two
    groups add up to the number of valid values of that column in the
    dataset: no value is counted twice and none is lost by the split. *)
Theorem counts_add_up :
  forall (N : Numpy) (S : Scipy) (P : Pandas) (L : Libm)
         (data : DataFrame) (p : pynum)
         (res : list (group_name * GroupResult)) (year : string),
    analyze_split data p = Ok res ->
    year = reference_column \/ year = comparison_column ->
    exists name1 r1 name2 r2 s1 s2 series,
      res = [(name1, r1); (name2, r2)] /\
      lookup year (stats r1) = Some s1 /\
      lookup year (stats r2) = Some s2 /\
      getitem data year = Ok series /\
      (Count s1 + Count s2)%Z = Z.of_nat (length (dropna series)).
Proof.
  intros N S P L data p res year E Hy.
  destruct (analyze_split_inv _ _ _ E) as (up & lo & r1 & r2 & Es & E1 & E2 & ->).
  destruct (split_columns _ _ _ _ Es) as [Cu Cl].
  destruct (split_inv _ _ _ _ Es) as (sorted & cutoff & Hs & _ & Hu & Hl).
  assert (Permutation (rows up ++ rows lo) (rows data)) as Pm.
  { rewrite Hu, Hl, firstn_skipn. apply (sort_values_perm _ _ _ Hs). }
  destruct (analyze_group_inv _ _ E1)
    as (c1 & f1 & a1 & b1 & Gc1 & Gr1 & Da1 & Db1 & ->).
  destruct (analyze_group_inv _ _ E2)
    as (c2 & f2 & a2 & b2 & Gc2 & Gr2 & Da2 & Db2 & ->).
  assert (forall g j, columns g = columns data -> position year (columns g) = Some j ->
                      getitem data year = Ok (map (cell j) (rows data))) as Gd.
  { intros g j Cg Hj. unfold getitem. rewrite <- Cg, Hj. reflexivity. }
  assert (forall j, length (dropna (map (cell j) (rows up)))
                    + length (dropna (map (cell j) (rows lo)))
                    = length (dropna (map (cell j) (rows data))))%nat as Add.
  { intros j. unfold dropna. rewrite <- length_app, <- filter_app, <- map_app.
    apply Permutation_filter_length, Permutation_map, Pm. }
  destruct Hy as [-> | ->].
  - destruct (getitem_position _ _ _ Gr1) as (j & Hj & ->).
    destruct (getitem_position _ _ _ Gr2) as (j' & Hj' & ->).
    rewrite Cl, <- Cu, Hj in Hj'. injection Hj' as <-.
    do 4 eexists. exists a1, a2, (map (cell j) (rows data)).
    split; [reflexivity |]. split; [reflexivity |]. split; [reflexivity |].
    split; [exact (Gd up j Cu Hj) |].
    rewrite (describe_count _ _ Da1), (describe_count _ _ Da2), !count_valid.
    rewrite <- Nat2Z.inj_add. f_equal. apply Add.
  - destruct (getitem_position _ _ _ Gc1) as (j & Hj & ->).
    destruct (getitem_position _ _ _ Gc2) as (j' & Hj' & ->).
    rewrite Cl, <- Cu, Hj in Hj'. injection Hj' as <-.
    do 4 eexists. exists b1, b2, (map (cell j) (rows data)).
    split; [reflexivity |]. split; [reflexivity |]. split; [reflexivity |].
    split; [exact (Gd up j Cu Hj) |].
    rewrite (describe_count _ _ Db1), (describe_count _ _ Db2), !count_valid.
    rewrite <- Nat2Z.inj_add. f_equal. apply Add.
Qed.

Lemma counts_add_up_witness :
  exists res,
    @analyze_split numpy_stable scipy_reference pandas_reference
                   libm_reference blank_comparison (PyInt 50) = Ok res /\
    exists name1 r1 name2 r2 s1 s2 series,
      res = [(name1, r1); (name2, r2)] /\
      lookup reference_column (stats r1) = Some s1 /\
      lookup reference_column (stats r2) = Some s2 /\
      getitem blank_comparison reference_column = Ok series /\
      (Count s1 + Count s2)%Z = Z.of_nat (length (dropna series)).
Proof.
  eexists. split; [vm_compute; reflexivity |].
  apply (counts_add_up numpy_stable scipy_reference pandas_reference
           libm_reference blank_comparison (PyInt 50) _ reference_column).
  - vm_compute. reflexivity.
  - left. reflexivity.
Defined.

(* ------------------------------------------------------------------ *)
(** ** The divisor of the standard error *)

Lemma length_valid_missing (series : list float64) :
  (length (dropna series) + length (filter is_nan series))%nat
  = length series.
Proof.
  unfold dropna. rewrite <- length_app.
  apply Permutation_length, filter_partition_perm.
Qed.

(** For every Series the reported standard error is the standard deviation
    over the square root of the count plus the number of missing values;
    on a column without missing values that is the square root of the
    count. *)
Theorem standard_error_divisor :
  forall (P : Pandas) (L : Libm) (series : list float64) (st : Stats),
    describe series = Ok st ->
    exists size,
      float_of_int (Count st + Z.of_nat (length (filter is_nan series)))
      = Ok size /\
      Standard_Error st = fdiv (Standard_Deviation st) (pow_half size) /\
      (Forall (fun x => is_nan x = false) series ->
       float_of_int (Count st) = Ok size).
Proof.
  intros P L series st E.
  destruct (describe_standard_error _ _ E) as (size & Hs & _ & Hse).
  pose proof (describe_count _ _ E) as Hc. rewrite count_valid in Hc.
  pose proof (length_valid_missing series) as Hl.
  assert (Count st + Z.of_nat (length (filter is_nan series))
          = Z.of_nat (length series))%Z as El by (rewrite Hc; lia).
  exists size. rewrite El. split; [exact Hs |]. split; [exact Hse |].
  intros F.
  assert (filter is_nan series = []) as Em.
  { clear - F. induction F as [| x l Hx F IH]; [reflexivity |].
    simpl. rewrite Hx. exact IH. }
  rewrite Em in El. simpl in El. rewrite Z.add_0_r in El.
  rewrite El. exact Hs.
Qed.

Lemma standard_error_divisor_witness :
  exists st size,
    @describe pandas_reference libm_reference sparse_series = Ok st /\
    float_of_int (Count st + Z.of_nat (length (filter is_nan sparse_series)))
    = Ok size /\
    Standard_Error st
    = fdiv (Standard_Deviation st) (@pow_half libm_reference size) /\
    (Forall (fun x => is_nan x = false) sparse_series ->
     float_of_int (Count st) = Ok size).
Proof.
  eexists.
  destruct (standard_error_divisor pandas_reference libm_reference
              sparse_series _ eq_refl) as (size & W).
  exists size. split; [reflexivity | exact W].
Defined.

(* ------------------------------------------------------------------ *)
(** ** The errors of a request *)

Lemma float_of_word n :
  (Z.of_nat n <= 2 ^ 63)%Z ->
  exists x, float_of_int (Z.of_nat n) = Ok (Fin x) /\
            ((1 <= n)%nat -> 1 <= x).
Proof.
  intros Hw. destruct n as [| n].
  - exists 0. split; [reflexivity | lia].
  - destruct (float_of_len (S n) ltac:(lia) Hw) as (x & Hx & L & _).
    exists x. split; [exact Hx | intros _; exact L].
Qed.

(** A percentile that is not a finite number is refused after the sort:
    NaN with ValueError, and an infinity with OverflowError on a dataset that
    has a row.  Nothing is returned. *)
Theorem analyze_split_percentile_errors :
  forall (N : Numpy) (S : Scipy) (P : Pandas) (L : Libm) (data : DataFrame),
    has_column rank_column data ->
    word_sized data ->
    analyze_split data (PyFloat NaN) = Raise ValueError /\
    ((1 <= len data)%nat ->
     forall s, analyze_split data (PyFloat (Inf s)) = Raise OverflowError).
Proof.
  intros N S P L data (i & Hi) Hw.
  destruct (float_of_word _ Hw) as (x & Hx & Lx).
  assert (forall p e, cutoff_idx (len data) p = Raise e ->
                      analyze_split data p = Raise e) as K.
  { intros p e Ec. apply analyze_split_raises. unfold split.
    destruct (sort_values data rank_column) as [sorted | e'] eqn:Hs.
    - cbn [bind]. rewrite (sort_values_len _ _ _ Hs), Ec. reflexivity.
    - unfold sort_values, getitem in Hs. rewrite Hi in Hs. discriminate. }
  split.
  - apply K. unfold cutoff_idx, truediv. rewrite float_of_int_100.
    cbn [bind float_truediv]. change (Qeq_bool 100 0) with false. cbv iota.
    cbn [bind]. unfold mul_int_float. rewrite Hx. reflexivity.
  - intros L1 s. apply K. unfold cutoff_idx, truediv.
    rewrite float_of_int_100.
    cbn [bind float_truediv]. change (Qeq_bool 100 0) with false. cbv iota.
    cbn [bind]. unfold mul_int_float. rewrite Hx. cbn [bind].
    assert (Qeq_bool x 0 = false) as Z.
    { destruct (Qeq_bool x 0) eqn:E; [| reflexivity].
      apply Qeq_bool_iff in E. specialize (Lx L1). lra. }
    destruct s; simpl; rewrite Z; reflexivity.
Qed.

Lemma analyze_split_percentile_errors_witness :
  @analyze_split numpy_stable scipy_reference pandas_reference
                 libm_reference ten_rows (PyFloat NaN) = Raise ValueError /\
  ((1 <= len ten_rows)%nat ->
   forall s, @analyze_split numpy_stable scipy_reference pandas_reference
               libm_reference ten_rows (PyFloat (Inf s))
             = Raise OverflowError).
Proof.
  apply (analyze_split_percentile_errors numpy_stable scipy_reference
           pandas_reference libm_reference ten_rows).
  - exists O. reflexivity.
  - unfold word_sized. vm_compute. discriminate.
Defined.

(** Which error a missing column gives: without the rank column the
    KeyError names ['2021_GDP'], whatever the percentile, even one that is
    not a number; with it and a finite percentile, the KeyError names
    ['2021_HE'] when that column is missing, also when ['2019_HE'] is
    missing too, and ['2019_HE'] when only that one is missing. *)
Theorem analyze_split_first_missing_column :
  forall (N : Numpy) (S : Scipy) (P : Pandas) (L : Libm) (data : DataFrame),
    (position rank_column (columns data) = None ->
     forall p, analyze_split data p = Raise (KeyError rank_column)) /\
    (has_column rank_column data -> word_sized data ->
     forall p, finite_percentile p ->
       (position comparison_column (columns data) = None ->
        analyze_split data p = Raise (KeyError comparison_column)) /\
       (has_column comparison_column data ->
        position reference_column (columns data) = None ->
        analyze_split data p = Raise (KeyError reference_column))).
Proof.
  intros N S P L data. split.
  - intros Er p. apply analyze_split_raises, split_missing_rank, Er.
  - intros Hr Hw p (v & Hv & Hb).
    destruct (cutoff_idx_total _ _ _ Hv Hb Hw) as (k & Ek).
    destruct (split_total data p k Hr Ek) as (up & lo & E).
    destruct (split_columns _ _ _ _ E) as [Cu _].
    split.
    + intros Ec. unfold analyze_split. rewrite E. cbn [bind fst snd].
      unfold analyze_group, getitem. rewrite Cu, Ec. reflexivity.
    + intros (j & Ec) En. unfold analyze_split. rewrite E.
      cbn [bind fst snd].
      unfold analyze_group, getitem. rewrite Cu, Ec, En. reflexivity.
Qed.

Lemma analyze_split_first_missing_column_witness :
  @analyze_split numpy_stable scipy_reference pandas_reference
                 libm_reference no_comparison (PyInt 50)
  = Raise (KeyError comparison_column).
Proof.
  destruct (analyze_split_first_missing_column numpy_stable scipy_reference
              pandas_reference libm_reference no_comparison) as [_ W].
  apply (W (ex_intro _ O eq_refl)).
  - unfold word_sized. vm_compute. discriminate.
  - apply finite_percentile_int. vm_compute. discriminate.
  - reflexivity.
Defined.

End AnalysisExtras.

(* ================================================================== *)
(** * More on the significance flag: columns without missing values *)
(* ================================================================== *)

Module RoundingExtras.
Import Binary64 Binary64Facts Py PyFacts Libs Frame Report AnalysisFacts.
Import Reference ReferenceStats ReferenceFacts FloatStats FloatStatsFacts.
Import Examples SplitSpec AnalysisSpec AnalysisExtras.

Lemma uniformly_below_pointwise a b :
  length a = length b ->
  Forall (fun x => is_nan x = false) a ->
  Forall (fun x => is_nan x = false) b ->
  uniformly_below a b -> Forall2 fle a b.
Proof.
  revert b. induction a as [| x a IH]; intros [| y b] E Na Nb U;
    try discriminate; constructor.
  - apply flt_fle. apply U; try (left; reflexivity).
    + inversion Na; assumption.
    + inversion Nb; assumption.
  - apply IH.
    + simpl in E. lia.
    + inversion Na; assumption.
    + inversion Nb; assumption.
    + intros u v Iu Iv. apply U; right; assumption.
Qed.

(** With scipy's test computed in binary64 as in [FloatStats]: in a group
    where, row by row, the [2021_HE] value is at most the [2019_HE] value,
    none of them missing, the flag is false, whatever the p-value; so it is
    in a group without missing values in the two columns where every
    [2021_HE] value is below every [2019_HE] value.  The two means are sums
    of as many values added in the same order, and rounding keeps the order
    of two numbers. *)
Theorem complete_columns_not_flagged :
  forall (P : Pandas) (L : Libm) (group : DataFrame) (r : GroupResult)
         (comparison reference : list float64),
    @analyze_group scipy_binary64 P L group = Ok r ->
    getitem group comparison_column = Ok comparison ->
    getitem group reference_column = Ok reference ->
    (Forall2 fle comparison reference -> significant r = false) /\
    (Forall (fun x => is_nan x = false) comparison ->
     Forall (fun x => is_nan x = false) reference ->
     uniformly_below comparison reference ->
     significant r = false).
Proof.
  intros P L group r comparison reference E Gc Gr.
  destruct (@analyze_group_inv scipy_binary64 P L _ _ E)
    as (c' & r' & s19 & s21 & Hc & Hr & _ & _ & ->).
  rewrite Gc in Hc. injection Hc as <-.
  rewrite Gr in Hr. injection Hr as <-.
  cbn [significant].
  assert (Forall2 fle comparison reference ->
          fltb (fdiv (pvalue (@ttest_ind scipy_binary64 comparison reference))
                     (Fin 2)) alpha
          && fltb (Fin 0)
                  (statistic (@ttest_ind scipy_binary64 comparison reference))
          = false) as K.
  { intros H. cbn [ttest_ind scipy_binary64].
    rewrite (binary64_statistic_not_positive _ _ H). apply andb_false_r. }
  split; [exact K |].
  intros Na Nb U. apply K. apply uniformly_below_pointwise; try assumption.
  destruct (getitem_position _ _ _ Gc) as (j & _ & ->).
  destruct (getitem_position _ _ _ Gr) as (i & _ & ->).
  rewrite !length_map. reflexivity.
Qed.

Lemma complete_columns_not_flagged_witness :
  exists r comparison reference,
    @analyze_group scipy_binary64 pandas_reference libm_reference
                   lower_comparison = Ok r /\
    getitem lower_comparison comparison_column = Ok comparison /\
    getitem lower_comparison reference_column = Ok reference /\
    Forall2 fle comparison reference /\
    significant r = false.
Proof.
  do 3 eexists. split; [vm_compute; reflexivity |].
  split; [reflexivity |]. split; [reflexivity |].
  split; [repeat constructor |].
  refine (proj1 (complete_columns_not_flagged
                   pandas_reference libm_reference lower_comparison
                   _ _ _ _ _ _) _).
  - vm_compute. reflexivity.
  - reflexivity.
  - reflexivity.
  - repeat constructor.
Defined.

End RoundingExtras.

(* ================================================================== *)
(** * Plots: [create_plots] *)
(* ================================================================== *)

Module Plots.
Import Binary64 Py Libs Frame Report.

(** What [create_plots] can raise beyond the exceptions of
    [analyze_split]. *)
Inductive error : Type :=
| Builtin (e : exn)
| IndexError
| LinAlgError.

Inductive outcome (A : Type) : Type :=
| Returned (a : A)
| Raised (e : error).

Arguments Returned {A} a.
Arguments Raised {A} e.

Definition lift {A : Type} (r : result A) : outcome A :=
  match r with
  | Ok a => Returned a
  | Raise e => Raised (Builtin e)
  end.

Definition and_then {A B : Type} (o : outcome A) (k : A -> outcome B)
  : outcome B :=
  match o with
  | Returned a => k a
  | Raised e => Raised e
  end.

Notation "x <~ o ;; k" := (and_then o (fun x => k))
  (at level 61, o at next level, right associativity).

(** [numpy.linspace] and [scipy.stats.gaussian_kde].  The estimator refuses
    a dataset that has not more than one element with ValueError; on other
    data it returns the density, a function from grid points to values, or
    raises what its linear algebra raises. *)
Class Kde : Type := {
  linspace : float64 -> float64 -> nat -> list float64;
  gaussian_kde : list float64 -> outcome (list float64 -> list float64);
  gaussian_kde_small : forall d,
    (length d <= 1)%nat -> gaussian_kde d = Raised (Builtin ValueError)
}.

(** The three trace objects the function builds, with the arguments it
    passes. *)
Inductive Trace : Type :=
| Box (y : list float64) (name : string) (marker_color : string)
      (boxmean : bool)
| Scatter (x y : list float64) (mode : string) (name : string)
          (fill : string) (line_color : string) (opacity : float64)
| Histogram (x : list float64) (name : string) (marker_color : string)
            (opacity : float64) (nbinsx : Z).

(** A trace with the subplot [add_trace] puts it in. *)
Record Placed : Type := { trace : Trace; row : nat; col : nat }.

Inductive PlotKind : Type := Boxplot | KDE_Plot | Histogram_Plot.

(** The figure: the subplot titles, the traces in the order they were
    added, the percentile of the title and the axis titles of each subplot.
    The other layout arguments are constants of the source. *)
Record Figure : Type := {
  subplot_titles : list (PlotKind * group_name);
  traces : list Placed;
  title_percent : pynum;
  axis_titles : list (nat * nat * string * string)
}.

(** [['2019_HE', '2021_HE']], the list all three loops run over. *)
Definition years : list string := [reference_column; comparison_column].

(** The dictionary [colors]. *)
Definition colors (year : string) : string :=
  if String.eqb year reference_column then "#1E88E5"%string
  else "#FF8C00"%string.

(** The literals [0.6] and [0.7]. *)
Definition opacity_density : float64 := Eval vm_compute in round64 (6 # 10).
Definition opacity_histogram : float64 := Eval vm_compute in round64 (7 # 10).

(** Run [f] on each item in turn and chain the traces it adds; the first
    exception ends the loop. *)
Fixpoint for_each {A B : Type} (f : A -> outcome (list B)) (l : list A)
  : outcome (list B) :=
  match l with
  | [] => Returned []
  | a :: l' => bs <~ f a ;; rest <~ for_each f l' ;; Returned (bs ++ rest)
  end.

(** The body of the first inner loop, lines 103 to 112. *)
Definition box_trace (group : DataFrame) (r : nat) (year : string)
  : outcome (list Placed) :=
  series <~ lift (getitem group year) ;;
  Returned [{| trace := Box (dropna series) year (colors year) true;
               row := r; col := 1 |}].

(** The body of the second inner loop, lines 115 to 134: nothing is added
    for a column without a valid value. *)
Definition density_trace `{Pandas} `{Kde} (group : DataFrame) (r : nat)
           (year : string) : outcome (list Placed) :=
  series <~ lift (getitem group year) ;;
  let kde_data := dropna series in
  match kde_data with
  | [] => Returned []
  | _ :: _ =>
      let kde_x := linspace (min kde_data) (max kde_data) 1000 in
      kde <~ gaussian_kde kde_data ;;
      let kde_y := kde kde_x in
      Returned [{| trace := Scatter kde_x kde_y "lines"%string year
                                    "tozeroy"%string (colors year)
                                    opacity_density;
                   row := r; col := 2 |}]
  end.

(** The body of the third inner loop, lines 137 to 147. *)
Definition histogram_trace (group : DataFrame) (r : nat) (year : string)
  : outcome (list Placed) :=
  series <~ lift (getitem group year) ;;
  Returned [{| trace := Histogram (dropna series) year (colors year)
                                  opacity_histogram 15%Z;
               row := r; col := 3 |}].

(** The body of the loop over [results.items()], lines 98 to 147, for the
    entry number [i]. *)
Definition group_traces `{Pandas} `{Kde} (i : nat) (res : GroupResult)
  : outcome (list Placed) :=
  let group := data res in
  let r := (i + 1)%nat in
  boxes <~ for_each (box_trace group r) years ;;
  densities <~ for_each (density_trace group r) years ;;
  histograms <~ for_each (histogram_trace group r) years ;;
  Returned (boxes ++ densities ++ histograms).

(** [enumerate]. *)
Fixpoint enumerate_from {A : Type} (i : nat) (l : list A) : list (nat * A) :=
  match l with
  | [] => []
  | a :: l' => (i, a) :: enumerate_from (S i) l'
  end.

(** The axis titles of lines 160 to 163. *)
Definition axis_title_table : list (nat * nat * string * string) :=
  flat_map (fun i =>
    map (fun j =>
           (i, j,
            (if Nat.eqb j 1 then "Year" else "$ HEpp")%string,
            (if Nat.eqb j 1 then "$ HEpp"
             else if Nat.eqb j 2 then "Density" else "Count")%string))
        (seq 1 3)) (seq 1 2).

(** [create_plots(percentile)], on the module's [data]. *)
Definition create_plots `{Numpy} `{Scipy} `{Pandas} `{Libm} `{Kde}
           (data : DataFrame) (percentile : pynum)
  : outcome (Figure * list (group_name * GroupResult)) :=
  results <~ lift (analyze_split data percentile) ;;
  match map fst results with
  | first :: second :: _ =>
      placed <~ for_each (fun entry => group_traces (fst entry)
                                                    (snd (snd entry)))
                         (enumerate_from 0 results) ;;
      Returned ({| subplot_titles :=
                     [(Boxplot, first); (KDE_Plot, first);
                      (Histogram_Plot, first);
                      (Boxplot, second); (KDE_Plot, second);
                      (Histogram_Plot, second)];
                   traces := placed;
                   title_percent := percentile;
                   axis_titles := axis_title_table |},
                results)
  | _ => Raised IndexError
  end.

End Plots.

(* ================================================================== *)
(** * A reference for the plotting libraries *)
(* ================================================================== *)

Module PlotsReference.
Import Binary64 Py Libs Frame Report Plots.

(** [numpy.linspace(start, stop, num)] for [num] above one:
    [arange(num) * step + start] with [step = (stop - start) / (num - 1)],
    and the last point set to [stop]. *)
Definition ref_linspace (start stop : float64) (num : nat) : list float64 :=
  let step := fdiv (fsub stop start) (Fin (inject_Z (Z.of_nat (num - 1)))) in
  map (fun i => fadd (fmul (Fin (inject_Z (Z.of_nat i))) step) start)
      (seq 0 (num - 1)) ++ [stop].

(** All the values are the same one. *)
Definition constant (d : list float64) : bool :=
  match d with
  | [] => true
  | x :: rest => forallb (fun y => fleb x y && fleb y x) rest
  end.

(** A stand-in for the estimator with its two refusals, few data and data
    without spread; the density it returns is not the Gaussian one. *)
Definition ref_gaussian_kde (d : list float64)
  : outcome (list float64 -> list float64) :=
  if (length d <=? 1)%nat then Raised (Builtin ValueError)
  else if constant d then Raised LinAlgError
  else Returned (fun grid => map (fun _ => Fin 0) grid).

Definition kde_reference : Kde.
Proof.
  refine {| linspace := ref_linspace; gaussian_kde := ref_gaussian_kde |}.
  intros d L. unfold ref_gaussian_kde.
  apply Nat.leb_le in L. rewrite L. reflexivity.
Defined.

(** Six rows, ranks [60, 50, ..., 10], with spread in both measured
    columns. *)
Definition six_rows : DataFrame :=
  Examples.frame Examples.report_columns
    [Examples.of_ints [60; 1; 2]; Examples.of_ints [50; 2; 4];
     Examples.of_ints [40; 3; 3]; Examples.of_ints [30; 4; 6];
     Examples.of_ints [20; 5; 5]; Examples.of_ints [10; 6; 8]]%Z.

End PlotsReference.

(* ================================================================== *)
(** * What [create_plots] draws *)
(* ================================================================== *)

Module PlotsFacts.
Import Binary64 Py PyFacts Libs Frame Report SplitFacts AnalysisFacts.
Import Reference ReferenceStats ReferenceFacts Examples.
Import AnalysisSpec AnalysisExtras Plots PlotsReference.

Lemma and_then_Returned {A B : Type} (o : outcome A) (k : A -> outcome B) b :
  and_then o k = Returned b -> exists a, o = Returned a /\ k a = Returned b.
Proof.
  destruct o as [a | e]; simpl; intros E; [| discriminate].
  exists a. split; [reflexivity | exact E].
Qed.

Lemma lift_Returned {A : Type} (r : result A) a :
  lift r = Returned a -> r = Ok a.
Proof. destruct r; simpl; intros E; [injection E as <-; reflexivity | discriminate]. Qed.

(** Nothing was raised. *)
Definition returned {A : Type} (o : outcome A) : bool :=
  match o with Returned _ => true | Raised _ => false end.

Lemma returned_value {A : Type} (o : outcome A) :
  returned o = true -> exists a, o = Returned a.
Proof. destruct o as [a | e]; [exists a; reflexivity | discriminate]. Qed.

Lemma for_each_years {B : Type} (f : string -> outcome (list B)) l :
  for_each f years = Returned l ->
  exists l1 l2,
    f reference_column = Returned l1 /\ f comparison_column = Returned l2 /\
    l = l1 ++ l2.
Proof.
  unfold years. cbn [for_each]. intros E.
  apply and_then_Returned in E. destruct E as (l1 & E1 & E).
  apply and_then_Returned in E. destruct E as (r & E2 & E).
  apply and_then_Returned in E2. destruct E2 as (l2 & E2 & E3).
  cbn [and_then] in E3. injection E3 as <-. injection E as <-.
  exists l1, l2. rewrite app_nil_r. repeat split; assumption.
Qed.

(** The name a trace is given. *)
Definition trace_name (t : Trace) : string :=
  match t with
  | Box _ name _ _ => name
  | Scatter _ _ _ name _ _ _ => name
  | Histogram _ name _ _ _ => name
  end.

(** The traces of one subplot. *)
Definition subplot (r c : nat) (fig : Figure) : list Placed :=
  filter (fun t => Nat.eqb (row t) r && Nat.eqb (col t) c) (traces fig).

(** Every trace of a group is in the group's row, in the column of its
    kind. *)
Definition in_place (r : nat) (t : Placed) : Prop :=
  row t = r /\
  col t = match trace t with
          | Box _ _ _ _ => 1
          | Scatter _ _ _ _ _ _ _ => 2
          | Histogram _ _ _ _ _ => 3
          end%nat.

Section WithLibs.
Context `{Pandas} `{Kde}.

(** The density trace of a column, when one is added. *)
Definition density_of (r : nat) (year : string) (series : list float64)
           (kde : list float64 -> list float64) : Placed :=
  let kde_x := linspace (min (dropna series)) (max (dropna series)) 1000 in
  {| trace := Scatter kde_x (kde kde_x) "lines" year "tozeroy" (colors year)
                      opacity_density;
     row := r; col := 2 |}.

Lemma box_trace_inv group r year l :
  box_trace group r year = Returned l ->
  exists series,
    getitem group year = Ok series /\
    l = [{| trace := Box (dropna series) year (colors year) true;
            row := r; col := 1 |}].
Proof.
  unfold box_trace. intros E.
  apply and_then_Returned in E. destruct E as (series & G & E).
  apply lift_Returned in G. injection E as <-.
  exists series. split; [exact G | reflexivity].
Qed.

Lemma histogram_trace_inv group r year l :
  histogram_trace group r year = Returned l ->
  exists series,
    getitem group year = Ok series /\
    l = [{| trace := Histogram (dropna series) year (colors year)
                               opacity_histogram 15;
            row := r; col := 3 |}].
Proof.
  unfold histogram_trace. intros E.
  apply and_then_Returned in E. destruct E as (series & G & E).
  apply lift_Returned in G. injection E as <-.
  exists series. split; [exact G | reflexivity].
Qed.

Lemma density_trace_inv group r year l :
  density_trace group r year = Returned l ->
  exists series,
    getitem group year = Ok series /\
    ((dropna series = [] /\ l = []) \/
     (exists kde,
         (2 <= length (dropna series))%nat /\
         gaussian_kde (dropna series) = Returned kde /\
         l = [density_of r year series kde])).
Proof.
  unfold density_trace. intros E.
  apply and_then_Returned in E. destruct E as (series & G & E).
  apply lift_Returned in G. exists series. split; [exact G |].
  cbv zeta in E. unfold density_of.
  destruct (dropna series) as [| v rest] eqn:D.
  - injection E as <-. left. split; reflexivity.
  - apply and_then_Returned in E. destruct E as (kde & K & E).
    injection E as <-. right. exists kde. split; [| split].
    + destruct rest as [| w rest']; [| simpl; lia].
      rewrite gaussian_kde_small in K by (simpl; lia). discriminate.
    + exact K.
    + reflexivity.
Qed.

(** What the loop body adds for one group, in order. *)
Lemma group_traces_inv i res ts :
  group_traces i res = Returned ts ->
  exists s1 s2 d1 d2,
    getitem (data res) reference_column = Ok s1 /\
    getitem (data res) comparison_column = Ok s2 /\
    density_trace (data res) (i + 1) reference_column = Returned d1 /\
    density_trace (data res) (i + 1) comparison_column = Returned d2 /\
    ts = [{| trace := Box (dropna s1) reference_column
                          (colors reference_column) true;
             row := i + 1; col := 1 |};
          {| trace := Box (dropna s2) comparison_column
                          (colors comparison_column) true;
             row := i + 1; col := 1 |}]
         ++ (d1 ++ d2)
         ++ [{| trace := Histogram (dropna s1) reference_column
                                   (colors reference_column)
                                   opacity_histogram 15;
                row := i + 1; col := 3 |};
             {| trace := Histogram (dropna s2) comparison_column
                                   (colors comparison_column)
                                   opacity_histogram 15;
                row := i + 1; col := 3 |}].
Proof.
  unfold group_traces. cbv zeta. intros E.
  apply and_then_Returned in E. destruct E as (boxes & B & E).
  apply and_then_Returned in E. destruct E as (densities & D & E).
  apply and_then_Returned in E. destruct E as (histograms & Hi & E).
  injection E as <-.
  apply for_each_years in B. destruct B as (b1 & b2 & B1 & B2 & ->).
  apply for_each_years in D. destruct D as (d1 & d2 & D1 & D2 & ->).
  apply for_each_years in Hi. destruct Hi as (h1 & h2 & H1 & H2 & ->).
  apply box_trace_inv in B1. destruct B1 as (s1 & G1 & ->).
  apply box_trace_inv in B2. destruct B2 as (s2 & G2 & ->).
  apply histogram_trace_inv in H1. destruct H1 as (s1' & G1' & ->).
  apply histogram_trace_inv in H2. destruct H2 as (s2' & G2' & ->).
  rewrite G1 in G1'. injection G1' as <-.
  rewrite G2 in G2'. injection G2' as <-.
  exists s1, s2, d1, d2. repeat split; assumption.
Qed.

Lemma density_trace_place group r year l :
  density_trace group r year = Returned l -> Forall (in_place r) l.
Proof.
  intros E. apply density_trace_inv in E.
  destruct E as (series & _ & [[_ ->] | (kde & _ & _ & ->)]).
  - constructor.
  - constructor; [| constructor]. split; reflexivity.
Qed.

Lemma group_traces_place i res ts :
  group_traces i res = Returned ts -> Forall (in_place (i + 1)) ts.
Proof.
  intros E. apply group_traces_inv in E.
  destruct E as (s1 & s2 & d1 & d2 & _ & _ & D1 & D2 & ->).
  apply density_trace_place in D1, D2.
  repeat (apply Forall_app; split); try assumption.
  all: repeat constructor.
Qed.

Lemma density_cases group r year d :
  density_trace group r year = Returned d ->
  d = [] \/
  exists t, d = [t] /\ row t = r /\ col t = 2%nat /\
            trace_name (trace t) = year.
Proof.
  intros E. apply density_trace_inv in E.
  destruct E as (series & _ & [[_ ->] | (kde & _ & _ & ->)]).
  - left. reflexivity.
  - right. eexists. split; [reflexivity |]. repeat split.
Qed.

Lemma dropna_short series :
  (length series <= 1)%nat -> (length (dropna series) <= 1)%nat.
Proof.
  intros L. unfold dropna.
  pose proof (filter_length_le (fun x => negb (is_nan x)) series). lia.
Qed.

Context `{Numpy} `{Scipy} `{Libm}.

(** The figure [create_plots] returns, in terms of the two groups. *)
Lemma create_plots_inv data p fig results :
  create_plots data p = Returned (fig, results) ->
  exists r1 r2 t1 t2,
    analyze_split data p = Ok results /\
    results = [(Top p, r1); (Bottom (rsub_int 100 p), r2)] /\
    group_traces 0 r1 = Returned t1 /\
    group_traces 1 r2 = Returned t2 /\
    traces fig = t1 ++ t2.
Proof.
  unfold create_plots. intros E.
  apply and_then_Returned in E. destruct E as (results' & A & E).
  apply lift_Returned in A.
  destruct (analyze_split_inv _ _ _ A) as (up & lo & r1 & r2 & _ & _ & _ & R).
  subst results'. cbn [map fst snd enumerate_from for_each] in E.
  apply and_then_Returned in E. destruct E as (placed & F & E).
  injection E as <- <-.
  apply and_then_Returned in F. destruct F as (t1 & T1 & F).
  apply and_then_Returned in F. destruct F as (rest & T2 & F).
  apply and_then_Returned in T2. destruct T2 as (t2 & T2 & T3).
  cbn [and_then] in T3. injection T3 as <-. injection F as <-.
  exists r1, r2, t1, t2. rewrite app_nil_r.
  repeat split; try assumption; reflexivity.
Qed.

Lemma create_plots_entry data p fig results i name res :
  create_plots data p = Returned (fig, results) ->
  nth_error results i = Some (name, res) ->
  exists ts other j,
    analyze_group (Report.data res) = Ok res /\
    group_traces i res = Returned ts /\
    Forall (in_place (j + 1)) other /\ (i < 2)%nat /\ (j < 2)%nat /\
    j <> i /\
    (traces fig = ts ++ other \/ traces fig = other ++ ts).
Proof.
  intros E N.
  destruct (create_plots_inv _ _ _ _ E)
    as (r1 & r2 & t1 & t2 & A & -> & T1 & T2 & F).
  destruct (analyze_split_inv _ _ _ A)
    as (up & lo & r1' & r2' & _ & G1 & G2 & R).
  injection R as <- <-.
  assert (forall g r, analyze_group g = Ok r -> Report.data r = g) as D.
  { intros g r G. apply analyze_group_inv in G.
    destruct G as (? & ? & ? & ? & _ & _ & _ & _ & ->). reflexivity. }
  destruct i as [| [| i]]; simpl in N.
  - injection N as <- <-. exists t1, t2, 1%nat.
    rewrite (D _ _ G1). repeat split; try assumption; try lia.
    + apply (group_traces_place _ _ _ T2).
    + left. exact F.
  - injection N as <- <-. exists t2, t1, 0%nat.
    rewrite (D _ _ G2). repeat split; try assumption; try lia.
    + apply (group_traces_place _ _ _ T1).
    + right. exact F.
  - destruct i; discriminate.
Qed.

Lemma In_traces fig ts other t :
  (traces fig = ts ++ other \/ traces fig = other ++ ts) ->
  In t ts -> In t (traces fig).
Proof. intros [-> | ->] I; apply in_or_app; [left | right]; exact I. Qed.

Lemma years_cases year :
  In year years -> year = reference_column \/ year = comparison_column.
Proof. intros [<- | [<- | []]]; [left | right]; reflexivity. Qed.

Lemma subplot_app fig r c ts other j :
  (traces fig = ts ++ other \/ traces fig = other ++ ts) ->
  Forall (in_place (j + 1)) other -> (j + 1)%nat <> r ->
  subplot r c fig
  = filter (fun t => Nat.eqb (row t) r && Nat.eqb (col t) c) ts.
Proof.
  intros F O J. unfold subplot.
  assert (filter (fun t => Nat.eqb (row t) r && Nat.eqb (col t) c) other = [])
    as Z.
  { clear F. induction O as [| t other [R _] O IH]; [reflexivity |].
    simpl. rewrite R. destruct (Nat.eqb_spec (j + 1) r); [contradiction |].
    simpl. exact IH. }
  destruct F as [-> | ->]; rewrite filter_app, Z;
    [apply app_nil_r | reflexivity].
Qed.

Lemma in_subplot r c fig t :
  In t (subplot r c fig) <-> In t (traces fig) /\ row t = r /\ col t = c.
Proof.
  unfold subplot. rewrite filter_In, andb_true_iff, !Nat.eqb_eq. tauto.
Qed.

End WithLibs.

(* ------------------------------------------------------------------ *)
(** ** The charts are drawn from the values the table counts *)

(** When [create_plots] returns, then for each of the two groups, number
    [i], and each of the two measured columns, the box plot in row [i + 1],
    column 1, and the histogram in row [i + 1], column 3, are drawn from the
    column of that group's [data] without its missing values; none of the
    plotted values is NaN, and their number is the [Count] entry of the
    group's statistics. *)
Theorem plots_show_counted_values :
  forall (np : Numpy) (sp : Scipy) (pd : Pandas) (lm : Libm) (kd : Kde)
         data p fig results i name res year,
    create_plots data p = Returned (fig, results) ->
    nth_error results i = Some (name, res) ->
    In year years ->
    exists series st,
      getitem (Report.data res) year = Ok series /\
      lookup year (stats res) = Some st /\
      In {| trace := Box (dropna series) year (colors year) true;
            row := i + 1; col := 1 |} (traces fig) /\
      In {| trace := Histogram (dropna series) year (colors year)
                               opacity_histogram 15;
            row := i + 1; col := 3 |} (traces fig) /\
      Z.of_nat (length (dropna series)) = Count st /\
      Forall (fun v => is_nan v = false) (dropna series).
Proof.
  intros np sp pd lm kd data p fig results i name res year E N Y.
  destruct (create_plots_entry _ _ _ _ _ _ _ E N)
    as (ts & other & j & G & T & _ & _ & _ & _ & F).
  destruct (group_traces_inv _ _ _ T)
    as (s1 & s2 & d1 & d2 & G1 & G2 & _ & _ & ->).
  destruct (analyze_group_inv _ _ G)
    as (cmp & ref & st19 & st21 & Gc & Gr & D19 & D21 & R).
  rewrite G1 in Gr. injection Gr as <-.
  rewrite G2 in Gc. injection Gc as <-.
  assert (forall s, Forall (fun v => is_nan v = false) (dropna s)) as V.
  { intros s. apply Forall_forall. intros v I.
    apply dropna_In in I. apply I. }
  destruct (years_cases _ Y) as [-> | ->].
  - exists s1, st19. split; [exact G1 |]. split; [rewrite R; reflexivity |].
    split; [| split; [| split]].
    + apply (In_traces _ _ _ _ F). left. reflexivity.
    + apply (In_traces _ _ _ _ F). apply in_or_app. right.
      apply in_or_app. right. left. reflexivity.
    + rewrite (describe_count _ _ D19). symmetry. apply count_valid.
    + apply V.
  - exists s2, st21. split; [exact G2 |]. split; [rewrite R; reflexivity |].
    split; [| split; [| split]].
    + apply (In_traces _ _ _ _ F). right. left. reflexivity.
    + apply (In_traces _ _ _ _ F). apply in_or_app. right.
      apply in_or_app. right. right. left. reflexivity.
    + rewrite (describe_count _ _ D21). symmetry. apply count_valid.
    + apply V.
Qed.

Lemma plots_show_counted_values_witness :
  exists fig results name res,
    @create_plots numpy_stable scipy_reference pandas_reference
                  libm_reference kde_reference six_rows (PyInt 50)
    = Returned (fig, results) /\
    nth_error results 1 = Some (name, res) /\
    exists series st,
      getitem (Report.data res) comparison_column = Ok series /\
      lookup comparison_column (stats res) = Some st /\
      In {| trace := Box (dropna series) comparison_column
                         (colors comparison_column) true;
            row := 1 + 1; col := 1 |} (traces fig) /\
      In {| trace := Histogram (dropna series) comparison_column
                               (colors comparison_column)
                               opacity_histogram 15;
            row := 1 + 1; col := 3 |} (traces fig) /\
      Z.of_nat (length (dropna series)) = Count st /\
      Forall (fun v => is_nan v = false) (dropna series).
Proof.
  destruct (returned_value
              (@create_plots numpy_stable scipy_reference pandas_reference
                             libm_reference kde_reference six_rows
                             (PyInt 50)))
    as ([fig results] & E); [vm_compute; reflexivity |].
  destruct (create_plots_inv _ _ _ _ E) as (r1 & r2 & _ & _ & _ & R & _).
  exists fig, results, (Bottom (rsub_int 100 (PyInt 50))), r2.
  split; [exact E |]. split; [rewrite R; reflexivity |].
  apply (plots_show_counted_values
           numpy_stable scipy_reference pandas_reference libm_reference
           kde_reference six_rows (PyInt 50) fig results 1%nat
           (Bottom (rsub_int 100 (PyInt 50))) r2 comparison_column).
  - exact E.
  - rewrite R. reflexivity.
  - right. left. reflexivity.
Defined.

(* ------------------------------------------------------------------ *)
(** ** The traces stay in the grid *)

(** When [create_plots] returns, every trace is in row 1 or row 2, a box
    plot in column 1, a density in column 2 and a histogram in column 3;
    each row has exactly two box plots and two histograms, and at most two
    densities. *)
Theorem plots_stay_in_grid :
  forall (np : Numpy) (sp : Scipy) (pd : Pandas) (lm : Libm) (kd : Kde)
         data p fig results,
    create_plots data p = Returned (fig, results) ->
    Forall (fun t => in_place 1 t \/ in_place 2 t) (traces fig) /\
    forall r, r = 1%nat \/ r = 2%nat ->
              length (subplot r 1 fig) = 2%nat /\
              (length (subplot r 2 fig) <= 2)%nat /\
              length (subplot r 3 fig) = 2%nat.
Proof.
  intros np sp pd lm kd data p fig results E.
  destruct (create_plots_inv _ _ _ _ E)
    as (r1 & r2 & t1 & t2 & A & -> & T1 & T2 & F).
  split.
  - rewrite F. apply Forall_app. split.
    + apply group_traces_place in T1.
      revert T1. apply Forall_impl. intros t I. left. exact I.
    + apply group_traces_place in T2.
      revert T2. apply Forall_impl. intros t I. right. exact I.
  - assert (forall i res ts,
               group_traces i res = Returned ts ->
               let pick c := filter (fun t => Nat.eqb (row t) (i + 1)
                                              && Nat.eqb (col t) c) ts in
               length (pick 1%nat) = 2%nat /\
               (length (pick 2%nat) <= 2)%nat /\
               length (pick 3%nat) = 2%nat) as K.
    { intros i res ts T.
      destruct (group_traces_inv _ _ _ T)
        as (s1 & s2 & d1 & d2 & _ & _ & D1 & D2 & ->).
      cbv beta zeta. rewrite !filter_app, !length_app.
      cbn [filter row col]. rewrite !Nat.eqb_refl. cbn [andb Nat.eqb length].
      apply density_cases in D1, D2.
      destruct D1 as [-> | (a & -> & Ra & Ca & _)];
        destruct D2 as [-> | (b & -> & Rb & Cb & _)];
        cbn [filter]; rewrite ?Ra, ?Rb, ?Ca, ?Cb, ?Nat.eqb_refl;
        cbn [andb Nat.eqb length]; repeat split; lia. }
    intros r [-> | ->].
    + rewrite !(subplot_app fig 1 _ t1 t2 1) by
        (first [left; exact F | apply (group_traces_place _ _ _ T2) | lia]).
      apply (K 0%nat r1 t1 T1).
    + rewrite !(subplot_app fig 2 _ t2 t1 0) by
        (first [right; exact F | apply (group_traces_place _ _ _ T1) | lia]).
      apply (K 1%nat r2 t2 T2).
Qed.

Lemma plots_stay_in_grid_witness :
  exists fig results,
    @create_plots numpy_stable scipy_reference pandas_reference
                  libm_reference kde_reference six_rows (PyInt 50)
    = Returned (fig, results) /\
    Forall (fun t => in_place 1 t \/ in_place 2 t) (traces fig) /\
    forall r, r = 1%nat \/ r = 2%nat ->
              length (subplot r 1 fig) = 2%nat /\
              (length (subplot r 2 fig) <= 2)%nat /\
              length (subplot r 3 fig) = 2%nat.
Proof.
  destruct (returned_value
              (@create_plots numpy_stable scipy_reference pandas_reference
                             libm_reference kde_reference six_rows
                             (PyInt 50)))
    as ([fig results] & E); [vm_compute; reflexivity |].
  exists fig, results. split; [exact E |].
  apply (plots_stay_in_grid
           numpy_stable scipy_reference pandas_reference libm_reference
           kde_reference six_rows (PyInt 50) fig results).
  exact E.
Defined.

(* ------------------------------------------------------------------ *)
(** ** A density needs two valid values *)

(** When [create_plots] returns, each column of each group either has no
    valid value, and then its row has no density named after it, or has at
    least two, and then the density the estimator returned for them is
    drawn in column 2 of the group's row, over 1000 points between their
    minimum and maximum. *)
Theorem density_needs_two_values :
  forall (np : Numpy) (sp : Scipy) (pd : Pandas) (lm : Libm) (kd : Kde)
         data p fig results i name res year,
    create_plots data p = Returned (fig, results) ->
    nth_error results i = Some (name, res) ->
    In year years ->
    exists series,
      getitem (Report.data res) year = Ok series /\
      ((dropna series = [] /\
        forall t, In t (subplot (i + 1) 2 fig) ->
                  trace_name (trace t) <> year) \/
       ((2 <= length (dropna series))%nat /\
        exists kde,
          gaussian_kde (dropna series) = Returned kde /\
          In (density_of (i + 1) year series kde)
             (subplot (i + 1) 2 fig))).
Proof.
  intros np sp pd lm kd data p fig results i name res year E N Y.
  destruct (create_plots_entry _ _ _ _ _ _ _ E N)
    as (ts & other & j & G & T & O & _ & _ & J & F).
  destruct (group_traces_inv _ _ _ T)
    as (s1 & s2 & d1 & d2 & G1 & G2 & D1 & D2 & ->).
  assert (forall t, In t (subplot (i + 1) 2 fig) -> In t (d1 ++ d2)) as S.
  { intros t I. apply in_subplot in I. destruct I as (I & R & C).
    assert (In t other -> False) as NO.
    { intros IO. rewrite Forall_forall in O. destruct (O t IO) as [R' _].
      lia. }
    assert (In t ([{| trace := Box (dropna s1) reference_column
                                   (colors reference_column) true;
                      row := i + 1; col := 1 |};
                   {| trace := Box (dropna s2) comparison_column
                                   (colors comparison_column) true;
                      row := i + 1; col := 1 |}]
                  ++ (d1 ++ d2)
                  ++ [{| trace := Histogram (dropna s1) reference_column
                                            (colors reference_column)
                                            opacity_histogram 15;
                         row := i + 1; col := 3 |};
                      {| trace := Histogram (dropna s2) comparison_column
                                            (colors comparison_column)
                                            opacity_histogram 15;
                         row := i + 1; col := 3 |}])) as IT.
    { destruct F as [F | F]; rewrite F in I; apply in_app_or in I;
        destruct I as [I | I]; first [exact I | contradiction (NO I)]. }
    apply in_app_or in IT. destruct IT as [[<- | [<- | []]] | IT];
      try discriminate C.
    apply in_app_or in IT. destruct IT as [IT | [<- | [<- | []]]];
      try discriminate C.
    exact IT. }
  assert (forall year' series d,
             getitem (Report.data res) year' = Ok series ->
             density_trace (Report.data res) (i + 1) year' = Returned d ->
             In d [d1; d2] ->
             (dropna series = [] /\ d = []) \/
             ((2 <= length (dropna series))%nat /\
              exists kde,
                gaussian_kde (dropna series) = Returned kde /\
                In (density_of (i + 1) year' series kde)
                   (subplot (i + 1) 2 fig))) as K.
  { intros year' series d Gy Dy Id. apply density_trace_inv in Dy.
    destruct Dy as (series' & Gy' & Dy). rewrite Gy in Gy'.
    injection Gy' as <-.
    destruct Dy as [[Dn ->] | (kde & L & Kd & ->)].
    - left. split; [exact Dn | reflexivity].
    - right. split; [exact L |]. exists kde. split; [exact Kd |].
      apply in_subplot. split; [| split; reflexivity].
      apply (In_traces _ _ _ _ F). apply in_or_app. right.
      apply in_or_app. left.
      destruct Id as [-> | [-> | []]]; apply in_or_app;
        [left | right]; left; reflexivity. }
  destruct (density_cases _ _ _ _ D1) as [E1 | (a & E1 & _ & _ & Na)];
    destruct (density_cases _ _ _ _ D2) as [E2 | (b & E2 & _ & _ & Nb)].
  all: destruct (years_cases _ Y) as [-> | ->].
  all: first [ exists s1; split; [exact G1 |];
               destruct (K _ _ _ G1 D1 ltac:(left; reflexivity))
                 as [[Dn Dd] | R]
             | exists s2; split; [exact G2 |];
               destruct (K _ _ _ G2 D2 ltac:(right; left; reflexivity))
                 as [[Dn Dd] | R] ];
    [left; split; [exact Dn |] | right; exact R].
  all: intros t I; apply S in I; subst; try discriminate;
    cbn [app In] in I.
  all: repeat match goal with
              | I : _ \/ _ |- _ => destruct I as [<- | I]
              | I : False |- _ => destruct I
              end.
  all: try (rewrite Na; discriminate); try (rewrite Nb; discriminate).
Qed.

Lemma density_needs_two_values_witness :
  exists fig results name res,
    @create_plots numpy_stable scipy_reference pandas_reference
                  libm_reference kde_reference six_rows (PyInt 50)
    = Returned (fig, results) /\
    nth_error results 0 = Some (name, res) /\
    exists series,
      getitem (Report.data res) reference_column = Ok series /\
      ((dropna series = [] /\
        forall t, In t (subplot (0 + 1) 2 fig) ->
                  trace_name (trace t) <> reference_column) \/
       ((2 <= length (dropna series))%nat /\
        exists kde,
          @gaussian_kde kde_reference (dropna series) = Returned kde /\
          In (@density_of pandas_reference kde_reference (0 + 1)
                          reference_column series kde)
             (subplot (0 + 1) 2 fig))).
Proof.
  destruct (returned_value
              (@create_plots numpy_stable scipy_reference pandas_reference
                             libm_reference kde_reference six_rows
                             (PyInt 50)))
    as ([fig results] & E); [vm_compute; reflexivity |].
  destruct (create_plots_inv _ _ _ _ E) as (r1 & r2 & _ & _ & _ & R & _).
  exists fig, results, (Top (PyInt 50)), r1.
  split; [exact E |]. split; [rewrite R; reflexivity |].
  apply (density_needs_two_values
           numpy_stable scipy_reference pandas_reference libm_reference
           kde_reference six_rows (PyInt 50) fig results 0%nat
           (Top (PyInt 50)) r1 reference_column).
  - exact E.
  - rewrite R. reflexivity.
  - left. reflexivity.
Defined.

(* ------------------------------------------------------------------ *)
(** ** One valid value is not enough *)

(** If [analyze_split] returns and some group has exactly one valid value
    in one of the two measured columns, [create_plots] raises: no figure is
    returned, although the statistics were computed. *)
Theorem create_plots_single_valid_value :
  forall (np : Numpy) (sp : Scipy) (pd : Pandas) (lm : Libm) (kd : Kde)
         data p results i name res year series,
    analyze_split data p = Ok results ->
    nth_error results i = Some (name, res) ->
    In year years ->
    getitem (Report.data res) year = Ok series ->
    length (dropna series) = 1%nat ->
    exists e, create_plots data p = Raised e.
Proof.
  intros np sp pd lm kd data p results i name res year series A N Y G L.
  destruct (create_plots data p) as [[fig results'] | e] eqn:E;
    [exfalso | exists e; reflexivity].
  destruct (create_plots_inv _ _ _ _ E) as (_ & _ & _ & _ & A' & _).
  rewrite A in A'. injection A' as <-.
  destruct (create_plots_entry _ _ _ _ _ _ _ E N)
    as (ts & other & j & _ & T & _).
  destruct (group_traces_inv _ _ _ T)
    as (s1 & s2 & d1 & d2 & G1 & G2 & D1 & D2 & _).
  assert (forall d, density_trace (Report.data res) (i + 1) year = Returned d
                    -> False) as K.
  { intros d D. apply density_trace_inv in D.
    destruct D as (series' & G' & D). rewrite G in G'. injection G' as <-.
    destruct D as [[Dn _] | (kde & L2 & _)].
    - rewrite Dn in L. discriminate.
    - lia. }
  destruct (years_cases _ Y) as [-> | ->]; eapply K; eassumption.
Qed.

Lemma create_plots_single_valid_value_witness :
  exists results name res series,
    @analyze_split numpy_stable scipy_reference pandas_reference
                   libm_reference ten_rows (PyInt 5) = Ok results /\
    nth_error results 0 = Some (name, res) /\
    getitem (Report.data res) comparison_column = Ok series /\
    length (dropna series) = 1%nat /\
    exists e,
      @create_plots numpy_stable scipy_reference pandas_reference
                    libm_reference kde_reference ten_rows (PyInt 5)
      = Raised e.
Proof.
  do 4 eexists. split; [vm_compute; reflexivity |].
  split; [reflexivity |]. split; [vm_compute; reflexivity |].
  split; [vm_compute; reflexivity |].
  eapply (create_plots_single_valid_value
            numpy_stable scipy_reference pandas_reference libm_reference
            kde_reference ten_rows (PyInt 5) _ 0%nat _ _ comparison_column).
  - vm_compute. reflexivity.
  - reflexivity.
  - right. left. reflexivity.
  - vm_compute. reflexivity.
  - vm_compute. reflexivity.
Defined.

(* ------------------------------------------------------------------ *)
(** ** An upper group of one row *)

(** If [analyze_split] returns and the upper group has one row, as it has
    whenever the cutoff is 1, and that row has a value in [2019_HE] or in
    [2021_HE], then [create_plots] raises ValueError, from the density
    estimator. *)
Theorem create_plots_one_row_group :
  forall (np : Numpy) (sp : Scipy) (pd : Pandas) (lm : Libm) (kd : Kde)
         data p results name res s1 s2,
    analyze_split data p = Ok results ->
    nth_error results 0 = Some (name, res) ->
    len (Report.data res) = 1%nat ->
    getitem (Report.data res) reference_column = Ok s1 ->
    getitem (Report.data res) comparison_column = Ok s2 ->
    dropna s1 <> [] \/ dropna s2 <> [] ->
    create_plots data p = Raised (Builtin ValueError).
Proof.
  intros np sp pd lm kd data p results name res s1 s2 A N L G1 G2 V.
  destruct (analyze_split_inv _ _ _ A)
    as (up & lo & r1 & r2 & _ & _ & _ & ->).
  simpl in N. injection N as <- <-.
  assert (forall year s, getitem (Report.data r1) year = Ok s ->
                         (length (dropna s) <= 1)%nat) as S.
  { intros year s G. apply dropna_short.
    destruct (getitem_position _ _ _ G) as (j & _ & ->).
    rewrite length_map. unfold len in L. lia. }
  unfold create_plots. rewrite A.
  cbn [lift and_then map fst snd enumerate_from for_each].
  unfold group_traces. cbv zeta. unfold years. cbn [for_each].
  unfold box_trace at 1 2. rewrite G1, G2. cbn [lift and_then].
  unfold density_trace at 1. rewrite G1. cbn [lift and_then]. cbv zeta.
  pose proof (S _ _ G1) as L1. pose proof (S _ _ G2) as L2.
  destruct (dropna s1) as [| v1 rest1] eqn:D1.
  - cbn [and_then]. unfold density_trace at 1. rewrite G2.
    cbn [lift and_then]. cbv zeta.
    destruct (dropna s2) as [| v2 rest2] eqn:D2.
    + destruct V as [V | V]; contradiction V; reflexivity.
    + rewrite gaussian_kde_small by exact L2. reflexivity.
  - rewrite gaussian_kde_small by exact L1. reflexivity.
Qed.

Lemma create_plots_one_row_group_witness :
  exists results name res s1 s2,
    @analyze_split numpy_stable scipy_reference pandas_reference
                   libm_reference ten_rows (PyInt 5) = Ok results /\
    nth_error results 0 = Some (name, res) /\
    len (Report.data res) = 1%nat /\
    getitem (Report.data res) reference_column = Ok s1 /\
    getitem (Report.data res) comparison_column = Ok s2 /\
    (dropna s1 <> [] \/ dropna s2 <> []) /\
    @create_plots numpy_stable scipy_reference pandas_reference
                  libm_reference kde_reference ten_rows (PyInt 5)
    = Raised (Builtin ValueError).
Proof.
  do 5 eexists. split; [vm_compute; reflexivity |].
  split; [reflexivity |]. split; [vm_compute; reflexivity |].
  split; [vm_compute; reflexivity |]. split; [vm_compute; reflexivity |].
  split; [left; vm_compute; discriminate |].
  eapply (create_plots_one_row_group
            numpy_stable scipy_reference pandas_reference libm_reference
            kde_reference ten_rows (PyInt 5)).
  - vm_compute. reflexivity.
  - reflexivity.
  - vm_compute. reflexivity.
  - vm_compute. reflexivity.
  - vm_compute. reflexivity.
  - left. vm_compute. discriminate.
Defined.

End PlotsFacts.
